(** * Row normalisation, column projection and ZIP export of the
      thematic-sessions dashboard

    A shallow embedding of the JavaScript sources

    - [transform.js]      ([flattenOrganizer], [normaliseKeywords],
                           [transformRow], [transformRows]),
    - [reg-transform.js]  ([boolStr], [fileLabel], [transformRegistration],
                           [transformAbstract], [transformPayment] and the
                           three batch helpers),
    - [columns.js], [reg-columns.js] (the four column lists, [uiColumns],
                           [excelColumns]),
    - [zip-export.js]     ([buildSheet], [fetchStorageFile], [storageBasename],
                           [safeEmail], [zipFilename], [downloadZip]),
    - [excel-export.js]   ([downloadXlsx]),
    - [reg-app.js]        ([exportExcel] of the abstracts page),
    - [reg-renderer.js]   ([clearChildren], [renderRegTable]),
    - [table-renderer.js] ([renderTable], in its version with the sidebar),

    together with the part of the JavaScript run time those functions rest
    on: loosely typed values, truthiness, [String(v)], [Array.prototype.join],
    [String.prototype.trim/replace/split], [JSON.parse], and the part of the
    DOM the renderers build.

    Conventions.
    - A JavaScript string is the list of its UTF-16 code units ([list N]);
      string literals are written between double quotes in [js_scope].
    - A function of the source that can throw returns a [result]; a [try]
      block is [try_catch].
    - Numbers are kept abstract behind the class [JsNumber]: the sources
      only ever test a number for truthiness and print it.  [exact_decimal]
      is the instance used to run the model on concrete inputs. *)

From stdpp Require Import gmap list fin_maps.
From Stdlib Require Import ZArith NArith.
From Stdlib.Strings Require Import Byte.

Set Warnings "-register-all,-via-type-remapping,-via-type-mismatch".

(* ===================================================================== *)
(** ** Strings as lists of UTF-16 code units                              *)
(* ===================================================================== *)

(** The syntax tree string literals are read through: a literal denotes the
    list of the codes of its characters. *)
Inductive literal_syntax : Set :=
  | LitNil
  | LitCons (c : N) (rest : literal_syntax).

Fixpoint literal_of_bytes (bs : list byte) : literal_syntax :=
  match bs with
  | [] => LitNil
  | b :: bs' => LitCons (Byte.to_N b) (literal_of_bytes bs')
  end.

Fixpoint literal_to_bytes (s : literal_syntax) : option (list byte) :=
  match s with
  | LitNil => Some []
  | LitCons c rest =>
      match Byte.of_N c, literal_to_bytes rest with
      | Some b, Some bs => Some (b :: bs)
      | _, _ => None
      end
  end.

Definition code_units : Type := list N.

Declare Scope js_scope.
Delimit Scope js_scope with js.
String Notation code_units literal_of_bytes literal_to_bytes
  (via literal_syntax mapping [[nil] => LitNil, [cons] => LitCons]) : js_scope.
Open Scope js_scope.

Abbreviation jsstring := (list N) (only parsing).

(** Code units that occur in the sources as single characters. *)
Definition ch_quote     : N := 34.   (* the double quote *)
Definition ch_backslash : N := 92.
Definition ch_slash     : N := 47.
Definition ch_at        : N := 64.
Definition ch_lbracket  : N := 91.
Definition ch_underscore : N := 95.

(** [WhiteSpace] and [LineTerminator] of ECMAScript: what [trim] strips. *)
Definition is_js_space (c : N) : bool :=
  ((9 <=? c) && (c <=? 13) || (c =? 32) || (c =? 160) || (c =? 5760)
   || (8192 <=? c) && (c <=? 8202) || (c =? 8232) || (c =? 8233)
   || (c =? 8239) || (c =? 8287) || (c =? 12288) || (c =? 65279))%N.

Fixpoint trimStart (s : jsstring) : jsstring :=
  match s with
  | [] => []
  | c :: s' => if is_js_space c then trimStart s' else s
  end.

Definition trimEnd (s : jsstring) : jsstring := rev (trimStart (rev s)).

(** [s.trim()] *)
Definition trim (s : jsstring) : jsstring := trimEnd (trimStart s).

(** [s.charAt(0) === c]: [charAt] of an empty string is the empty string,
    which equals no one-character string. *)
Definition first_char_is (c : N) (s : jsstring) : bool :=
  match s with
  | [] => false
  | c0 :: _ => (c0 =? c)%N
  end.

(** [s.replace(/c/g, t)] for a pattern that is the single character [c]. *)
Definition replace_all_char (c : N) (t : jsstring) (s : jsstring) : jsstring :=
  flat_map (fun x => if (x =? c)%N then t else [x]) s.

(** [s.split(sep)] for a one-character separator: the pieces between the
    separators, empty pieces included; never the empty list. *)
Fixpoint split_on (sep : N) (s : jsstring) : list jsstring :=
  match s with
  | [] => [[]]
  | c :: s' =>
      if (c =? sep)%N then [] :: split_on sep s'
      else match split_on sep s' with
           | [] => [[c]]
           | piece :: pieces => (c :: piece) :: pieces
           end
  end.

(** The pieces of an array of strings glued with [sep] in between. *)
Fixpoint join_with (sep : jsstring) (pieces : list jsstring) : jsstring :=
  match pieces with
  | [] => []
  | [p] => p
  | p :: rest => p ++ sep ++ join_with sep rest
  end.

(* ===================================================================== *)
(** ** Numbers                                                            *)
(* ===================================================================== *)

(** What the sources need of an IEEE-754 double: whether it is falsy (zero
    of either sign, or NaN), how [String(x)] prints it, and which number a
    JSON literal [(-1)^neg * mantissa * 10^exponent] denotes. *)
Class JsNumber (number : Type) : Type := {
  number_is_falsy : number -> bool;
  number_to_string : number -> jsstring;
  number_of_literal : bool -> N -> Z -> number;
}.

(* ===================================================================== *)
(** ** Values                                                             *)
(* ===================================================================== *)

(** The values a row can hold: what JSON transport delivers, and
    [undefined] for what is absent.  An object is the finite map of its own
    properties. *)
Inductive JsVal (number : Type) : Type :=
  | JUndefined
  | JNull
  | JBool (b : bool)
  | JNum (n : number)
  | JStr (s : jsstring)
  | JArr (elems : list (JsVal number))
  | JObj (props : gmap jsstring (JsVal number)).

Arguments JUndefined {number}.
Arguments JNull {number}.
Arguments JBool {number} b.
Arguments JNum {number} n.
Arguments JStr {number} s.
Arguments JArr {number} elems.
Arguments JObj {number} props.

(** A plain object, as a row is. *)
Abbreviation JsObject number := (gmap jsstring (JsVal number)) (only parsing).

Inductive JsError : Set :=
  | TypeError
  | SyntaxError
  | NetworkError.

(** The outcome of running a piece of JavaScript: a value, or a throw. *)
Inductive result (A : Type) : Type :=
  | Ok (a : A)
  | Throw (e : JsError).

Arguments Ok {A} a.
Arguments Throw {A} e.

#[global] Instance result_ret : MRet result := fun A a => Ok a.
#[global] Instance result_bind : MBind result := fun A B f r =>
  match r with
  | Ok a => f a
  | Throw e => Throw e
  end.
#[global] Instance result_fmap : FMap result := fun A B f r =>
  match r with
  | Ok a => Ok (f a)
  | Throw e => Throw e
  end.

(** [try { body } catch (_e) { handler }] *)
Definition try_catch {A} (body : result A) (handler : JsError -> result A) : result A :=
  match body with
  | Ok a => Ok a
  | Throw e => handler e
  end.

Definition returns {A} (r : result A) : Prop := exists a, r = Ok a.

Section Values.
Context {number : Type} `{!JsNumber number}.

(** [ToBoolean]: what [if (v)], [!v], [v || d] and [v && w] test. *)
Definition truthy (v : JsVal number) : bool :=
  match v with
  | JUndefined | JNull => false
  | JBool b => b
  | JNum n => negb (number_is_falsy n)
  | JStr s => match s with [] => false | _ => true end
  | JArr _ | JObj _ => true
  end.

(** [v || d] *)
Definition or_else (v d : JsVal number) : JsVal number :=
  if truthy v then v else d.

(** [v != null]: neither [null] nor [undefined]. *)
Definition not_nullish (v : JsVal number) : bool :=
  match v with
  | JUndefined | JNull => false
  | _ => true
  end.

(** [o.k] on a plain object: the own property, [undefined] when there is
    none.  (None of the keys the sources read is a name [Object.prototype]
    defines.) *)
Definition prop (o : JsObject number) (k : jsstring) : JsVal number :=
  default JUndefined (o !! k).

(** [v[k]] on any value but [null] and [undefined], for a key [k] that is
    no built-in property of strings, numbers, booleans or arrays (the only
    such keys in the sources are the five of [ORGANIZER_FIELDS]). *)
Definition get (v : JsVal number) (k : jsstring) : result (JsVal number) :=
  match v with
  | JUndefined | JNull => Throw TypeError
  | JObj o => Ok (prop o k)
  | _ => Ok JUndefined
  end.

(** [String(v)].  An array prints as its [join(",")], a plain object as
    [[object Object]]. *)
Fixpoint ToString (v : JsVal number) : jsstring :=
  match v with
  | JUndefined => "undefined"
  | JNull => "null"
  | JBool true => "true"
  | JBool false => "false"
  | JNum n => number_to_string n
  | JStr s => s
  | JArr elems =>
      join_with ","
        (map (fun e => match e with
                       | JUndefined | JNull => []
                       | _ => ToString e
                       end) elems)
  | JObj _ => "[object Object]"
  end.

(** How [join] prints one element: nothing for [null] and [undefined]. *)
Definition element_string (e : JsVal number) : jsstring :=
  match e with
  | JUndefined | JNull => []
  | _ => ToString e
  end.

(** [elems.join(sep)] *)
Definition array_join (sep : jsstring) (elems : list (JsVal number)) : jsstring :=
  join_with sep (map element_string elems).

End Values.

(* ===================================================================== *)
(** ** [JSON.parse]                                                       *)
(* ===================================================================== *)

(** *** Tokens *)

Inductive token : Set :=
  | TLBrace
  | TRBrace
  | TLBracket
  | TRBracket
  | TColon
  | TComma
  | TString (s : jsstring)
  | TNumber (neg : bool) (mantissa : N) (exponent : Z)
  | TTrue
  | TFalse
  | TNull.

(** JSON's own white space: space, tab, line feed, carriage return. *)
Definition is_json_space (c : N) : bool :=
  ((c =? 32) || (c =? 9) || (c =? 10) || (c =? 13))%N.

Definition is_digit (c : N) : bool := ((48 <=? c) && (c <=? 57))%N.

Definition hex_value (c : N) : option N :=
  if is_digit c then Some (c - 48)%N
  else if ((97 <=? c) && (c <=? 102))%N then Some (c - 87)%N
  else if ((65 <=? c) && (c <=? 70))%N then Some (c - 55)%N
  else None.

(** The character a one-letter escape stands for. *)
Definition escape_char (c : N) : option N :=
  if (c =? 34)%N then Some 34%N          (* quote *)
  else if (c =? 92)%N then Some 92%N     (* backslash *)
  else if (c =? 47)%N then Some 47%N     (* slash *)
  else if (c =? 98)%N then Some 8%N      (* b *)
  else if (c =? 102)%N then Some 12%N    (* f *)
  else if (c =? 110)%N then Some 10%N    (* n *)
  else if (c =? 114)%N then Some 13%N    (* r *)
  else if (c =? 116)%N then Some 9%N     (* t *)
  else None.

(** The body of a string literal, after its opening quote: the string it
    denotes and what follows the closing quote. *)
Fixpoint lex_string (cs : jsstring) : option (jsstring * jsstring) :=
  match cs with
  | [] => None
  | c :: r =>
      if (c =? 34)%N then Some ([], r)
      else if (c =? 92)%N then
        match r with
        | [] => None
        | e :: r1 =>
            if (e =? 117)%N then
              match r1 with
              | h1 :: h2 :: h3 :: h4 :: r2 =>
                  match hex_value h1, hex_value h2, hex_value h3, hex_value h4 with
                  | Some a, Some b, Some c', Some d =>
                      match lex_string r2 with
                      | Some (s, rest) =>
                          Some ((((a * 16 + b) * 16 + c') * 16 + d)%N :: s, rest)
                      | None => None
                      end
                  | _, _, _, _ => None
                  end
              | _ => None
              end
            else
              match escape_char e with
              | Some x =>
                  match lex_string r1 with
                  | Some (s, rest) => Some (x :: s, rest)
                  | None => None
                  end
              | None => None
              end
        end
      else if (c <? 32)%N then None
      else
        match lex_string r with
        | Some (s, rest) => Some (c :: s, rest)
        | None => None
        end
  end.

(** A run of decimal digits read onto [acc]: the value, how many digits
    were read, and the rest. *)
Fixpoint lex_digits (acc : N) (cs : jsstring) : N * nat * jsstring :=
  match cs with
  | [] => (acc, 0, [])
  | c :: r =>
      if is_digit c then
        let '(v, n, rest) := lex_digits (acc * 10 + (c - 48))%N r in (v, S n, rest)
      else (acc, 0, cs)
  end.

(** The integer part of a number: a single 0, or digits that start with
    a digit from 1 to 9. *)
Definition lex_int (cs : jsstring) : option (N * jsstring) :=
  match cs with
  | [] => None
  | c :: r =>
      if (c =? 48)%N then Some (0%N, r)
      else if is_digit c then
        let '(v, _, rest) := lex_digits 0 cs in Some (v, rest)
      else None
  end.

(** The optional fraction, read onto the integer part [iv]: a dot and at
    least one digit.  Gives the digits read so far as one number and how
    many of them stand behind the dot. *)
Definition lex_frac (iv : N) (cs : jsstring) : option (N * nat * jsstring) :=
  match cs with
  | c :: r =>
      if (c =? 46)%N then
        let '(v, n, rest) := lex_digits iv r in
        match n with
        | O => None
        | S _ => Some (v, n, rest)
        end
      else Some (iv, O, cs)
  | [] => Some (iv, O, cs)
  end.

(** The optional sign of an exponent. *)
Definition lex_exp_sign (cs : jsstring) : bool * jsstring :=
  match cs with
  | s :: r =>
      if (s =? 43)%N then (false, r)
      else if (s =? 45)%N then (true, r)
      else (false, cs)
  | [] => (false, cs)
  end.

(** The optional exponent: e or E, an optional sign, at least one digit. *)
Definition lex_exp (cs : jsstring) : option (Z * jsstring) :=
  match cs with
  | c :: r =>
      if ((c =? 101) || (c =? 69))%N then
        let '(eneg, r1) := lex_exp_sign r in
        let '(ev, n, rest) := lex_digits 0 r1 in
        match n with
        | O => None
        | S _ => Some (if eneg then (- Z.of_N ev)%Z else Z.of_N ev, rest)
        end
      else Some (0%Z, cs)
  | [] => Some (0%Z, cs)
  end.

(** A JSON number: an optional minus sign, the integer part, the optional
    fraction, the optional exponent. *)
Definition lex_number (cs : jsstring) : option (token * jsstring) :=
  let '(neg, cs1) :=
    match cs with
    | c :: r => if (c =? 45)%N then (true, r) else (false, cs)
    | [] => (false, cs)
    end in
  '(iv, cs2) ← lex_int cs1;
  '(m, fl, cs3) ← lex_frac iv cs2;
  '(e, rest) ← lex_exp cs3;
  Some (TNumber neg m (e - Z.of_nat fl)%Z, rest).

(** [cs] without its prefix [p], when it starts with [p]. *)
Fixpoint strip_prefix (p cs : jsstring) : option jsstring :=
  match p, cs with
  | [], _ => Some cs
  | _ :: _, [] => None
  | x :: p', c :: cs' => if (x =? c)%N then strip_prefix p' cs' else None
  end.

(** The token [cs] starts with, and what follows it. *)
Definition next_token (cs : jsstring) : option (token * jsstring) :=
  match cs with
  | [] => None
  | c :: r =>
      if (c =? 123)%N then Some (TLBrace, r)
      else if (c =? 125)%N then Some (TRBrace, r)
      else if (c =? 91)%N then Some (TLBracket, r)
      else if (c =? 93)%N then Some (TRBracket, r)
      else if (c =? 58)%N then Some (TColon, r)
      else if (c =? 44)%N then Some (TComma, r)
      else if (c =? 34)%N then
        match lex_string r with
        | Some (s, rest) => Some (TString s, rest)
        | None => None
        end
      else if ((c =? 45) || is_digit c)%N then lex_number cs
      else if (c =? 116)%N then
        match strip_prefix "true" cs with
        | Some rest => Some (TTrue, rest)
        | None => None
        end
      else if (c =? 102)%N then
        match strip_prefix "false" cs with
        | Some rest => Some (TFalse, rest)
        | None => None
        end
      else if (c =? 110)%N then
        match strip_prefix "null" cs with
        | Some rest => Some (TNull, rest)
        | None => None
        end
      else None
  end.

Inductive lexed : Set :=
  | Tokens (ts : list token)
  | LexError
  | OutOfFuel.

(** The tokens of a text.  Every round consumes a character, so [fuel]
    above the length of the text is never used up ([tokenize_fuel]). *)
Fixpoint lex (fuel : nat) (cs : jsstring) : lexed :=
  match fuel with
  | O => OutOfFuel
  | S fuel' =>
      match cs with
      | [] => Tokens []
      | c :: r =>
          if is_json_space c then lex fuel' r
          else
            match next_token cs with
            | None => LexError
            | Some (t, rest) =>
                match lex fuel' rest with
                | Tokens ts => Tokens (t :: ts)
                | LexError => LexError
                | OutOfFuel => OutOfFuel
                end
            end
      end
  end.

Definition tokenize (cs : jsstring) : lexed := lex (S (length cs)) cs.

(** *** Grammar *)

Section Json.
Context {number : Type} `{!JsNumber number}.

(** An enclosing array or object under construction. *)
Inductive frame : Type :=
  | FArray (elems_rev : list (JsVal number))
  | FObjKey (props : JsObject number)
  | FObjVal (props : JsObject number) (key : jsstring).

(** Where the parser stands. *)
Inductive pstate : Type :=
  | SValue                         (* a value starts here *)
  | SArrayStart                    (* just after an opening bracket *)
  | SObjectStart                   (* just after an opening brace *)
  | SKey                           (* after a comma inside an object *)
  | SColon                         (* after a key *)
  | SAfter (v : JsVal number).     (* the value [v] has just ended *)

(** The value a token that is a whole value denotes. *)
Definition scalar_of_token (t : token) : option (JsVal number) :=
  match t with
  | TString s => Some (JStr s)
  | TNumber neg m e => Some (JNum (number_of_literal neg m e))
  | TTrue => Some (JBool true)
  | TFalse => Some (JBool false)
  | TNull => Some JNull
  | _ => None
  end.

(** One pass over the tokens with the stack of enclosing containers.  A
    key read twice keeps its last value, as [JSON.parse] does. *)
Fixpoint parse_tokens (ts : list token) (st : pstate) (stack : list frame)
  : option (JsVal number) :=
  match ts with
  | [] =>
      match st, stack with
      | SAfter v, [] => Some v
      | _, _ => None
      end
  | t :: ts' =>
      match st with
      | SValue | SArrayStart =>
          match t with
          | TLBracket => parse_tokens ts' SArrayStart (FArray [] :: stack)
          | TLBrace => parse_tokens ts' SObjectStart (FObjKey ∅ :: stack)
          | TRBracket =>
              match st, stack with
              | SArrayStart, FArray [] :: stack' =>
                  parse_tokens ts' (SAfter (JArr [])) stack'
              | _, _ => None
              end
          | _ =>
              match scalar_of_token t with
              | Some v => parse_tokens ts' (SAfter v) stack
              | None => None
              end
          end
      | SObjectStart | SKey =>
          match t, stack with
          | TString k, FObjKey props :: stack' =>
              parse_tokens ts' SColon (FObjVal props k :: stack')
          | TRBrace, FObjKey props :: stack' =>
              match st with
              | SObjectStart => parse_tokens ts' (SAfter (JObj props)) stack'
              | _ => None
              end
          | _, _ => None
          end
      | SColon =>
          match t with
          | TColon => parse_tokens ts' SValue stack
          | _ => None
          end
      | SAfter v =>
          match stack with
          | [] => None
          | FArray elems_rev :: stack' =>
              match t with
              | TComma => parse_tokens ts' SValue (FArray (v :: elems_rev) :: stack')
              | TRBracket => parse_tokens ts' (SAfter (JArr (rev (v :: elems_rev)))) stack'
              | _ => None
              end
          | FObjVal props k :: stack' =>
              match t with
              | TComma => parse_tokens ts' SKey (FObjKey (<[k := v]> props) :: stack')
              | TRBrace => parse_tokens ts' (SAfter (JObj (<[k := v]> props))) stack'
              | _ => None
              end
          | FObjKey _ :: _ => None
          end
      end
  end.

(** [JSON.parse(text)]: the value, or a [SyntaxError]. *)
Definition JSON_parse (text : jsstring) : result (JsVal number) :=
  match tokenize text with
  | Tokens ts =>
      match parse_tokens ts SValue [] with
      | Some v => Ok v
      | None => Throw SyntaxError
      end
  | LexError | OutOfFuel => Throw SyntaxError
  end.

End Json.

(* ===================================================================== *)
(** ** Built-in methods the sources call on loosely typed values          *)
(* ===================================================================== *)

Inductive JsType : Set :=
  | TyUndefined
  | TyObject
  | TyBoolean
  | TyNumber
  | TyString.

Section Builtins.
Context {number : Type} `{!JsNumber number}.

(** [typeof v]; [null] and arrays are objects. *)
Definition typeof (v : JsVal number) : JsType :=
  match v with
  | JUndefined => TyUndefined
  | JNull | JArr _ | JObj _ => TyObject
  | JBool _ => TyBoolean
  | JNum _ => TyNumber
  | JStr _ => TyString
  end.

(** [Array.isArray(v)] *)
Definition isArray (v : JsVal number) : bool :=
  match v with
  | JArr _ => true
  | _ => false
  end.

(** [v.trim()]: only a string has the method; on anything else the call
    is a [TypeError]. *)
Definition call_trim (v : JsVal number) : result jsstring :=
  match v with
  | JStr s => Ok (trim s)
  | _ => Throw TypeError
  end.

(** [v.replace(/c/g, t)] *)
Definition call_replace (v : JsVal number) (c : N) (t : jsstring) : result jsstring :=
  match v with
  | JStr s => Ok (replace_all_char c t s)
  | _ => Throw TypeError
  end.

(** [v.join(sep)] *)
Definition call_join (v : JsVal number) (sep : jsstring) : result jsstring :=
  match v with
  | JArr elems => Ok (array_join sep elems)
  | _ => Throw TypeError
  end.

(** [parts[parts.length - 1]] on an array of strings. *)
Definition last_part (parts : list jsstring) : JsVal number :=
  match last parts with
  | Some p => JStr p
  | None => JUndefined
  end.

(** [rows.map(f)]: [f] on every element in order; the first throw ends
    the call. *)
Fixpoint array_map {A B} (f : A -> result B) (rows : list A) : result (list B) :=
  match rows with
  | [] => Ok []
  | r :: rows' =>
      y ← f r;
      ys ← array_map f rows';
      Ok (y :: ys)
  end.

End Builtins.

(* ===================================================================== *)
(** ** transform.js                                                       *)
(* ===================================================================== *)

Definition ORGANIZER_FIELDS : list jsstring :=
  ["email"; "country"; "lastName"; "firstName"; "affiliation"].

Section TransformJs.
Context {number : Type} `{!JsNumber number}.

(** [parsed && parsed[key] != null ? String(parsed[key]) : ""] *)
Definition organizer_field (parsed : JsVal number) (key : jsstring)
  : result (JsVal number) :=
  present ←
    (if truthy parsed then
       v ← get parsed key;
       Ok (not_nullish v)
     else Ok false);
  if (present : bool) then
    v ← get parsed key;
    Ok (JStr (ToString v))
  else Ok (JStr "").

(** The [for] loop of [flattenOrganizer] over the remaining [keys]. *)
Fixpoint flatten_loop (parsed : JsVal number) (prefix : jsstring)
    (keys : list jsstring) (out : JsObject number) : result (JsObject number) :=
  match keys with
  | [] => Ok out
  | key :: keys' =>
      v ← organizer_field parsed key;
      flatten_loop parsed prefix keys' (<[prefix ++ "_" ++ key := v]> out)
  end.

Definition flattenOrganizer (blob : JsVal number) (prefix : jsstring)
  : result (JsObject number) :=
  parsed ←
    (if not_nullish blob then
       match typeof blob with
       | TyString =>
           trimmed ← call_trim blob;
           if (0 <? length trimmed)%nat then
             try_catch (JSON_parse trimmed) (fun _e => Ok JNull)
           else Ok JNull
       | TyObject => Ok blob
       | _ => Ok JNull
       end
     else Ok JNull);
  flatten_loop parsed prefix ORGANIZER_FIELDS ∅.

Definition normaliseKeywords (kw : JsVal number) : result (JsVal number) :=
  if negb (not_nullish kw) then Ok (JStr "")
  else if isArray kw then
    s ← call_join kw ", ";
    Ok (JStr s)
  else
    match typeof kw with
    | TyString =>
        trimmed ← call_trim kw;
        returned ←
          (if first_char_is ch_lbracket trimmed then
             try_catch
               (arr ← JSON_parse trimmed;
                if isArray arr then
                  s ← call_join arr ", ";
                  Ok (Some (JStr s))
                else Ok None)
               (fun _e => Ok None)
           else Ok None);
        match returned with
        | Some v => Ok v
        | None => Ok kw
        end
    | _ => Ok (JStr (ToString kw))
    end.

Definition transformRow (raw : JsVal number) : result (JsObject number) :=
  let row : JsObject number := ∅ in
  id ← get raw "id";
  let row := <["id" := or_else id (JStr "")]> row in
  created_at ← get raw "created_at";
  let row := <["created_at" := or_else created_at (JStr "")]> row in
  locale ← get raw "locale";
  let row := <["locale" := or_else locale (JStr "")]> row in
  organizer_primary ← get raw "organizer_primary";
  primary ← flattenOrganizer organizer_primary "organizer_primary";
  organizer_secondary ← get raw "organizer_secondary";
  secondary ← flattenOrganizer organizer_secondary "organizer_secondary";
  organizer_tertiary ← get raw "organizer_tertiary";
  tertiary ← flattenOrganizer organizer_tertiary "organizer_tertiary";
  (* Object.assign(row, primary, secondary, tertiary): later sources win *)
  let row := tertiary ∪ (secondary ∪ (primary ∪ row)) in
  session_title ← get raw "session_title";
  let row := <["session_title" := or_else session_title (JStr "")]> row in
  session_topic ← get raw "session_topic";
  let row := <["session_topic" := or_else session_topic (JStr "")]> row in
  session_summary ← get raw "session_summary";
  let row := <["session_summary" := or_else session_summary (JStr "")]> row in
  session_keywords ← get raw "session_keywords";
  keywords ← normaliseKeywords session_keywords;
  let row := <["session_keywords" := keywords]> row in
  additional_comments ← get raw "additional_comments";
  let row := <["additional_comments" := or_else additional_comments (JStr "")]> row in
  status ← get raw "status";
  let row := <["status" := or_else status (JStr "")]> row in
  Ok row.

(** The [for] loop of [transformRows]; [pushed] is the source's [result]
    array, to which every round pushes one row. *)
Fixpoint transformRows_loop (rawRows : list (JsVal number))
    (pushed : list (JsObject number)) : result (list (JsObject number)) :=
  match rawRows with
  | [] => Ok pushed
  | raw :: rawRows' =>
      row ← transformRow raw;
      transformRows_loop rawRows' (pushed ++ [row])
  end.

Definition transformRows (rawRows : list (JsVal number))
  : result (list (JsObject number)) :=
  transformRows_loop rawRows [].

End TransformJs.

(* ===================================================================== *)
(** ** reg-transform.js                                                   *)
(* ===================================================================== *)

Section RegTransformJs.
Context {number : Type} `{!JsNumber number}.

Definition boolStr (v : JsVal number) : JsVal number :=
  match v with
  | JBool true => JStr "Yes"
  | JBool false => JStr "No"
  | _ => JStr ""
  end.

Definition fileLabel (filePath : JsVal number) : result (JsVal number) :=
  if negb (truthy filePath) then Ok (JStr "")
  else
    replaced ← call_replace filePath ch_backslash "/";
    let parts := split_on ch_slash replaced in
    Ok (or_else (last_part parts) filePath).

Definition transformRegistration (raw : JsVal number) : result (JsObject number) :=
  id ← get raw "id";
  created_at ← get raw "created_at";
  updated_at ← get raw "updated_at";
  first_name ← get raw "first_name";
  last_name ← get raw "last_name";
  email ← get raw "email";
  affiliation ← get raw "affiliation";
  country ← get raw "country";
  registration_type ← get raw "registration_type";
  abstract_intent ← get raw "abstract_intent";
  payment_confirmed ← get raw "payment_confirmed";
  mailing_consent ← get raw "mailing_consent";
  gdpr_consent ← get raw "gdpr_consent";
  Ok (list_to_map [
    ("id",                or_else id (JStr ""));
    ("created_at",        or_else created_at (JStr ""));
    ("updated_at",        or_else updated_at (JStr ""));
    ("first_name",        or_else first_name (JStr ""));
    ("last_name",         or_else last_name (JStr ""));
    ("email",             or_else email (JStr ""));
    ("affiliation",       or_else affiliation (JStr ""));
    ("country",           or_else country (JStr ""));
    ("registration_type", or_else registration_type (JStr ""));
    ("abstract_intent",   or_else abstract_intent (JStr ""));
    ("payment_confirmed", boolStr payment_confirmed);
    ("mailing_consent",   boolStr mailing_consent);
    ("gdpr_consent",      boolStr gdpr_consent)
  ]).

(** [raw.file_path ? fileLabel(raw.file_path) : ""] *)
Definition has_file_of (file_path : JsVal number) : result (JsVal number) :=
  if truthy file_path then fileLabel file_path else Ok (JStr "").

Definition transformAbstract (raw : JsVal number) : result (JsObject number) :=
  id ← get raw "id";
  created_at ← get raw "created_at";
  first_name ← get raw "first_name";
  last_name ← get raw "last_name";
  email ← get raw "email";
  affiliation ← get raw "affiliation";
  title ← get raw "title";
  session ← get raw "session";
  co_authors ← get raw "co_authors";
  abstract_text ← get raw "abstract_text";
  notes ← get raw "notes";
  file_path ← get raw "file_path";
  has_file ← has_file_of file_path;
  Ok (list_to_map [
    ("id",            or_else id (JStr ""));
    ("created_at",    or_else created_at (JStr ""));
    ("first_name",    or_else first_name (JStr ""));
    ("last_name",     or_else last_name (JStr ""));
    ("email",         or_else email (JStr ""));
    ("affiliation",   or_else affiliation (JStr ""));
    ("title",         or_else title (JStr ""));
    ("session",       or_else session (JStr ""));
    ("co_authors",    or_else co_authors (JStr ""));
    ("abstract_text", or_else abstract_text (JStr ""));
    ("notes",         or_else notes (JStr ""));
    ("has_file",      has_file);
    ("_file_path",    or_else file_path (JStr ""))
  ]).

Definition transformPayment (raw : JsVal number) : result (JsObject number) :=
  id ← get raw "id";
  created_at ← get raw "created_at";
  email ← get raw "email";
  receipt_type ← get raw "receipt_type";
  notes ← get raw "notes";
  file_path ← get raw "file_path";
  has_file ← has_file_of file_path;
  Ok (list_to_map [
    ("id",           or_else id (JStr ""));
    ("created_at",   or_else created_at (JStr ""));
    ("email",        or_else email (JStr ""));
    ("receipt_type", or_else receipt_type (JStr ""));
    ("notes",        or_else notes (JStr ""));
    ("has_file",     has_file);
    ("_file_path",   or_else file_path (JStr ""))
  ]).

Definition transformRegistrations (rows : list (JsVal number)) :=
  array_map transformRegistration rows.

Definition transformAbstracts (rows : list (JsVal number)) :=
  array_map transformAbstract rows.

Definition transformPayments (rows : list (JsVal number)) :=
  array_map transformPayment rows.

End RegTransformJs.

(* ===================================================================== *)
(** ** columns.js and reg-columns.js                                      *)
(* ===================================================================== *)

(** A [ColumnDef].  The optional flags of the source ([wrap], [excelOnly],
    [uiOnly]) are [true] or left out; a flag left out reads as falsy. *)
Record ColumnDef : Set := {
  key : jsstring;
  label : jsstring;
  wrap : bool;
  excelOnly : bool;
  uiOnly : bool;
  bucket : option jsstring;
}.

(** [{ key, label }] *)
Definition column (k l : jsstring) : ColumnDef :=
  {| key := k; label := l; wrap := false; excelOnly := false; uiOnly := false;
     bucket := None |}.

(** [{ key, label, wrap: true }] *)
Definition column_wrap (k l : jsstring) : ColumnDef :=
  {| key := k; label := l; wrap := true; excelOnly := false; uiOnly := false;
     bucket := None |}.

(** [{ key, label, uiOnly: true, bucket }] *)
Definition column_ui (k l b : jsstring) : ColumnDef :=
  {| key := k; label := l; wrap := false; excelOnly := false; uiOnly := true;
     bucket := Some b |}.

(** [{ key, label, excelOnly: true }] *)
Definition column_excel (k l : jsstring) : ColumnDef :=
  {| key := k; label := l; wrap := false; excelOnly := true; uiOnly := false;
     bucket := None |}.

Definition DISPLAY_COLUMNS : list ColumnDef := [
  column "id" "ID";
  column "created_at" "Created At";
  column "locale" "Locale";
  column "organizer_primary_firstName" "Primary: First Name";
  column "organizer_primary_lastName" "Primary: Last Name";
  column "organizer_primary_email" "Primary: Email";
  column_wrap "organizer_primary_affiliation" "Primary: Affiliation";
  column "organizer_primary_country" "Primary: Country";
  column "organizer_secondary_firstName" "Secondary: First Name";
  column "organizer_secondary_lastName" "Secondary: Last Name";
  column "organizer_secondary_email" "Secondary: Email";
  column_wrap "organizer_secondary_affiliation" "Secondary: Affiliation";
  column "organizer_secondary_country" "Secondary: Country";
  column "organizer_tertiary_firstName" "Tertiary: First Name";
  column "organizer_tertiary_lastName" "Tertiary: Last Name";
  column "organizer_tertiary_email" "Tertiary: Email";
  column_wrap "organizer_tertiary_affiliation" "Tertiary: Affiliation";
  column "organizer_tertiary_country" "Tertiary: Country";
  column_wrap "session_title" "Session Title";
  column_wrap "session_topic" "Session Topic";
  column_wrap "session_summary" "Session Summary";
  column_wrap "session_keywords" "Keywords";
  column_wrap "additional_comments" "Comments";
  column "status" "Status"
].

Definition REGISTRATION_COLUMNS : list ColumnDef := [
  column "id" "ID";
  column "created_at" "Submitted At";
  column "updated_at" "Updated At";
  column "first_name" "First Name";
  column "last_name" "Last Name";
  column "email" "Email";
  column_wrap "affiliation" "Affiliation";
  column "country" "Country";
  column "registration_type" "Type";
  column "abstract_intent" "Abstract Intent";
  column "payment_confirmed" "Payment Confirmed";
  column "mailing_consent" "Mailing Consent";
  column "gdpr_consent" "GDPR Consent"
].

Definition ABSTRACT_COLUMNS : list ColumnDef := [
  column "id" "ID";
  column "created_at" "Submitted At";
  column "first_name" "First Name";
  column "last_name" "Last Name";
  column "email" "Email";
  column_wrap "affiliation" "Affiliation";
  column_wrap "title" "Title";
  column_wrap "session" "Session";
  column_wrap "co_authors" "Co-Authors";
  column_wrap "abstract_text" "Abstract Text";
  column_ui "has_file" "File" "abstracts";
  column_excel "_file_path" "File Path (ZIP)"
].

Definition PAYMENT_COLUMNS : list ColumnDef := [
  column "id" "ID";
  column "created_at" "Submitted At";
  column "email" "Email";
  column "receipt_type" "Receipt Type";
  column_wrap "notes" "Notes";
  column_ui "has_file" "File" "payment-receipts";
  column_excel "_file_path" "File Path (ZIP)"
].

(** [cols.filter(function (c) { return !c.excelOnly; })] *)
Definition uiColumns (cols : list ColumnDef) : list ColumnDef :=
  List.filter (fun c => negb (excelOnly c)) cols.

(** [cols.filter(function (c) { return !c.uiOnly; })] *)
Definition excelColumns (cols : list ColumnDef) : list ColumnDef :=
  List.filter (fun c => negb (uiOnly c)) cols.

(* ===================================================================== *)
(** ** zip-export.js                                                      *)
(* ===================================================================== *)

Abbreviation Buffer := (list N) (only parsing).

(** What [createSignedUrl] resolves to: [{ data, error }], with the
    message of [error] and the [signedUrl] of [data] when they are set. *)
Record SignedUrlReply : Set := {
  signed_error : option jsstring;
  signed_data : option jsstring;
}.

(** What [fetch] resolves to: [ok], [status], and what [arrayBuffer()]
    resolves to or throws. *)
Record Response : Set := {
  response_ok : bool;
  response_status : N;
  response_arrayBuffer : result Buffer;
}.

(** The collaborators of the export that live outside the repository: the
    storage client and [fetch], whose answers depend on a [world] they may
    change, and SheetJS, of which only the bytes of the finished workbook
    matter here. *)
Class Collaborators (number world : Type) : Type := {
  createSignedUrl :
    jsstring -> JsVal number -> world -> world * result SignedUrlReply;
  fetch : jsstring -> world -> world * result Response;
  workbook_bytes :
    list (JsObject number) -> list (JsObject number) -> list (JsObject number) -> Buffer;
}.

(** An asynchronous function: run from a world, it leaves a world and
    either resolves or rejects. *)
Definition Async (world A : Type) : Type := world -> world * result A.

Definition resolve {world A} (a : A) : Async world A := fun w => (w, Ok a).

(** [await] and what follows it. *)
Definition await {world A B} (m : Async world A) (k : A -> Async world B)
  : Async world B :=
  fun w =>
    match m w with
    | (w', Ok a) => k a w'
    | (w', Throw e) => (w', Throw e)
    end.

(** A synchronous step inside an asynchronous function. *)
Definition sync {world A} (r : result A) : Async world A := fun w => (w, r).

(** [try { body } catch (err) { handler }] around asynchronous code. *)
Definition try_catch_async {world A} (body : Async world A)
    (handler : JsError -> Async world A) : Async world A :=
  fun w =>
    match body w with
    | (w', Ok a) => (w', Ok a)
    | (w', Throw e) => handler e w'
    end.

Notation "'let!' x := m 'in' k" := (await m (fun x => k))
  (at level 10, x pattern, m at level 100, k at level 200, only parsing).

(** What [JSZip] is handed. *)
Inductive ZipData : Set :=
  | Bytes (b : Buffer)
  | Text (s : jsstring).

(** One call on the archive, with the full path it acts on: [file] or
    [folder]. *)
Inductive ZipCall : Set :=
  | ZipFile (path : jsstring) (data : ZipData)
  | ZipFolder (path : jsstring).

Section ZipExportJs.
Context {number world : Type} `{!JsNumber number} `{!Collaborators number world}.

Definition fetchStorageFile (bucket : jsstring) (filePath : JsVal number)
  : Async world (option Buffer) :=
  try_catch_async
    (let! signed := createSignedUrl bucket filePath in
     match signed_error signed with
     | Some _message => resolve None
     | None =>
         let! signedUrl :=
           sync (match signed_data signed with
                 | Some url => Ok url
                 | None => Throw TypeError
                 end) in
         let! response := fetch signedUrl in
         if negb (response_ok response) then resolve None
         else
           let! buffer := sync (response_arrayBuffer response) in
           resolve (Some buffer)
     end)
    (fun _err => resolve None).

Definition storageBasename (filePath : JsVal number) : result (JsVal number) :=
  replaced ← call_replace filePath ch_backslash "/";
  let parts := split_on ch_slash replaced in
  Ok (or_else (last_part parts) filePath).

(** Is [c] in the class [a-zA-Z0-9._+-]? *)
Definition is_safe_char (c : N) : bool :=
  ((97 <=? c) && (c <=? 122) || (65 <=? c) && (c <=? 90)
   || (48 <=? c) && (c <=? 57)
   || (c =? 46) || (c =? 95) || (c =? 43) || (c =? 45))%N.

(** [s.replace(/[^a-zA-Z0-9._+-]/g, "_")] *)
Definition replace_unsafe (s : jsstring) : jsstring :=
  map (fun c => if is_safe_char c then c else ch_underscore) s.

Definition safeEmail (email : JsVal number) : result jsstring :=
  replaced ← call_replace (or_else email (JStr "unknown")) ch_at "_at_";
  Ok (replace_unsafe replaced).

Definition zipFilename (email filePath : JsVal number) : result jsstring :=
  safe ← safeEmail email;
  base ← storageBasename filePath;
  Ok (safe ++ "_" ++ ToString base).

(** [rows.filter(function (row) { return row._file_path; })] *)
Definition withFiles (rows : list (JsObject number)) : list (JsObject number) :=
  List.filter (fun row => truthy (prop row "_file_path")) rows.

(** The loop of [downloadZip] over the abstracts that have a file, from
    the calls made on the archive and the failures recorded so far. *)
Fixpoint abstracts_loop (absWithFiles : list (JsObject number))
    (zip : list ZipCall) (failedFiles : list jsstring)
  : Async world (list ZipCall * list jsstring) :=
  match absWithFiles with
  | [] => resolve (zip, failedFiles)
  | abs :: rest =>
      let! filename :=
        sync (zipFilename (prop abs "email") (prop abs "_file_path")) in
      let! buffer := fetchStorageFile "abstracts" (prop abs "_file_path") in
      match buffer with
      | Some b =>
          abstracts_loop rest
            (zip ++ [ZipFile ("abstracts/" ++ filename) (Bytes b)]) failedFiles
      | None =>
          abstracts_loop rest zip
            (failedFiles ++ ["abstracts/" ++ ToString (prop abs "_file_path")])
      end
  end.

(** The loop over the payment receipts that have a file. *)
Fixpoint payments_loop (payWithFiles : list (JsObject number))
    (zip : list ZipCall) (failedFiles : list jsstring)
  : Async world (list ZipCall * list jsstring) :=
  match payWithFiles with
  | [] => resolve (zip, failedFiles)
  | pay :: rest =>
      let! folder := sync (safeEmail (prop pay "email")) in
      let userFolder := "payment_receipts/" ++ folder in
      let zip := zip ++ [ZipFolder userFolder] in
      let! pFilename := sync (storageBasename (prop pay "_file_path")) in
      let! pBuffer := fetchStorageFile "payment-receipts" (prop pay "_file_path") in
      match pBuffer with
      | Some b =>
          payments_loop rest
            (zip ++ [ZipFile (userFolder ++ "/" ++ ToString pFilename) (Bytes b)])
            failedFiles
      | None =>
          let! safe := sync (safeEmail (prop pay "email")) in
          payments_loop rest zip
            (failedFiles ++
               ["payment_receipts/" ++ safe ++ "/" ++ ToString (prop pay "_file_path")])
      end
  end.

(** The text of [DOWNLOAD_ERRORS.txt]. *)
Definition failure_note (failedFiles : list jsstring) : jsstring :=
  "The following files could not be downloaded (storage permission or network issue):"
    ++ [10; 10]%N ++ join_with [10%N] failedFiles.

(** [downloadZip], up to the archive it hands to [generateAsync]: the calls
    made on the archive, in order, and [failedFiles].  The progress
    messages, the compression and the browser download are left out. *)
Definition downloadZip (registrations abstracts payments : list (JsObject number))
  : Async world (list ZipCall * list jsstring) :=
  let excelBuffer := workbook_bytes registrations abstracts payments in
  let zip := [ZipFile "conference_data.xlsx" (Bytes excelBuffer)] in
  let failedFiles := [] in
  let absWithFiles := withFiles abstracts in
  let! (zip, failedFiles) :=
    (match absWithFiles with
     | [] => resolve (zip, failedFiles)
     | _ :: _ => abstracts_loop absWithFiles (zip ++ [ZipFolder "abstracts"]) failedFiles
     end) in
  let payWithFiles := withFiles payments in
  let! (zip, failedFiles) :=
    (match payWithFiles with
     | [] => resolve (zip, failedFiles)
     | _ :: _ => payments_loop payWithFiles zip failedFiles
     end) in
  match failedFiles with
  | [] => resolve (zip, failedFiles)
  | _ :: _ =>
      resolve (zip ++ [ZipFile "DOWNLOAD_ERRORS.txt" (Text (failure_note failedFiles))],
               failedFiles)
  end.

End ZipExportJs.

(* ===================================================================== *)
(** ** Worksheets (zip-export.js, excel-export.js, reg-app.js)            *)
(* ===================================================================== *)

(** A SheetJS worksheet, as far as the sources determine it: the array of
    arrays handed to [XLSX.utils.aoa_to_sheet], and the [wch] of every
    entry of the [!cols] set on the sheet afterwards. *)
Record Worksheet (number : Type) : Type := {
  ws_data : list (list (JsVal number));
  ws_cols : list nat;
}.

Arguments ws_data {number} w.
Arguments ws_cols {number} w.

(** A workbook written to a file: the sheets appended to it, each under
    its name. *)
Record WorkbookFile (number : Type) : Type := {
  file_name : jsstring;
  sheets : list (jsstring * Worksheet number);
}.

Arguments file_name {number} w.
Arguments sheets {number} w.

(** [iso.replace(/[:.]/g, "-").slice(0, 19)], on the text [iso] that
    [new Date().toISOString()] gave. *)
Definition timestamp (iso : jsstring) : jsstring :=
  take 19 (map (fun c => if ((c =? 58) || (c =? 46))%N then 45%N else c) iso).

Section WorksheetsJs.
Context {number : Type} `{!JsNumber number}.

(** *** [buildSheet] (zip-export.js) *)

(** The inner loop of the data rows: one cell pushed per column. *)
Fixpoint buildSheet_dataRow (row : JsObject number) (cols : list ColumnDef)
    (dataRow : list (JsVal number)) : list (JsVal number) :=
  match cols with
  | [] => dataRow
  | c :: cols' =>
      let v := prop row (key c) in
      buildSheet_dataRow row cols' (dataRow ++ [if not_nullish v then v else JStr ""])
  end.

(** The outer loop: one data row pushed per row. *)
Fixpoint buildSheet_wsData (rows : list (JsObject number)) (cols : list ColumnDef)
    (wsData : list (list (JsVal number))) : list (list (JsVal number)) :=
  match rows with
  | [] => wsData
  | row :: rows' =>
      buildSheet_wsData rows' cols (wsData ++ [buildSheet_dataRow row cols []])
  end.

(** The loop over the rows that widens one column. *)
Fixpoint buildSheet_maxLen (col : ColumnDef) (rows : list (JsObject number))
    (maxLen : nat) : nat :=
  match rows with
  | [] => maxLen
  | row :: rows' =>
      let cell :=
        ToString (if not_nullish (prop row (key col)) then prop row (key col)
                  else JStr "") in
      let cap := if wrap col then 60 else 40 in
      let len := if length cell <? cap then length cell else cap in
      buildSheet_maxLen col rows' (if maxLen <? len then len else maxLen)
  end.

(** The loop over the columns: one width pushed per column. *)
Fixpoint buildSheet_colWidths (cols : list ColumnDef) (rows : list (JsObject number))
    (colWidths : list nat) : list nat :=
  match cols with
  | [] => colWidths
  | col :: cols' =>
      buildSheet_colWidths cols' rows
        (colWidths ++ [buildSheet_maxLen col rows (length (label col)) + 2])
  end.

Definition buildSheet (rows : list (JsObject number)) (cols : list ColumnDef)
  : Worksheet number :=
  let header := map (fun c => JStr (label c)) cols in
  let wsData := buildSheet_wsData rows cols [header] in
  {| ws_data := wsData; ws_cols := buildSheet_colWidths cols rows [] |}.

(** The three sheets [downloadZip] appends to the workbook, of which
    [XLSX.write] makes [conference_data.xlsx]. *)
Definition downloadZip_sheets (registrations abstracts payments : list (JsObject number))
  : list (jsstring * Worksheet number) :=
  [ ("Registrations", buildSheet registrations (excelColumns REGISTRATION_COLUMNS));
    ("Abstracts", buildSheet abstracts (excelColumns ABSTRACT_COLUMNS));
    ("Payment Receipts", buildSheet payments (excelColumns PAYMENT_COLUMNS)) ].

(** *** [downloadXlsx] (excel-export.js) *)

Fixpoint downloadXlsx_header (cols : list ColumnDef) (header : list (JsVal number))
  : list (JsVal number) :=
  match cols with
  | [] => header
  | c :: cols' => downloadXlsx_header cols' (header ++ [JStr (label c)])
  end.

Fixpoint downloadXlsx_dataRow (row : JsObject number) (cols : list ColumnDef)
    (dataRow : list (JsVal number)) : list (JsVal number) :=
  match cols with
  | [] => dataRow
  | c :: cols' =>
      let val := prop row (key c) in
      downloadXlsx_dataRow row cols' (dataRow ++ [if not_nullish val then val else JStr ""])
  end.

Fixpoint downloadXlsx_wsData (rows : list (JsObject number))
    (wsData : list (list (JsVal number))) : list (list (JsVal number)) :=
  match rows with
  | [] => wsData
  | row :: rows' =>
      downloadXlsx_wsData rows' (wsData ++ [downloadXlsx_dataRow row DISPLAY_COLUMNS []])
  end.

Fixpoint downloadXlsx_maxLen (col : ColumnDef) (rows : list (JsObject number))
    (maxLen : nat) : nat :=
  match rows with
  | [] => maxLen
  | row :: rows' =>
      let v :=
        ToString (if not_nullish (prop row (key col)) then prop row (key col)
                  else JStr "") in
      let cap := if wrap col then 50 else 40 in
      let len := if length v <? cap then length v else cap in
      downloadXlsx_maxLen col rows' (if maxLen <? len then len else maxLen)
  end.

Fixpoint downloadXlsx_colWidths (cols : list ColumnDef) (rows : list (JsObject number))
    (colWidths : list nat) : list nat :=
  match cols with
  | [] => colWidths
  | col :: cols' =>
      downloadXlsx_colWidths cols' rows
        (colWidths ++ [downloadXlsx_maxLen col rows (length (label col)) + 2])
  end.

(** [downloadXlsx]: the file [XLSX.writeFile] is called with, or nothing
    when the function returns before writing. *)
Definition downloadXlsx (rows : list (JsObject number)) : option (WorkbookFile number) :=
  match rows with
  | [] => None
  | _ :: _ =>
      let header := downloadXlsx_header DISPLAY_COLUMNS [] in
      let wsData := downloadXlsx_wsData rows [header] in
      let ws := {| ws_data := wsData;
                   ws_cols := downloadXlsx_colWidths DISPLAY_COLUMNS rows [] |} in
      Some {| file_name := "thematic_session_submissions_2026.xlsx";
              sheets := [("Submissions", ws)] |}
  end.

(** *** [exportExcel] (reg-app.js, the abstracts page) *)

(** The loop over the abstracts: one data row, mapped from the columns,
    pushed per abstract. *)
Fixpoint exportExcel_wsData (abstracts : list (JsObject number)) (cols : list ColumnDef)
    (wsData : list (list (JsVal number))) : list (list (JsVal number)) :=
  match abstracts with
  | [] => wsData
  | row :: abstracts' =>
      let dataRow :=
        map (fun c => let v := prop row (key c) in
                      if not_nullish v then v else JStr "") cols in
      exportExcel_wsData abstracts' cols (wsData ++ [dataRow])
  end.

(** The loop inside the function mapped over the columns for [!cols]. *)
Fixpoint exportExcel_maxLen (c : ColumnDef) (abstracts : list (JsObject number))
    (maxLen : nat) : nat :=
  match abstracts with
  | [] => maxLen
  | row :: abstracts' =>
      let cell :=
        ToString (if not_nullish (prop row (key c)) then prop row (key c)
                  else JStr "") in
      let cap := if wrap c then 60 else 40 in
      let len := if length cell <? cap then length cell else cap in
      exportExcel_maxLen c abstracts' (if maxLen <? len then len else maxLen)
  end.

(** [exportExcel] on the [abstracts] the page holds: the file
    [XLSX.writeFile] is called with, or nothing when the function returns
    before writing.  [iso] is what [new Date().toISOString()] gives; the
    status line is left out. *)
Definition exportExcel (abstracts : list (JsObject number)) (iso : jsstring)
  : option (WorkbookFile number) :=
  match abstracts with
  | [] => None
  | _ :: _ =>
      let cols := excelColumns ABSTRACT_COLUMNS in
      let header := map (fun c => JStr (label c)) cols in
      let wsData := exportExcel_wsData abstracts cols [header] in
      let widths :=
        map (fun c => exportExcel_maxLen c abstracts (length (label c)) + 2) cols in
      Some {| file_name := "abstracts_" ++ timestamp iso ++ ".xlsx";
              sheets := [("Abstracts", {| ws_data := wsData; ws_cols := widths |})] |}
  end.

End WorksheetsJs.

(* ===================================================================== *)
(** ** The tables (reg-renderer.js, table-renderer.js)                    *)
(* ===================================================================== *)

(** What a click listener of the sources does when it fires: the call
    [openSidebar(label, fullText)] it closes over. *)
Record SidebarCall (number : Type) : Type := {
  sidebar_title : jsstring;
  sidebar_content : JsVal number;
}.

Arguments sidebar_title {number} s.
Arguments sidebar_content {number} s.

(** A DOM node, as far as the renderers touch it: a text node, or an
    element with its tag, its [className], its [style.display], its click
    listeners and its children. *)
Inductive Node (number : Type) : Type :=
  | TextNode (data : jsstring)
  | ElementNode (tagName className display : jsstring)
      (click : list (SidebarCall number)) (childNodes : list (Node number)).

Arguments TextNode {number} data.
Arguments ElementNode {number} tagName className display click childNodes.

Section Dom.
Context {number : Type} `{!JsNumber number}.

(** [document.createElement(tag)] *)
Definition createElement (tag : jsstring) : Node number := ElementNode tag "" "" [] [].

(** [parent.appendChild(child)], for a [child] that is in no tree yet. *)
Definition appendChild (parent child : Node number) : Node number :=
  match parent with
  | ElementNode tag cls disp click children =>
      ElementNode tag cls disp click (children ++ [child])
  | TextNode _ => parent
  end.

(** [el.textContent = v]: the children are replaced by one text node
    holding the string form of [v], or by nothing when that string is
    empty ([null] and [undefined] count as the empty string). *)
Definition set_textContent (v : JsVal number) (el : Node number) : Node number :=
  let text := match v with
              | JUndefined | JNull => []
              | _ => ToString v
              end in
  match el with
  | ElementNode tag cls disp click _ =>
      ElementNode tag cls disp click match text with [] => [] | _ => [TextNode text] end
  | TextNode _ => TextNode text
  end.

(** [el.className = cls] *)
Definition set_className (cls : jsstring) (el : Node number) : Node number :=
  match el with
  | ElementNode tag _ disp click children => ElementNode tag cls disp click children
  | TextNode _ => el
  end.

(** [el.style.display = disp] *)
Definition set_display (disp : jsstring) (el : Node number) : Node number :=
  match el with
  | ElementNode tag cls _ click children => ElementNode tag cls disp click children
  | TextNode _ => el
  end.

(** [el.addEventListener("click", function () { openSidebar(label, fullText); })] *)
Definition addClickListener (label : jsstring) (fullText : JsVal number) (el : Node number)
  : Node number :=
  match el with
  | ElementNode tag cls disp click children =>
      ElementNode tag cls disp
        (click ++ [{| sidebar_title := label; sidebar_content := fullText |}]) children
  | TextNode _ => el
  end.

(** [v === s] for a string [s] *)
Definition is_string (v : JsVal number) (s : jsstring) : bool :=
  match v with
  | JStr s' => bool_decide (s' = s)
  | _ => false
  end.

(** *** [clearChildren] (reg-renderer.js) *)

(** The [while (el.firstChild)] loop: every round removes the first
    child. *)
Fixpoint clearChildren_loop (childNodes : list (Node number)) : list (Node number) :=
  match childNodes with
  | [] => []
  | _firstChild :: rest => clearChildren_loop rest
  end.

(** [clearChildren(el)]; [el] is what [getElementById] gave, [null] when
    the page has no such element. *)
Definition clearChildren (el : option (Node number)) : result (Node number) :=
  match el with
  | None => Throw TypeError
  | Some (ElementNode tag cls disp click children) =>
      Ok (ElementNode tag cls disp click (clearChildren_loop children))
  | Some (TextNode data) => Ok (TextNode data)
  end.

(** *** [renderRegTable] (reg-renderer.js) *)

(** The loop over the columns that fills the header row. *)
Fixpoint renderRegTable_head (cols : list ColumnDef) (headTr : Node number) : Node number :=
  match cols with
  | [] => headTr
  | c :: cols' =>
      let th := createElement "th" in
      let th := set_textContent (JStr (label c)) th in
      renderRegTable_head cols' (appendChild headTr th)
  end.

(** The body of the loop over the columns of one row: the cell of [row]
    under [col]. *)
Definition renderRegTable_cell (row : JsObject number) (col : ColumnDef) : Node number :=
  let td := createElement "td" in
  let val := if not_nullish (prop row (key col)) then prop row (key col) else JStr "" in
  if bool_decide (key col = "payment_confirmed") then
    let span := createElement "span" in
    let span :=
      set_className
        ("badge badge-" ++ (if is_string val "Yes" then "approved" else "pending-pay"))
        span in
    let span := set_textContent val span in
    appendChild td span
  else if bool_decide (key col = "has_file") then
    if negb (is_string val "") then
      let fspan := createElement "span" in
      let fspan := set_className "badge badge-file" fspan in
      let fspan := set_textContent val fspan in
      appendChild td fspan
    else td
  else if wrap col then
    let div := createElement "div" in
    let div := set_className "cell-clamp" div in
    let div := set_textContent val div in
    let div := addClickListener (label col) val div in
    appendChild td div
  else set_textContent val td.

(** The loop over the columns of one row. *)
Fixpoint renderRegTable_row (row : JsObject number) (cols : list ColumnDef)
    (tr : Node number) : Node number :=
  match cols with
  | [] => tr
  | col :: cols' =>
      renderRegTable_row row cols' (appendChild tr (renderRegTable_cell row col))
  end.

(** The loop over the rows. *)
Fixpoint renderRegTable_body (rows : list (JsObject number)) (cols : list ColumnDef)
    (tbody : Node number) : Node number :=
  match rows with
  | [] => tbody
  | row :: rows' =>
      let tr := createElement "tr" in
      let tr := renderRegTable_row row cols tr in
      renderRegTable_body rows' cols (appendChild tbody tr)
  end.

(** [renderRegTable(rows, cols)].  [wrap] and [empty] are what
    [getElementById] gives for [tableWrap] and [emptyState] ([empty] lying
    outside the ancestors of [#tableWrap], so that it may be appended);
    the result is [#tableWrap] as the call leaves it. *)
Definition renderRegTable (wrap empty : option (Node number))
    (rows : list (JsObject number)) (cols : list ColumnDef) : result (Node number) :=
  match rows with
  | [] =>
      wrap ← clearChildren wrap;
      match empty with
      | Some empty =>
          let empty := set_display "" empty in
          Ok (appendChild wrap empty)
      | None => Ok wrap
      end
  | _ :: _ =>
      let table := createElement "table" in
      let thead := createElement "thead" in
      let headTr := createElement "tr" in
      let headTr := renderRegTable_head cols headTr in
      let thead := appendChild thead headTr in
      let table := appendChild table thead in
      let tbody := createElement "tbody" in
      let tbody := renderRegTable_body rows cols tbody in
      let table := appendChild table tbody in
      wrap ← clearChildren wrap;
      Ok (appendChild wrap table)
  end.

(** *** [renderTable] (table-renderer.js, the version with the sidebar) *)

(** [el.innerHTML = ""] *)
Definition clear_innerHTML (el : option (Node number)) : result (Node number) :=
  match el with
  | None => Throw TypeError
  | Some (ElementNode tag cls disp click _) => Ok (ElementNode tag cls disp click [])
  | Some (TextNode data) => Ok (TextNode data)
  end.

(** The loops of [renderTable] run over [DISPLAY_COLUMNS]. *)
Fixpoint renderTable_head (cols : list ColumnDef) (headTr : Node number) : Node number :=
  match cols with
  | [] => headTr
  | c :: cols' =>
      let th := createElement "th" in
      let th := set_textContent (JStr (label c)) th in
      renderTable_head cols' (appendChild headTr th)
  end.

Definition renderTable_cell (row : JsObject number) (col : ColumnDef) : Node number :=
  let td := createElement "td" in
  let val := if not_nullish (prop row (key col)) then prop row (key col) else JStr "" in
  if bool_decide (key col = "status") && negb (is_string val "") then
    let span := createElement "span" in
    let span := set_className ("badge badge-" ++ ToString val) span in
    let span := set_textContent val span in
    appendChild td span
  else if wrap col then
    let div := createElement "div" in
    let div := set_className "cell-clamp" div in
    let div := set_textContent val div in
    let div := addClickListener (label col) val div in
    appendChild td div
  else set_textContent val td.

Fixpoint renderTable_row (row : JsObject number) (cols : list ColumnDef)
    (tr : Node number) : Node number :=
  match cols with
  | [] => tr
  | col :: cols' => renderTable_row row cols' (appendChild tr (renderTable_cell row col))
  end.

Fixpoint renderTable_body (rows : list (JsObject number)) (tbody : Node number)
  : Node number :=
  match rows with
  | [] => tbody
  | row :: rows' =>
      let tr := createElement "tr" in
      let tr := renderTable_row row DISPLAY_COLUMNS tr in
      renderTable_body rows' (appendChild tbody tr)
  end.

(** [renderTable(rows)], with [wrap] and [empty] as for [renderRegTable]. *)
Definition renderTable (wrap empty : option (Node number)) (rows : list (JsObject number))
  : result (Node number) :=
  match rows with
  | [] =>
      wrap ← clear_innerHTML wrap;
      match empty with
      | Some empty =>
          let empty := set_display "" empty in
          Ok (appendChild wrap empty)
      | None => Ok wrap
      end
  | _ :: _ =>
      let table := createElement "table" in
      let thead := createElement "thead" in
      let headTr := createElement "tr" in
      let headTr := renderTable_head DISPLAY_COLUMNS headTr in
      let thead := appendChild thead headTr in
      let table := appendChild table thead in
      let tbody := createElement "tbody" in
      let tbody := renderTable_body rows tbody in
      let table := appendChild table tbody in
      wrap ← clear_innerHTML wrap;
      Ok (appendChild wrap table)
  end.

End Dom.

(* ===================================================================== *)
(** ** Instances for running the model                                    *)
(* ===================================================================== *)

(** Exact decimal numbers [(-1)^negative * mantissa * 10^exponent], printed
    by the rules of ECMAScript's [Number::toString].  They agree with
    doubles on every number of at most 15 significant digits within the
    range of normal doubles, where the shortest decimal that reads back as
    the double is the number itself. *)
Record exact_decimal : Set := {
  negative : bool;
  mantissa : N;
  exponent : Z;
}.

Fixpoint uint_digits (u : Decimal.uint) : jsstring :=
  match u with
  | Decimal.Nil => []
  | Decimal.D0 r => 48%N :: uint_digits r
  | Decimal.D1 r => 49%N :: uint_digits r
  | Decimal.D2 r => 50%N :: uint_digits r
  | Decimal.D3 r => 51%N :: uint_digits r
  | Decimal.D4 r => 52%N :: uint_digits r
  | Decimal.D5 r => 53%N :: uint_digits r
  | Decimal.D6 r => 54%N :: uint_digits r
  | Decimal.D7 r => 55%N :: uint_digits r
  | Decimal.D8 r => 56%N :: uint_digits r
  | Decimal.D9 r => 57%N :: uint_digits r
  end.

(** The decimal digits of [n], most significant first. *)
Definition digits_of_N (n : N) : jsstring := uint_digits (N.to_uint n).

Fixpoint drop_zeros (ds : jsstring) : jsstring :=
  match ds with
  | [] => []
  | d :: ds' => if (d =? 48)%N then drop_zeros ds' else ds
  end.

Definition exact_decimal_to_string (x : exact_decimal) : jsstring :=
  if (mantissa x =? 0)%N then "0"
  else
    let all := digits_of_N (mantissa x) in
    let s := rev (drop_zeros (rev all)) in
    let k := Z.of_nat (length s) in
    let n := (Z.of_nat (length all) + exponent x)%Z in
    let body :=
      if ((k <=? n) && (n <=? 21))%Z then s ++ replicate (Z.to_nat (n - k)) 48%N
      else if ((0 <? n) && (n <=? 21))%Z then
        take (Z.to_nat n) s ++ "." ++ drop (Z.to_nat n) s
      else if ((-6 <? n) && (n <=? 0))%Z then
        "0." ++ replicate (Z.to_nat (- n)) 48%N ++ s
      else
        let e := (n - 1)%Z in
        let exp := (if (e <? 0)%Z then "-" else "+") ++ digits_of_N (Z.abs_N e) in
        if (k =? 1)%Z then s ++ "e" ++ exp
        else take 1 s ++ "." ++ drop 1 s ++ "e" ++ exp in
    (if negative x then "-" else []) ++ body.

#[global] Instance exact_decimal_number : JsNumber exact_decimal := {
  number_is_falsy x := (mantissa x =? 0)%N;
  number_to_string := exact_decimal_to_string;
  number_of_literal neg m e := {| negative := neg; mantissa := m; exponent := e |};
}.

(** A storage in which the paths listed in the world are missing: signing
    such a path answers with an error, every other path is served its own
    name as content.  The workbook is left empty. *)
#[global] Instance listed_missing : Collaborators exact_decimal (list jsstring) := {
  createSignedUrl bucket filePath w :=
    if bool_decide (ToString filePath ∈ w)
    then (w, Ok {| signed_error := Some "Object not found"; signed_data := None |})
    else (w, Ok {| signed_error := None;
                   signed_data := Some ("https://storage.test/" ++ bucket ++ "/"
                                          ++ ToString filePath) |});
  fetch url w :=
    (w, Ok {| response_ok := true; response_status := 200;
              response_arrayBuffer := Ok url |});
  workbook_bytes _ _ _ := [];
}.

(** Rows and a world for running the export: two abstracts with a file
    (the second without an owner, and missing from the storage), one
    abstract without, and one payment receipt. *)
Definition sample_abstracts : list (JsObject exact_decimal) :=
  [ {[ "email" := JStr "ada@example.org"; "_file_path" := JStr "abstracts/u1-talk.pdf" ]};
    {[ "email" := JStr "";                "_file_path" := JStr "abstracts/u2-poster.pdf" ]};
    {[ "email" := JStr "no-file@example.org"; "_file_path" := JStr "" ]} ].

Definition sample_payments : list (JsObject exact_decimal) :=
  [ {[ "email" := JStr "ada@example.org"; "_file_path" := JStr "receipts/r1.png" ]} ].

Definition sample_world : list jsstring := ["abstracts/u2-poster.pdf"].

(** The number 42. *)
Definition forty_two : exact_decimal :=
  {| negative := false; mantissa := 42; exponent := 0 |}.

(** Raw records for running the normalizers and the sheets: an abstract
    with a file and notes, and a registration whose payment is
    confirmed. *)
Definition sample_raw_abstract : JsObject exact_decimal :=
  {[ "notes" := JStr "late"; "file_path" := JStr "abstracts/u1-talk.pdf" ]}.

Definition sample_raw_registration : JsObject exact_decimal :=
  {[ "payment_confirmed" := JBool true ]}.

(* ===================================================================== *)
(** ** Vocabulary of the statements                                       *)
(* ===================================================================== *)

(** *** Columns *)

(** A column with neither flag: meant for both the table and the sheet. *)
Definition unflagged (c : ColumnDef) : bool := negb (excelOnly c) && negb (uiOnly c).

(** *** Registration fields *)

Definition REGISTRATION_SCALARS : list jsstring :=
  ["id"; "created_at"; "updated_at"; "first_name"; "last_name"; "email";
   "affiliation"; "country"; "registration_type"; "abstract_intent"].

Definition REGISTRATION_BOOLEANS : list jsstring :=
  ["payment_confirmed"; "mailing_consent"; "gdpr_consent"].

(** *** Paths *)

Definition is_separator (c : N) : bool := ((c =? 47) || (c =? 92))%N.

(** What follows the last slash or backslash of [s] ([s] itself when it has
    none). *)
Fixpoint final_segment (s : jsstring) : jsstring :=
  match s with
  | [] => []
  | c :: s' =>
      if existsb is_separator s' then final_segment s'
      else if is_separator c then s' else s
  end.

(** [seg] is the final segment of [s]: it holds no separator, and it is
    all of [s] or what follows a separator of [s]. *)
Definition final_segment_of (seg s : jsstring) : Prop :=
  Forall (fun c => is_separator c = false) seg
  /\ (s = seg \/ exists before sep, is_separator sep = true /\ s = before ++ sep :: seg).

(** The display label of a path: its final segment, or the whole path
    when that segment is empty. *)
Definition path_label (s : jsstring) : jsstring :=
  match final_segment s with
  | [] => s
  | seg => seg
  end.

(** [s.replace(/\\/g, "/")] *)
Definition slashed (s : jsstring) : jsstring := replace_all_char ch_backslash "/" s.

(** *** Owner names *)

(** What one character of an owner's email becomes. *)
Definition sanitize_char (c : N) : jsstring :=
  if (c =? ch_at)%N then "_at_"
  else if is_safe_char c then [c] else "_".

(** The email with every character sanitised, in one pass. *)
Definition sanitized (email : jsstring) : jsstring := flat_map sanitize_char email.

(** [email || "unknown"] on strings. *)
Definition email_or_unknown (email : jsstring) : jsstring :=
  match email with
  | [] => "unknown"
  | _ => email
  end.

(** *** JSON texts *)

(** [s] between double quotes. *)
Definition quoted (s : jsstring) : jsstring := ch_quote :: s ++ [ch_quote].

Section ValueVocabulary.
Context {number : Type} `{!JsNumber number}.

(** The general coercion rule as the specification words it: the empty
    string for [null], [undefined] and an absent field, the string form of
    the value otherwise. *)
Definition spec_general_coercion (v : JsVal number) : JsVal number :=
  match v with
  | JUndefined | JNull => JStr ""
  | _ => JStr (ToString v)
  end.

Definition nullish_or_string (v : JsVal number) : Prop :=
  match v with
  | JUndefined | JNull | JStr _ => True
  | _ => False
  end.

(** A value a flat record may hold: neither [undefined] nor [null]. *)
Definition defined (v : JsVal number) : Prop := v <> JUndefined /\ v <> JNull.

(** Every key the columns [cols] declare is present in [row]. *)
Definition has_columns (cols : list ColumnDef) (row : JsObject number) : Prop :=
  Forall (fun c => exists v, row !! key c = Some v /\ defined v) cols.

(** A [file_path] the file helpers are written for: missing, falsy, or a
    string (the type [string|null] of the source's own comment). *)
Definition path_or_nothing (v : JsVal number) : Prop :=
  truthy v = false \/ exists s, v = JStr s.

Definition is_object (v : JsVal number) : Prop := exists o, v = JObj o.

(** [batch] is [single] applied to every record, index for index, and it
    returns exactly when [single] returns on each of them. *)
Definition maps_each {A B} (single : A -> result B) (batch : list A -> result (list B))
  : Prop :=
  forall rows : list A,
    (forall out, batch rows = Ok out ->
       length out = length rows
       /\ forall i r, rows !! i = Some r -> exists y, out !! i = Some y /\ single r = Ok y)
    /\ (returns (batch rows) <-> Forall (fun r => returns (single r)) rows).

End ValueVocabulary.

Section OrganizerVocabulary.
Context {number : Type} `{!JsNumber number}.

(** The string a sub-field of a structured organizer flattens to: empty
    when the sub-field is missing, [null] or [undefined]. *)
Definition subfield_of (o : JsObject number) (k : jsstring) : jsstring :=
  match o !! k with
  | None | Some JUndefined | Some JNull => []
  | Some v => ToString v
  end.

(** Every sub-field empty. *)
Definition no_subfield (k : jsstring) : jsstring := [].

(** [r] is a flat record of exactly the five prefixed keys, each holding
    the string [sub] gives for its sub-field. *)
Definition flattens_to (r : result (JsObject number)) (prefix : jsstring)
    (sub : jsstring -> jsstring) : Prop :=
  exists out : JsObject number,
    r = Ok out
    /\ dom out = {[ prefix ++ "_email"; prefix ++ "_country"; prefix ++ "_lastName";
                    prefix ++ "_firstName"; prefix ++ "_affiliation" ]}
    /\ size out = 5
    /\ Forall (fun k => out !! (prefix ++ "_" ++ k) = Some (JStr (sub k))) ORGANIZER_FIELDS.

(** The values a record holds under the five prefixed keys, in the order
    of [ORGANIZER_FIELDS]. *)
Definition organizer_values (prefix : jsstring) (out : JsObject number)
  : list (option (JsVal number)) :=
  map (fun k => out !! (prefix ++ "_" ++ k)) ORGANIZER_FIELDS.

(** What [parsed] gives for a sub-field. *)
Definition parsed_subfield (parsed : JsVal number) (k : jsstring) : jsstring :=
  match parsed with
  | JObj o => subfield_of o k
  | _ => []
  end.

(** The value [flattenOrganizer] reads the sub-fields from. *)
Definition parsed_blob (blob : JsVal number) : JsVal number :=
  match blob with
  | JStr s =>
      match trim s with
      | [] => JNull
      | _ :: _ =>
          match JSON_parse (trim s) with
          | Ok v => v
          | Throw _ => JNull
          end
      end
  | JArr _ | JObj _ => blob
  | _ => JNull
  end.

End OrganizerVocabulary.

Section ExportVocabulary.
Context {number world : Type} `{!JsNumber number} `{!Collaborators number world}.

(** What [fetchStorageFile] comes to, without the [try]: the bytes when
    the URL was signed, the response was OK and its body could be read,
    nothing in every other case. *)
Definition storage_outcome (bucket : jsstring) (filePath : JsVal number) (w : world)
  : world * option Buffer :=
  match createSignedUrl bucket filePath w with
  | (w1, Throw _) => (w1, None)
  | (w1, Ok signed) =>
      match signed_error signed, signed_data signed with
      | Some _, _ => (w1, None)
      | None, None => (w1, None)
      | None, Some url =>
          match fetch url w1 with
          | (w2, Throw _) => (w2, None)
          | (w2, Ok response) =>
              if response_ok response then
                match response_arrayBuffer response with
                | Ok b => (w2, Some b)
                | Throw _ => (w2, None)
                end
              else (w2, None)
          end
      end
  end.

(** A transformed row whose attachment the export can name: its
    [_file_path] is a string and its [email] is a string or falsy. *)
Definition attachment_row (row : JsObject number) : Prop :=
  (exists p, prop row "_file_path" = JStr p)
  /\ (truthy (prop row "email") = false \/ exists e, prop row "email" = JStr e).

(** The sanitised owner of a row. *)
Definition owner_name (row : JsObject number) : jsstring :=
  match prop row "email" with
  | JStr e => sanitized (email_or_unknown e)
  | _ => "unknown"
  end.

(** The storage path of a row, as text. *)
Definition stored_path (row : JsObject number) : jsstring :=
  ToString (prop row "_file_path").

(** One fetch per row, in order, each from the world the previous one
    left: the last world and what each fetch gave. *)
Fixpoint fetch_each (bucket : jsstring) (rows : list (JsObject number)) (w : world)
  : world * list (option Buffer) :=
  match rows with
  | [] => (w, [])
  | row :: rest =>
      let '(w1, b) := storage_outcome bucket (prop row "_file_path") w in
      let '(w2, bs) := fetch_each bucket rest w1 in
      (w2, b :: bs)
  end.

Definition abstract_call (row : JsObject number) (fetched : option Buffer) : list ZipCall :=
  match fetched with
  | Some b =>
      [ZipFile ("abstracts/" ++ owner_name row ++ "_" ++ path_label (stored_path row))
         (Bytes b)]
  | None => []
  end.

Definition abstract_failure (row : JsObject number) (fetched : option Buffer)
  : list jsstring :=
  match fetched with
  | Some _ => []
  | None => ["abstracts/" ++ stored_path row]
  end.

Definition payment_call (row : JsObject number) (fetched : option Buffer) : list ZipCall :=
  ZipFolder ("payment_receipts/" ++ owner_name row)
  :: match fetched with
     | Some b =>
         [ZipFile ("payment_receipts/" ++ owner_name row ++ "/"
                     ++ path_label (stored_path row)) (Bytes b)]
     | None => []
     end.

Definition payment_failure (row : JsObject number) (fetched : option Buffer)
  : list jsstring :=
  match fetched with
  | Some _ => []
  | None => ["payment_receipts/" ++ owner_name row ++ "/" ++ stored_path row]
  end.

(** [f] on every row and what its fetch gave, the results in a row. *)
Fixpoint for_each {A} (f : JsObject number -> option Buffer -> list A)
    (rows : list (JsObject number)) (fetched : list (option Buffer)) : list A :=
  match rows, fetched with
  | row :: rows', b :: fetched' => f row b ++ for_each f rows' fetched'
  | _, _ => []
  end.

(** The [folder("abstracts")] call, made only when an abstract has a file. *)
Definition abstracts_folder (absWithFiles : list (JsObject number)) : list ZipCall :=
  match absWithFiles with
  | [] => []
  | _ :: _ => [ZipFolder "abstracts"]
  end.

(** The manifest, added only when a fetch failed. *)
Definition manifest (failedFiles : list jsstring) : list ZipCall :=
  match failedFiles with
  | [] => []
  | _ :: _ => [ZipFile "DOWNLOAD_ERRORS.txt" (Text (failure_note failedFiles))]
  end.

End ExportVocabulary.

(** *** Rows of the submissions table *)

(** The fields [transformRow] copies as they are. *)
Definition ROW_SCALARS : list jsstring :=
  ["id"; "created_at"; "locale"; "session_title"; "session_topic"; "session_summary";
   "additional_comments"; "status"].

Definition ORGANIZER_BLOBS : list jsstring :=
  ["organizer_primary"; "organizer_secondary"; "organizer_tertiary"].

(** *** Attachment rows *)

(** The fields [transformAbstract] and [transformPayment] copy as they
    are. *)
Definition ABSTRACT_SCALARS : list jsstring :=
  ["id"; "created_at"; "first_name"; "last_name"; "email"; "affiliation"; "title";
   "session"; "co_authors"; "abstract_text"; "notes"].

Definition PAYMENT_SCALARS : list jsstring :=
  ["id"; "created_at"; "email"; "receipt_type"; "notes"].

(** A record a raw attachment row is typed as: an object whose [file_path]
    and [email] are each missing, falsy or a string. *)
Definition typed_attachment {number} `{!JsNumber number} (raw : JsVal number) : Prop :=
  exists o, raw = JObj o
            /\ path_or_nothing (prop o "file_path") /\ path_or_nothing (prop o "email").

(** *** Calls on the archive *)

(** A call that puts bytes into the archive: a fetched file, or the
    workbook. *)
Definition is_bytes_file (c : ZipCall) : bool :=
  match c with
  | ZipFile _ (Bytes _) => true
  | _ => false
  end.

Definition is_folder (c : ZipCall) : bool :=
  match c with
  | ZipFolder _ => true
  | _ => false
  end.

Definition ch_newline : N := 10.

(** The first line of [DOWNLOAD_ERRORS.txt]. *)
Definition failure_note_heading : jsstring :=
  "The following files could not be downloaded (storage permission or network issue):".

(** *** Time stamps *)

(** Neither a colon nor a full stop. *)
Definition plain_char (c : N) : Prop := c <> 58%N /\ c <> 46%N.

(** *** Worksheets *)

(** The raw fields the lines of the Abstracts and Payment Receipts sheets
    are read from, in the order of the sheet's columns. *)
Definition ABSTRACT_SHEET_FIELDS : list jsstring :=
  ["id"; "created_at"; "first_name"; "last_name"; "email"; "affiliation"; "title";
   "session"; "co_authors"; "abstract_text"; "file_path"].

Definition PAYMENT_SHEET_FIELDS : list jsstring :=
  ["id"; "created_at"; "email"; "receipt_type"; "notes"; "file_path"].

Section SheetVocabulary.
Context {number : Type} `{!JsNumber number}.

(** What a sheet or a table shows of [row] under the column [c]: the
    value, or the empty string for [null], [undefined] and a missing key. *)
Definition cell_of (row : JsObject number) (c : ColumnDef) : JsVal number :=
  if not_nullish (prop row (key c)) then prop row (key c) else JStr "".

(** The width a column is given: two more than the longest of its label
    and its cells, each cell counted up to 40 characters, or up to
    [wrap_cap] in a column that wraps. *)
Definition column_width (wrap_cap : nat) (rows : list (JsObject number)) (c : ColumnDef)
  : nat :=
  let cap := if wrap c then wrap_cap else 40 in
  length (label c)
    `max` max_list (map (fun row => length (ToString (cell_of row c)) `min` cap) rows)
  + 2.

(** The sheet of [rows] under [cols]: the labels, then a line per row. *)
Definition sheet_lines (rows : list (JsObject number)) (cols : list ColumnDef)
  : list (list (JsVal number)) :=
  map (fun c => JStr (label c)) cols :: map (fun row => map (cell_of row) cols) rows.

(** The header line of a sheet. *)
Definition header_of (cols : list ColumnDef) : list (JsVal number) :=
  (fun c => JStr (label c)) <$> cols.

(** The lines of the three sheets of the workbook, read off the raw
    records: every field as it is when truthy and as the empty string
    otherwise, the three consents as ["Yes"], ["No"] or the empty
    string. *)
Definition raw_workbook_lines
    (rawRegistrations rawAbstracts rawPayments : list (JsObject number))
  : list (jsstring * list (list (JsVal number))) :=
  [ ("Registrations",
     header_of (excelColumns REGISTRATION_COLUMNS)
       :: ((fun raw =>
              ((fun k => or_else (prop raw k) (JStr "")) <$> REGISTRATION_SCALARS)
              ++ ((fun k => boolStr (prop raw k)) <$> REGISTRATION_BOOLEANS))
             <$> rawRegistrations));
    ("Abstracts",
     header_of (excelColumns ABSTRACT_COLUMNS)
       :: ((fun raw => (fun k => or_else (prop raw k) (JStr "")) <$> ABSTRACT_SHEET_FIELDS)
             <$> rawAbstracts));
    ("Payment Receipts",
     header_of (excelColumns PAYMENT_COLUMNS)
       :: ((fun raw => (fun k => or_else (prop raw k) (JStr "")) <$> PAYMENT_SHEET_FIELDS)
             <$> rawPayments)) ].

End SheetVocabulary.

(** *** Tables *)

Section TableVocabulary.
Context {number : Type} `{!JsNumber number}.

Definition childNodes_of (n : Node number) : list (Node number) :=
  match n with
  | ElementNode _ _ _ _ children => children
  | TextNode _ => []
  end.

(** What reading [n.textContent] gives: the text of [n]'s descendants, in
    document order. *)
Fixpoint textContent (n : Node number) : jsstring :=
  match n with
  | TextNode data => data
  | ElementNode _ _ _ _ children => flat_map textContent children
  end.

(** The click listeners registered in [n] and below, in document order. *)
Fixpoint listeners_in (n : Node number) : list (SidebarCall number) :=
  match n with
  | TextNode _ => []
  | ElementNode _ _ _ click children => click ++ flat_map listeners_in children
  end.

(** The lines of a table: the text of every cell of every row of every
    section ([thead], [tbody]). *)
Definition table_text (table : Node number) : list (list jsstring) :=
  flat_map (fun section => map (fun tr => map textContent (childNodes_of tr))
                             (childNodes_of section))
    (childNodes_of table).

(** A column whose cells [renderRegTable] clamps: they open the sidebar on
    a click. *)
Definition clamped (col : ColumnDef) : bool :=
  wrap col && negb (bool_decide (key col = "payment_confirmed"))
  && negb (bool_decide (key col = "has_file")).

End TableVocabulary.

(** *** Tactics *)

(** Runs the property reads of a row object and the binds that follow. *)
Ltac run_gets := cbn [get mbind result_bind].

(** Two keys that share their prefix and differ after it. *)
Ltac key_ne := intros ?%app_inv_head; discriminate.

(** Finds a key in a union of singletons. *)
Ltac find_key :=
  lazymatch goal with
  | |- _ ∈ {[ _ ]} => apply elem_of_singleton; reflexivity
  | |- _ ∈ _ ∪ _ =>
      first [ apply elem_of_union_l; find_key | apply elem_of_union_r; find_key ]
  end.

(** One goal per element of a list written out. *)
Ltac each_element :=
  repeat first [apply Forall_nil_2 | apply Forall_cons_2].

(** Every value of a record written out satisfies a predicate that the
    lemmas [l1] and [l2] establish for the values the sources write. *)
Ltac all_values l1 l2 :=
  repeat first
    [ apply map_Forall_empty
    | apply map_Forall_insert_2
    | apply map_Forall_union_2
    | apply l1
    | apply l2
    | done ].

(** The columns of a record that an object literal builds: [hcols] turns
    defined values and declared keys into [has_columns]. *)
Ltac columns_of_literal l1 l2 hcols :=
  eexists; split; [reflexivity|];
  unfold list_to_map; cbn [foldr fst snd];
  apply hcols;
  [ all_values l1 l2
  | rewrite !dom_insert_L, dom_empty_L; each_element; find_key ].

(** Finds a key in a list written out. *)
Ltac find_in_list :=
  lazymatch goal with
  | |- _ ∈ _ :: _ => first [ apply list_elem_of_here | apply list_elem_of_further; find_in_list ]
  end.

(** The key a lookup found something under, in a record built by
    insertions and unions. *)
Ltac key_of_lookup H :=
  lazymatch type of H with
  | <[_ := _]> _ !! _ = Some _ =>
      apply lookup_insert_Some in H as [[<- _]|[_ H]]; [find_in_list | key_of_lookup H]
  | (_ ∪ _) !! _ = Some _ =>
      apply lookup_union_Some_raw in H as [H|[_ H]]; key_of_lookup H
  | ∅ !! _ = Some _ => by rewrite lookup_empty in H
  end.

(** One goal per cell of a line written out: [lookup] turns the value a
    record holds under the column's key into the cell. *)
Ltac each_cell lookup :=
  repeat (apply (f_equal2 cons); [apply lookup; [reflexivity|] |]); try reflexivity.

(* ===================================================================== *)
(** * Properties                                                          *)
(* ===================================================================== *)

(** ** Column projection (reg-columns.js) *)

Lemma filter_sublist_of {A} (p : A -> bool) (l : list A) :
  List.filter p l `sublist_of` l.
Proof.
  induction l as [|x l IH]; simpl.
  - constructor.
  - destruct (p x); [by apply sublist_skip | by apply sublist_cons].
Qed.

Lemma filter_elem_of {A} (p : A -> bool) (l : list A) (x : A) :
  x ∈ List.filter p l <-> x ∈ l /\ p x = true.
Proof. rewrite !list_elem_of_In. apply filter_In. Qed.

Lemma filter_partition {A} (p : A -> bool) (l : list A) :
  l ≡ₚ List.filter p l ++ List.filter (fun x => negb (p x)) l.
Proof.
  induction l as [|x l IH]; simpl; [done|].
  destruct (p x); simpl.
  - by f_equiv.
  - by rewrite <- Permutation_middle; f_equiv.
Qed.

Lemma filter_filter_implied {A} (p q : A -> bool) (l : list A) :
  (forall x, q x = true -> p x = true) ->
  List.filter q (List.filter p l) = List.filter q l.
Proof.
  intros Hqp. induction l as [|x l IH]; simpl; [done|].
  destruct (p x) eqn:Hp; simpl.
  - by rewrite IH.
  - destruct (q x) eqn:Hq; [|done]. apply Hqp in Hq. congruence.
Qed.

(** C5.  For every column list, [uiColumns] keeps exactly the columns not
    flagged [excelOnly] and [excelColumns] exactly those not flagged
    [uiOnly]: each result is a sublist of the master list (the relative
    order is kept), the master list is the result together with the flagged
    columns (nothing else is dropped, nothing is repeated), a column is in
    the result exactly when it is in the list and not flagged, and the
    unflagged columns of either projection are the unflagged columns of the
    master list, in the same order. *)
Theorem column_projections (cols : list ColumnDef) :
  (uiColumns cols `sublist_of` cols
   /\ cols ≡ₚ uiColumns cols ++ List.filter excelOnly cols
   /\ forall c, c ∈ uiColumns cols <-> c ∈ cols /\ excelOnly c = false)
  /\ (excelColumns cols `sublist_of` cols
      /\ cols ≡ₚ excelColumns cols ++ List.filter uiOnly cols
      /\ forall c, c ∈ excelColumns cols <-> c ∈ cols /\ uiOnly c = false)
  /\ List.filter unflagged (uiColumns cols) = List.filter unflagged cols
  /\ List.filter unflagged (excelColumns cols) = List.filter unflagged cols.
Proof.
  assert (Hpart : forall flag : ColumnDef -> bool,
             cols ≡ₚ List.filter (fun c => negb (flag c)) cols ++ List.filter flag cols).
  { intros flag.
    rewrite (filter_partition (fun c => negb (flag c)) cols) at 1.
    f_equiv. erewrite filter_ext; [done|]. intros c. apply negb_involutive. }
  assert (Hmem : forall (flag : ColumnDef -> bool) c,
             c ∈ List.filter (fun c => negb (flag c)) cols <-> c ∈ cols /\ flag c = false).
  { intros flag c. rewrite filter_elem_of, negb_true_iff. done. }
  unfold uiColumns, excelColumns.
  split; [|split; [|split]].
  - split; [apply filter_sublist_of | split; [apply Hpart | apply Hmem]].
  - split; [apply filter_sublist_of | split; [apply Hpart | apply Hmem]].
  - apply filter_filter_implied. by intros c [? _]%andb_true_iff.
  - apply filter_filter_implied. by intros c [_ ?]%andb_true_iff.
Qed.

(** The registrations have no flagged column: both projections are the
    whole list.  The abstracts show [has_file] in the table only and
    [_file_path] in the sheet only. *)
Example registration_projections :
  uiColumns REGISTRATION_COLUMNS = REGISTRATION_COLUMNS
  /\ excelColumns REGISTRATION_COLUMNS = REGISTRATION_COLUMNS
  /\ map key (uiColumns ABSTRACT_COLUMNS)
     = ["id"; "created_at"; "first_name"; "last_name"; "email"; "affiliation"; "title";
        "session"; "co_authors"; "abstract_text"; "has_file"]
  /\ map key (excelColumns ABSTRACT_COLUMNS)
     = ["id"; "created_at"; "first_name"; "last_name"; "email"; "affiliation"; "title";
        "session"; "co_authors"; "abstract_text"; "_file_path"].
Proof. repeat split; reflexivity. Qed.

(** ** Running a row object *)

Section Running.
Context {number : Type} `{!JsNumber number}.

Lemma get_object (o : JsObject number) k : get (JObj o) k = Ok (prop o k).
Proof. reflexivity. Qed.

Lemma bind_Ok {A B} (a : A) (f : A -> result B) : (Ok a ≫= f) = f a.
Proof. reflexivity. Qed.

Lemma or_else_defined (v : JsVal number) (s : jsstring) : defined (or_else v (JStr s)).
Proof.
  unfold or_else.
  by destruct v as [| |[]|n|[]| |]; cbn [truthy]; try destruct (negb _).
Qed.

Lemma boolStr_defined (v : JsVal number) : defined (boolStr v).
Proof. by destruct v as [| |[]| | | |]. Qed.

Lemma lookup_of_dom (row : JsObject number) (k : jsstring) (P : JsVal number -> Prop) :
  k ∈ dom row -> map_Forall (fun _ v => P v) row -> exists v, row !! k = Some v /\ P v.
Proof. intros [v Hv]%elem_of_dom Hall. exists v. split; [done|]. by apply (Hall k). Qed.

End Running.

(** ** Registrations (reg-transform.js) *)

Section Registrations.
Context {number : Type} `{!JsNumber number}.

Lemma or_else_general_coercion (v : JsVal number) :
  nullish_or_string v -> or_else v (JStr "") = spec_general_coercion v.
Proof. destruct v as [| | | |[|c s]| |]; simpl; try done. Qed.

(** C2, as the code has it.  For every raw registration, every non-boolean
    scalar field of the output is the raw value itself when that value is
    truthy and the empty string when it is falsy; this is the
    specification's coercion whenever the raw value is absent, [null],
    [undefined] or a string.  Every boolean field is ["Yes"] for [true],
    ["No"] for [false] and the empty string for anything else. *)
Theorem transformRegistration_fields (raw : JsObject number) :
  exists row,
    transformRegistration (JObj raw) = Ok row
    /\ Forall (fun k =>
         let v := prop raw k in
         row !! k = Some (if truthy v then v else JStr "")
         /\ (nullish_or_string v -> row !! k = Some (spec_general_coercion v)))
       REGISTRATION_SCALARS
    /\ Forall (fun k =>
         row !! k = Some (JStr match prop raw k with
                               | JBool true => "Yes"
                               | JBool false => "No"
                               | _ => ""
                               end))
       REGISTRATION_BOOLEANS.
Proof.
  eexists. split; [reflexivity|]. split.
  - each_element.
    all: split;
      [reflexivity | intros Hv; rewrite <- (or_else_general_coercion _ Hv); reflexivity].
  - each_element.
    all: match goal with
         | |- _ !! ?k = _ => transitivity (Some (boolStr (prop raw k))); [reflexivity|]
         end.
    all: unfold boolStr; by destruct (prop raw _) as [| |[]| | | |].
Qed.

End Registrations.

(** C2, as it is stated, fails: an [id] of [false] comes out as the empty
    string, not as its string form, and an [id] of 42 comes out as the
    number, not as a string. *)
Lemma transformRegistration_not_string_form :
  (exists row : JsObject exact_decimal,
     transformRegistration (JObj {[ "id" := JBool false ]}) = Ok row
     /\ row !! "id" = Some (JStr "")
     /\ spec_general_coercion (JBool false : JsVal exact_decimal) = JStr "false")
  /\ (exists row : JsObject exact_decimal,
        transformRegistration (JObj {[ "id" := JNum forty_two ]}) = Ok row
        /\ row !! "id" = Some (JNum forty_two)
        /\ spec_general_coercion (JNum forty_two) = JStr "42").
Proof. split; (eexists; split; [reflexivity|]; split; reflexivity). Qed.

(** C2 on a registration with an email and a [null] country: both come out
    as the specification's coercion has them. *)
Lemma transformRegistration_fields_witness :
  exists row : JsObject exact_decimal,
    transformRegistration
      (JObj {[ "email" := JStr "ada@example.org"; "country" := JNull ]}) = Ok row
    /\ row !! "email" = Some (spec_general_coercion (JStr "ada@example.org"))
    /\ row !! "country" = Some (spec_general_coercion JNull).
Proof.
  destruct (transformRegistration_fields (number := exact_decimal)
              {[ "email" := JStr "ada@example.org"; "country" := JNull ]})
    as (row & Hrun & Hscalars & _).
  exists row. split; [exact Hrun|].
  rewrite Forall_forall in Hscalars. split.
  - apply (Hscalars "email"); [|exact I]. apply list_elem_of_In. simpl. tauto.
  - apply (Hscalars "country"); [|exact I]. apply list_elem_of_In. simpl. tauto.
Defined.

(** Three registrations, one with [payment_confirmed: false] and no
    country: three rows come out, that row reads ["No"] and [""]. *)
Example three_registrations :
  exists r1 r2 r3 : JsObject exact_decimal,
    transformRegistrations
      [ JObj {[ "country" := JStr "GR"; "payment_confirmed" := JBool true ]};
        JObj {[ "payment_confirmed" := JBool false ]};
        JObj {[ "country" := JStr "FR" ]} ]
    = Ok [r1; r2; r3]
    /\ r2 !! "payment_confirmed" = Some (JStr "No")
    /\ r2 !! "country" = Some (JStr "").
Proof. do 3 eexists. split; [reflexivity|]. split; reflexivity. Qed.

(** ** File labels (reg-transform.js, zip-export.js) *)

Lemma slashed_cons c s :
  slashed (c :: s) = (if is_separator c then ch_slash else c) :: slashed s.
Proof.
  unfold slashed, replace_all_char, is_separator, ch_backslash, ch_slash. simpl.
  destruct (N.eqb_spec c 92) as [->|Hc]; simpl; [done|].
  destruct (N.eqb_spec c 47) as [->|Hc']; done.
Qed.

Lemma split_on_nonempty sep s : split_on sep s <> [].
Proof.
  destruct s as [|c s]; simpl; [done|].
  destruct (c =? sep)%N; [done|]. by destruct (split_on sep s).
Qed.

Lemma not_separator_not_slash c : is_separator c = false -> (c =? ch_slash)%N = false.
Proof. unfold is_separator. by intros [? _]%orb_false_iff. Qed.

Lemma split_slashed_no_separator s :
  existsb is_separator s = false -> split_on ch_slash (slashed s) = [s].
Proof.
  induction s as [|c s IH]; [done|]. cbn [existsb].
  intros [Hc Hs]%orb_false_iff. rewrite slashed_cons, Hc. cbn [split_on].
  by rewrite (not_separator_not_slash c Hc), (IH Hs).
Qed.

Lemma split_slashed_separator s :
  existsb is_separator s = true ->
  exists p q ps, split_on ch_slash (slashed s) = p :: q :: ps.
Proof.
  induction s as [|c s IH]; [done|]. cbn [existsb].
  rewrite slashed_cons. destruct (is_separator c) eqn:Hc; cbn [split_on orb].
  - intros _. change (ch_slash =? ch_slash)%N with true. cbv iota.
    destruct (split_on ch_slash (slashed s)) as [|q ps] eqn:Hsplit.
    + by apply split_on_nonempty in Hsplit.
    + eauto.
  - intros Hs. destruct (IH Hs) as (p & q & ps & ->).
    rewrite (not_separator_not_slash c Hc). eauto.
Qed.

Lemma final_segment_no_separator s :
  existsb is_separator s = false -> final_segment s = s.
Proof.
  destruct s as [|c s]; simpl; [done|].
  intros [-> ->]%orb_false_iff. done.
Qed.

(** The last piece of the split is the final segment. *)
Lemma last_split_slashed s :
  last (split_on ch_slash (slashed s)) = Some (final_segment s).
Proof.
  induction s as [|c s IH]; [done|].
  rewrite slashed_cons. cbn [final_segment].
  destruct (existsb is_separator s) eqn:Hs.
  - destruct (split_slashed_separator s Hs) as (p & q & ps & Hsplit).
    rewrite Hsplit in IH. simpl. rewrite Hsplit.
    by destruct (_ =? _)%N.
  - rewrite (final_segment_no_separator s Hs) in IH.
    simpl. rewrite (split_slashed_no_separator s Hs).
    destruct (is_separator c) eqn:Hc; simpl; [done|].
    by rewrite (not_separator_not_slash c Hc).
Qed.

Lemma final_segment_is_final s : final_segment_of (final_segment s) s.
Proof.
  induction s as [|c s [IHno IHsuf]]; [by split; [constructor | left]|].
  cbn [final_segment]. destruct (existsb is_separator s) eqn:Hs.
  - split; [done|]. right. destruct IHsuf as [Heq | (before & sep & Hsep & Heq)].
    + rewrite <- Heq in IHno. apply existsb_exists in Hs as (x & Hx & Hsep).
      rewrite Forall_forall in IHno. apply list_elem_of_In, IHno in Hx. congruence.
    + exists (c :: before), sep. by rewrite Heq at 1.
  - assert (Forall (fun c => is_separator c = false) s) as Hall.
    { apply Forall_forall. intros x Hx.
      destruct (is_separator x) eqn:Hsx; [|done].
      assert (existsb is_separator s = true); [|congruence].
      apply existsb_exists. exists x. by rewrite <- list_elem_of_In. }
    destruct (is_separator c) eqn:Hc.
    + split; [done|]. right. by exists [], c.
    + split; [by constructor | by left].
Qed.

Section FileLabels.
Context {number : Type} `{!JsNumber number}.

Lemma fileLabel_string (s : jsstring) :
  s <> [] -> fileLabel (JStr s : JsVal number) = Ok (JStr (path_label s)).
Proof.
  intros Hs. unfold fileLabel, path_label.
  destruct s as [|c s]; [done|]. cbn [truthy negb call_replace].
  rewrite bind_Ok. fold (slashed (c :: s)).
  unfold last_part. rewrite last_split_slashed.
  by destruct (final_segment (c :: s)).
Qed.

Lemma has_file_of_string (s : jsstring) :
  s <> [] -> has_file_of (JStr s : JsVal number) = Ok (JStr (path_label s)).
Proof.
  intros Hs. unfold has_file_of. rewrite (fileLabel_string s Hs).
  by destruct s.
Qed.

Lemma has_file_of_falsy (v : JsVal number) :
  truthy v = false -> has_file_of v = Ok (JStr "").
Proof. intros Hv. unfold has_file_of. by rewrite Hv. Qed.

Lemma has_file_of_defined (v : JsVal number) :
  path_or_nothing v -> exists s, has_file_of v = Ok (JStr s).
Proof.
  intros [Hfalsy | [s ->]].
  - rewrite (has_file_of_falsy v Hfalsy). by eexists.
  - destruct s as [|c s].
    + by eexists.
    + rewrite has_file_of_string by done. by eexists.
Qed.

Lemma has_file_of_throws (v : JsVal number) :
  ~ path_or_nothing v -> has_file_of v = Throw TypeError.
Proof.
  intros Hv. unfold has_file_of, fileLabel. unfold path_or_nothing in Hv.
  destruct (truthy v) eqn:Ht; [|by destruct Hv; left]. cbn [negb].
  destruct v; try done. destruct Hv. right. by eexists.
Qed.

Lemma storageBasename_string (p : jsstring) :
  storageBasename (JStr p : JsVal number) = Ok (JStr (path_label p)).
Proof.
  unfold storageBasename. cbn [call_replace]. rewrite bind_Ok.
  fold (slashed p). unfold last_part. rewrite last_split_slashed.
  unfold path_label, or_else. by destruct (final_segment p).
Qed.

(** C7.  For every abstract or payment-receipt record: when [file_path] is
    a non-empty string, [has_file] is the final segment of the path after
    the last slash or backslash (the whole path when that segment is empty)
    and [_file_path] is the path unchanged; when [file_path] is the empty
    string, [null] or absent, both are the empty string.  [_file_path] is
    an export-only column of both entities. *)
Theorem file_path_fields (raw : JsObject number) :
  (forall s, prop raw "file_path" = JStr s -> s <> [] ->
     exists seg label,
       final_segment_of seg s
       /\ label = match seg with [] => s | _ => seg end
       /\ (exists row, transformAbstract (JObj raw) = Ok row
             /\ row !! "has_file" = Some (JStr label)
             /\ row !! "_file_path" = Some (JStr s))
       /\ (exists row, transformPayment (JObj raw) = Ok row
             /\ row !! "has_file" = Some (JStr label)
             /\ row !! "_file_path" = Some (JStr s)))
  /\ (prop raw "file_path" = JStr [] \/ prop raw "file_path" = JNull
      \/ prop raw "file_path" = JUndefined ->
      (exists row, transformAbstract (JObj raw) = Ok row
          /\ row !! "has_file" = Some (JStr "")
          /\ row !! "_file_path" = Some (JStr ""))
      /\ (exists row, transformPayment (JObj raw) = Ok row
          /\ row !! "has_file" = Some (JStr "")
          /\ row !! "_file_path" = Some (JStr "")))
  /\ column_excel "_file_path" "File Path (ZIP)" ∈ ABSTRACT_COLUMNS
  /\ column_excel "_file_path" "File Path (ZIP)" ∈ PAYMENT_COLUMNS.
Proof.
  split; [|split; [|split]].
  - intros s Hfp Hs. exists (final_segment s), (path_label s).
    split; [apply final_segment_is_final|].
    split; [unfold path_label; by destruct (final_segment s)|].
    assert (or_else (JStr s : JsVal number) (JStr "") = JStr s) as Hor.
    { by destruct s. }
    split.
    + unfold transformAbstract. run_gets. rewrite Hfp, (has_file_of_string s Hs), bind_Ok.
      eexists. split; [reflexivity|]. split; [reflexivity|].
      transitivity (Some (or_else (JStr s : JsVal number) (JStr ""))); [reflexivity|].
      by rewrite Hor.
    + unfold transformPayment. run_gets. rewrite Hfp, (has_file_of_string s Hs), bind_Ok.
      eexists. split; [reflexivity|]. split; [reflexivity|].
      transitivity (Some (or_else (JStr s : JsVal number) (JStr ""))); [reflexivity|].
      by rewrite Hor.
  - intros Hfp.
    assert (truthy (prop raw "file_path") = false) as Hfalsy.
    { by destruct Hfp as [-> | [-> | ->]]. }
    assert (or_else (prop raw "file_path") (JStr "") = JStr "") as Hor.
    { unfold or_else. by rewrite Hfalsy. }
    split.
    + unfold transformAbstract. run_gets. rewrite (has_file_of_falsy _ Hfalsy), bind_Ok.
      eexists. split; [reflexivity|]. split; [reflexivity|].
      transitivity (Some (or_else (prop raw "file_path") (JStr ""))); [reflexivity|].
      by rewrite Hor.
    + unfold transformPayment. run_gets. rewrite (has_file_of_falsy _ Hfalsy), bind_Ok.
      eexists. split; [reflexivity|]. split; [reflexivity|].
      transitivity (Some (or_else (prop raw "file_path") (JStr ""))); [reflexivity|].
      by rewrite Hor.
  - unfold ABSTRACT_COLUMNS. apply list_elem_of_In. simpl. tauto.
  - unfold PAYMENT_COLUMNS. apply list_elem_of_In. simpl. tauto.
Qed.

End FileLabels.

Example fileLabel_example :
  fileLabel (JStr "abstracts/uuid-name.pdf" : JsVal exact_decimal)
  = Ok (JStr "uuid-name.pdf")
  /\ fileLabel (JStr "C:\uploads\scan.png" : JsVal exact_decimal) = Ok (JStr "scan.png")
  /\ fileLabel (JStr "abstracts/" : JsVal exact_decimal) = Ok (JStr "abstracts/")
  /\ fileLabel (JNull : JsVal exact_decimal) = Ok (JStr "").
Proof. repeat split; vm_compute; reflexivity. Qed.

(** C7 at the path of the specification's example. *)
Lemma file_path_fields_witness :
  exists seg label : jsstring,
    final_segment_of seg "abstracts/uuid-name.pdf"
    /\ label = match seg with [] => "abstracts/uuid-name.pdf" | _ => seg end
    /\ (exists row : JsObject exact_decimal,
          transformAbstract (JObj {[ "file_path" := JStr "abstracts/uuid-name.pdf" ]}) = Ok row
          /\ row !! "has_file" = Some (JStr label)
          /\ row !! "_file_path" = Some (JStr "abstracts/uuid-name.pdf"))
    /\ (exists row : JsObject exact_decimal,
          transformPayment (JObj {[ "file_path" := JStr "abstracts/uuid-name.pdf" ]}) = Ok row
          /\ row !! "has_file" = Some (JStr label)
          /\ row !! "_file_path" = Some (JStr "abstracts/uuid-name.pdf")).
Proof.
  apply (proj1 (file_path_fields (number := exact_decimal)
                  {[ "file_path" := JStr "abstracts/uuid-name.pdf" ]})).
  - reflexivity.
  - discriminate.
Defined.

(** ** Owner names in the archive (zip-export.js) *)

Lemma replace_unsafe_app s t : replace_unsafe (s ++ t) = replace_unsafe s ++ replace_unsafe t.
Proof. apply map_app. Qed.

(** The two [replace] calls of [safeEmail] come to one pass. *)
Lemma two_passes_sanitize (email : jsstring) :
  replace_unsafe (replace_all_char ch_at "_at_" email) = sanitized email.
Proof.
  unfold replace_all_char, sanitized.
  induction email as [|c email IH]; [done|].
  cbn [flat_map]. rewrite replace_unsafe_app, IH. f_equal.
  unfold sanitize_char. destruct (c =? ch_at)%N; [done|].
  unfold replace_unsafe. cbn [map]. by destruct (is_safe_char c).
Qed.

Lemma sanitized_safe (email : jsstring) :
  Forall (fun c => is_safe_char c = true) (sanitized email).
Proof.
  unfold sanitized. induction email as [|c email IH]; [constructor|].
  cbn [flat_map]. apply Forall_app. split; [|done].
  unfold sanitize_char. destruct (c =? ch_at)%N.
  - repeat constructor.
  - destruct (is_safe_char c) eqn:Hc; repeat constructor. done.
Qed.

Section OwnerNames.
Context {number world : Type} `{!JsNumber number} `{!Collaborators number world}.

Lemma safeEmail_string (email : jsstring) :
  safeEmail (JStr email : JsVal number) = Ok (sanitized (email_or_unknown email)).
Proof.
  unfold safeEmail, or_else, email_or_unknown.
  destruct email as [|c email]; cbn [truthy call_replace]; rewrite bind_Ok;
    by rewrite two_passes_sanitize.
Qed.

Lemma zipFilename_string (email p : jsstring) :
  zipFilename (JStr email : JsVal number) (JStr p)
  = Ok (sanitized (email_or_unknown email) ++ "_" ++ path_label p).
Proof.
  unfold zipFilename. by rewrite safeEmail_string, bind_Ok, storageBasename_string, bind_Ok.
Qed.

(** [fetchStorageFile] never rejects: it resolves to the bytes or to
    [null]. *)
Lemma fetchStorageFile_outcome bucket filePath (w : world) :
  fetchStorageFile bucket filePath w
  = (fst (storage_outcome bucket filePath w), Ok (snd (storage_outcome bucket filePath w))).
Proof.
  unfold fetchStorageFile, storage_outcome, try_catch_async, await, sync, resolve.
  destruct (createSignedUrl bucket filePath w) as [w1 [signed|e]]; [|done].
  destruct (signed_error signed); [done|].
  destruct (signed_data signed) as [url|]; [|done].
  destruct (fetch url w1) as [w2 [response|e]]; [|done].
  destruct (response_ok response); [|done]. cbn [negb].
  by destruct (response_arrayBuffer response).
Qed.

(** C9, as the code has it.  For every owner email string, [safeEmail]
    first puts ["unknown"] in the place of an empty email, then replaces
    each [@] by [_at_] and every other character outside
    [[A-Za-z0-9._+-]] by [_]; the result holds characters of that class
    only.  The archive name of an abstract's file is the sanitised email,
    [_], and the basename of the path; a payment receipt goes into the
    folder [payment_receipts/] followed by the sanitised email, under the
    basename of its path. *)
Theorem safeEmail_sanitizes (email p : jsstring) :
  safeEmail (JStr email : JsVal number) = Ok (sanitized (email_or_unknown email))
  /\ Forall (fun c => is_safe_char c = true) (sanitized (email_or_unknown email))
  /\ zipFilename (JStr email : JsVal number) (JStr p)
     = Ok (sanitized (email_or_unknown email) ++ "_" ++ path_label p)
  /\ forall (pay : JsObject number) rest zip failedFiles (w : world),
       prop pay "email" = JStr email ->
       prop pay "_file_path" = JStr p ->
       let folder := "payment_receipts/" ++ sanitized (email_or_unknown email) in
       payments_loop (pay :: rest) zip failedFiles w
       = match storage_outcome "payment-receipts" (JStr p) w with
         | (w', Some b) =>
             payments_loop rest
               (zip ++ [ZipFolder folder; ZipFile (folder ++ "/" ++ path_label p) (Bytes b)])
               failedFiles w'
         | (w', None) =>
             payments_loop rest (zip ++ [ZipFolder folder])
               (failedFiles ++ [folder ++ "/" ++ p]) w'
         end.
Proof.
  split; [apply safeEmail_string|]. split; [apply sanitized_safe|].
  split; [apply zipFilename_string|].
  intros pay rest zip failedFiles w Hemail Hpath folder.
  cbn [payments_loop]. rewrite Hemail, Hpath.
  unfold await at 1. unfold sync at 1. rewrite safeEmail_string.
  unfold await at 1. unfold sync at 1. rewrite storageBasename_string.
  unfold await at 1. rewrite fetchStorageFile_outcome.
  destruct (storage_outcome "payment-receipts" (JStr p) w) as [w' [b|]]; cbn [fst snd].
  - cbn [ToString]. by rewrite <- (assoc_L (++)).
  - unfold await at 1. unfold sync at 1. cbn [ToString].
    subst folder. by rewrite <- !(assoc_L (++)).
Qed.

End OwnerNames.

(** C9, as it is stated, fails on the empty email: nothing is there to
    replace, and yet the result is not the empty string. *)
Lemma safeEmail_empty_is_unknown :
  safeEmail (JStr "" : JsVal exact_decimal) = Ok "unknown"
  /\ sanitized "" = ""
  /\ safeEmail (JStr "" : JsVal exact_decimal) <> Ok (sanitized "").
Proof. split; [reflexivity|]. split; [reflexivity|]. discriminate. Qed.

(** C9 on the receipt of the sample rows, which the storage serves. *)
Lemma safeEmail_sanitizes_witness :
  payments_loop sample_payments [] [] sample_world
  = (sample_world,
     Ok ([ZipFolder "payment_receipts/ada_at_example.org";
          ZipFile "payment_receipts/ada_at_example.org/r1.png"
            (Bytes "https://storage.test/payment-receipts/receipts/r1.png")],
         [])).
Proof.
  unfold sample_payments.
  assert (prop (number := exact_decimal)
            {[ "email" := JStr "ada@example.org"; "_file_path" := JStr "receipts/r1.png" ]}
            "email" = JStr "ada@example.org") as Hemail by reflexivity.
  assert (prop (number := exact_decimal)
            {[ "email" := JStr "ada@example.org"; "_file_path" := JStr "receipts/r1.png" ]}
            "_file_path" = JStr "receipts/r1.png") as Hpath by reflexivity.
  rewrite (proj2 (proj2 (proj2
             (safeEmail_sanitizes (number := exact_decimal) (world := list jsstring)
                "ada@example.org" "receipts/r1.png")))
             _ [] [] [] sample_world Hemail Hpath).
  reflexivity.
Defined.

Example safeEmail_example :
  safeEmail (JStr "john.doe@example.com" : JsVal exact_decimal)
  = Ok "john.doe_at_example.com"
  /\ safeEmail (JStr "j o/e+x@d.org" : JsVal exact_decimal) = Ok "j_o_e+x_at_d.org"
  /\ zipFilename (JStr "john.doe@example.com" : JsVal exact_decimal)
       (JStr "abstracts/uuid-my_abstract.pdf")
     = Ok "john.doe_at_example.com_uuid-my_abstract.pdf".
Proof. repeat split; vm_compute; reflexivity. Qed.

(** ** [JSON.parse]: the lexer never runs out of fuel *)

Lemma lex_string_shorter_bounded (n : nat) :
  forall cs s rest,
    length cs <= n -> lex_string cs = Some (s, rest) -> length rest < length cs.
Proof.
  induction n as [|n IH]; intros [|c r] s rest Hle; cbn [lex_string length] in *;
    try done; try lia.
  destruct (c =? 34)%N; [intros [= _ <-]; lia|].
  destruct (c =? 92)%N.
  - destruct r as [|e r1]; [done|].
    destruct (e =? 117)%N.
    + destruct r1 as [|h1 [|h2 [|h3 [|h4 r2]]]]; try done.
      destruct (hex_value h1), (hex_value h2), (hex_value h3), (hex_value h4); try done.
      destruct (lex_string r2) as [[s' rest']|] eqn:Hrec; [|done].
      intros [= _ <-]. cbn [length] in *.
      pose proof (IH r2 s' rest' ltac:(lia) Hrec). lia.
    + destruct (escape_char e); [|done].
      destruct (lex_string r1) as [[s' rest']|] eqn:Hrec; [|done].
      intros [= _ <-]. cbn [length] in *.
      pose proof (IH r1 s' rest' ltac:(lia) Hrec). lia.
  - destruct (c <? 32)%N; [done|].
    destruct (lex_string r) as [[s' rest']|] eqn:Hrec; [|done].
    intros [= _ <-].
    pose proof (IH r s' rest' ltac:(lia) Hrec). lia.
Qed.

Lemma lex_string_shorter cs s rest :
  lex_string cs = Some (s, rest) -> length rest < length cs.
Proof. by apply (lex_string_shorter_bounded (length cs)). Qed.

Lemma lex_digits_shorter cs : forall acc v n rest,
  lex_digits acc cs = (v, n, rest) -> length rest + n = length cs.
Proof.
  induction cs as [|c r IH]; intros acc v n rest; cbn [lex_digits].
  - by intros [= <- <- <-].
  - destruct (is_digit c).
    + destruct (lex_digits _ r) as [[v' n'] rest'] eqn:Hrec.
      intros [= <- <- <-]. apply IH in Hrec. cbn [length]. lia.
    + intros [= <- <- <-]. cbn [length]. lia.
Qed.

Lemma lex_int_shorter cs v rest :
  lex_int cs = Some (v, rest) -> length rest < length cs.
Proof.
  destruct cs as [|c r]; [done|]. cbn [lex_int].
  destruct (c =? 48)%N; [intros [= _ <-]; cbn [length]; lia|].
  destruct (is_digit c) eqn:Hc; [|done].
  destruct (lex_digits 0 (c :: r)) as [[v' n] rest'] eqn:Hd.
  intros [= _ <-]. pose proof (lex_digits_shorter _ _ _ _ _ Hd) as Hlen.
  cbn [lex_digits] in Hd. rewrite Hc in Hd.
  destruct (lex_digits _ r) as [[? ?] ?]. injection Hd as _ <- _. lia.
Qed.

Lemma lex_frac_shorter iv cs v n rest :
  lex_frac iv cs = Some (v, n, rest) -> length rest <= length cs.
Proof.
  destruct cs as [|c r]; [by intros [= _ _ <-]|]. cbn [lex_frac].
  destruct (c =? 46)%N; [|by intros [= _ _ <-]].
  destruct (lex_digits iv r) as [[v' n'] rest'] eqn:Hd. apply lex_digits_shorter in Hd.
  destruct n'; [done|]. intros [= _ _ <-]. cbn [length]. lia.
Qed.

Lemma lex_exp_shorter cs e rest :
  lex_exp cs = Some (e, rest) -> length rest <= length cs.
Proof.
  destruct cs as [|c r]; [by intros [= _ <-]|]. cbn [lex_exp].
  destruct ((c =? 101) || (c =? 69))%N; [|by intros [= _ <-]].
  destruct (lex_exp_sign r) as [eneg r1] eqn:Hsign.
  assert (length r1 <= length r).
  { destruct r as [|s r']; [by injection Hsign as _ <-|]. cbn [lex_exp_sign] in Hsign.
    destruct (s =? 43)%N; [injection Hsign as _ <-; cbn [length]; lia|].
    destruct (s =? 45)%N; injection Hsign as _ <-; cbn [length]; lia. }
  destruct (lex_digits 0 r1) as [[ev n] rest'] eqn:Hd. apply lex_digits_shorter in Hd.
  destruct n; [done|]. intros [= _ <-]. cbn [length]. lia.
Qed.

Lemma lex_number_shorter cs t rest :
  lex_number cs = Some (t, rest) -> length rest < length cs.
Proof.
  unfold lex_number.
  assert (exists neg cs1, length cs1 <= length cs /\
            match cs with
            | c :: r => if (c =? 45)%N then (true, r) else (false, cs)
            | [] => (false, cs)
            end = (neg, cs1)) as (neg & cs1 & Hcs1 & ->).
  { destruct cs as [|c r]; [by exists false, []|].
    destruct (c =? 45)%N; [exists true, r; cbn [length]; split; [lia|done]|].
    by exists false, (c :: r). }
  destruct (lex_int cs1) as [[iv cs2]|] eqn:Hint; [|done]. cbn [mbind option_bind].
  destruct (lex_frac iv cs2) as [[[m fl] cs3]|] eqn:Hfrac; [|done]. cbn [mbind option_bind].
  destruct (lex_exp cs3) as [[e rest']|] eqn:Hexp; [|done]. cbn [mbind option_bind].
  intros [= _ <-].
  apply lex_int_shorter in Hint. apply lex_frac_shorter in Hfrac.
  apply lex_exp_shorter in Hexp. lia.
Qed.

Lemma strip_prefix_shorter p cs rest :
  strip_prefix p cs = Some rest -> length rest + length p = length cs.
Proof.
  revert cs. induction p as [|x p IH]; intros [|c cs]; cbn [strip_prefix length];
    try done; try (intros [= <-]; cbn [length]; lia).
  destruct (x =? c)%N; [|done]. intros Hrec%IH. lia.
Qed.

Lemma next_token_shorter cs t rest :
  next_token cs = Some (t, rest) -> length rest < length cs.
Proof.
  destruct cs as [|c r]; [done|]. cbn [next_token].
  repeat (match goal with
          | |- (if ?b then _ else _) = _ -> _ => destruct b eqn:?
          end; [try (intros [= _ <-]; cbn [length]; lia)|]); try done.
  - destruct (lex_string r) as [[s rest']|] eqn:Hs; [|done].
    intros [= _ <-]. apply lex_string_shorter in Hs. cbn [length]. lia.
  - apply lex_number_shorter.
  - destruct (strip_prefix _ _) as [rest'|] eqn:Hp; [|done].
    intros [= _ <-]. apply strip_prefix_shorter in Hp. cbn [length] in *. lia.
  - destruct (strip_prefix _ _) as [rest'|] eqn:Hp; [|done].
    intros [= _ <-]. apply strip_prefix_shorter in Hp. cbn [length] in *. lia.
  - destruct (strip_prefix _ _) as [rest'|] eqn:Hp; [|done].
    intros [= _ <-]. apply strip_prefix_shorter in Hp. cbn [length] in *. lia.
Qed.

Lemma lex_fuel_enough (fuel : nat) :
  forall cs, length cs < fuel -> lex fuel cs <> OutOfFuel.
Proof.
  induction fuel as [|fuel IH]; intros cs Hlen; [lia|].
  destruct cs as [|c r]; [done|]. cbn [lex].
  destruct (is_json_space c).
  - apply IH. cbn [length] in Hlen. lia.
  - destruct (next_token (c :: r)) as [[t rest]|] eqn:Htok; [|done].
    apply next_token_shorter in Htok.
    pose proof (IH rest ltac:(lia)) as Hrest.
    by destruct (lex fuel rest).
Qed.

(** Every text is tokenised or refused: the fuel is never what ends the
    lexer. *)
Lemma tokenize_fuel (cs : jsstring) : tokenize cs <> OutOfFuel.
Proof. apply lex_fuel_enough. lia. Qed.

Example JSON_parse_examples :
  JSON_parse "42" = Ok (JNum forty_two)
  /\ (ToString <$> JSON_parse (number := exact_decimal) "[1, 2.50, -0, 1e21, null, true]")
     = Ok "1,2.5,0,1e+21,,true"
  /\ JSON_parse (number := exact_decimal) "{not json" = Throw SyntaxError
  /\ JSON_parse (number := exact_decimal) "[oops" = Throw SyntaxError
  /\ JSON_parse (number := exact_decimal) "[1,]" = Throw SyntaxError
  /\ JSON_parse (number := exact_decimal) "01" = Throw SyntaxError
  /\ JSON_parse (number := exact_decimal) "" = Throw SyntaxError
  /\ JSON_parse (number := exact_decimal) (quoted "aA\n") = Ok (JStr [97; 65; 10]%N)
  /\ JSON_parse (number := exact_decimal)
       ("{" ++ quoted "k" ++ ":1," ++ quoted "k" ++ ": [] }")
     = Ok (JObj {[ "k" := JArr [] ]}).
Proof. repeat split; vm_compute; reflexivity. Qed.

(** ** Keywords (transform.js) *)

Section Keywords.
Context {number : Type} `{!JsNumber number}.

Lemma normaliseKeywords_string_tier (s : jsstring) :
  normaliseKeywords (JStr s : JsVal number)
  = Ok (if first_char_is ch_lbracket (trim s) then
          match JSON_parse (number := number) (trim s) with
          | Ok (JArr elems) => JStr (array_join ", " elems)
          | _ => JStr s
          end
        else JStr s).
Proof.
  unfold normaliseKeywords. cbn [not_nullish negb isArray typeof call_trim].
  rewrite bind_Ok. destruct (first_char_is ch_lbracket (trim s)); [|done].
  destruct (JSON_parse (trim s)) as [v|e]; [|done].
  rewrite bind_Ok. by destruct v.
Qed.

(** [normaliseKeywords] never throws and always gives a string. *)
Lemma normaliseKeywords_returns_string (kw : JsVal number) :
  exists s, normaliseKeywords kw = Ok (JStr s).
Proof.
  destruct kw as [| |b|n|s|elems|o]; try (by eexists).
  rewrite normaliseKeywords_string_tier.
  destruct (first_char_is _ _); [|by eexists].
  destruct (JSON_parse (trim s)) as [[]|]; by eexists.
Qed.


End Keywords.


Example normaliseKeywords_example :
  normaliseKeywords (JStr "  [1, null, [2, 3]] " : JsVal exact_decimal) = Ok (JStr "1, , 2,3")
  /\ normaliseKeywords (JStr "  [a, b]" : JsVal exact_decimal) = Ok (JStr "  [a, b]")
  /\ normaliseKeywords (JStr ("{" ++ quoted "a" ++ ":1}") : JsVal exact_decimal)
     = Ok (JStr ("{" ++ quoted "a" ++ ":1}"))
  /\ normaliseKeywords (JNum forty_two) = Ok (JStr "42")
  /\ normaliseKeywords (JBool false : JsVal exact_decimal) = Ok (JStr "false").
Proof. repeat split; vm_compute; reflexivity. Qed.

(** ** Organizers (transform.js) *)

Section Organizers.
Context {number : Type} `{!JsNumber number}.

Lemma organizer_field_string (parsed : JsVal number) (k : jsstring) :
  organizer_field parsed k = Ok (JStr (parsed_subfield parsed k)).
Proof.
  unfold organizer_field, parsed_subfield, subfield_of.
  destruct parsed as [| |b|n|s| |o]; cbn [truthy get]; try done.
  - by destruct b.
  - by destruct (negb _).
  - by destruct s.
  - rewrite !bind_Ok. unfold prop. by destruct (o !! k) as [[]|].
Qed.

Lemma flatten_loop_fields (parsed : JsVal number) (prefix : jsstring) :
  flattens_to (flatten_loop parsed prefix ORGANIZER_FIELDS ∅) prefix (parsed_subfield parsed).
Proof.
  unfold ORGANIZER_FIELDS. cbn [flatten_loop].
  rewrite !organizer_field_string, !bind_Ok.
  eexists. split; [reflexivity|]. split; [|split].
  - rewrite !dom_insert_L, dom_empty_L. apply set_eq. intros x.
    rewrite !elem_of_union, !elem_of_singleton, elem_of_empty. tauto.
  - rewrite !map_size_insert_None, map_size_empty; [done|..];
      rewrite ?lookup_insert_ne by key_ne; apply lookup_empty.
  - each_element;
      rewrite ?lookup_insert_ne by key_ne; apply lookup_insert_eq.
Qed.

Lemma flattens_to_ext r prefix (sub sub' : jsstring -> jsstring) :
  Forall (fun k => sub k = sub' k) ORGANIZER_FIELDS ->
  flattens_to (number := number) r prefix sub -> flattens_to r prefix sub'.
Proof.
  intros Hsub (out & Hr & Hdom & Hsize & Hfields).
  exists out. repeat (split; [done|]).
  rewrite Forall_forall in Hsub, Hfields. apply Forall_forall. intros k Hk.
  rewrite <- (Hsub k Hk). by apply Hfields.
Qed.

(** Whatever the blob is, the result is the five keys, read from
    [parsed_blob]. *)
Lemma flattenOrganizer_flattens (blob : JsVal number) (prefix : jsstring) :
  flattens_to (flattenOrganizer blob prefix) prefix (parsed_subfield (parsed_blob blob)).
Proof.
  assert (flattenOrganizer blob prefix
          = flatten_loop (parsed_blob blob) prefix ORGANIZER_FIELDS ∅) as ->.
  { unfold flattenOrganizer, parsed_blob.
    destruct blob as [| |b|n|s|l|o]; cbn [not_nullish typeof call_trim]; try done.
    rewrite bind_Ok.
    destruct (trim s) as [|c t] eqn:Htrim; [done|]. cbn [length Nat.ltb Nat.leb].
    by destruct (JSON_parse (c :: t)). }
  apply flatten_loop_fields.
Qed.

Lemma flattens_to_defined r prefix sub :
  flattens_to r prefix sub ->
  exists out : JsObject number,
    r = Ok out
    /\ dom out = {[ prefix ++ "_email"; prefix ++ "_country"; prefix ++ "_lastName";
                    prefix ++ "_firstName"; prefix ++ "_affiliation" ]}
    /\ map_Forall (fun _ v => defined v) out.
Proof.
  intros (out & Hr & Hdom & _ & Hfields). exists out. split; [done|]. split; [done|].
  intros k v Hk. assert (k ∈ dom out) as Hin by (apply elem_of_dom; eauto).
  rewrite Hdom in Hin. rewrite Forall_forall in Hfields.
  assert (exists f, f ∈ ORGANIZER_FIELDS /\ k = prefix ++ "_" ++ f) as (f & Hf & ->).
  { unfold ORGANIZER_FIELDS.
    rewrite !elem_of_union, !elem_of_singleton in Hin.
    destruct Hin as [[[[-> | ->] | ->] | ->] | ->]; eexists; (split; [|reflexivity]);
      apply list_elem_of_In; simpl; tauto. }
  rewrite (Hfields f Hf) in Hk. by injection Hk as <-.
Qed.

End Organizers.

Section OrganizerForms.
Context {number : Type} `{!JsNumber number}.


(** C10.  For every prefix, [flattenOrganizer] also gives the five keys,
    all empty and with no throw, for a string whose trimmed text is valid
    JSON but no object (a number, a quoted string, an array, a boolean,
    [null]), for a string that decodes to an object without any of the
    five sub-fields, for a string of white space only, and for a blob that
    is a number, a boolean or an array. *)
Theorem flattenOrganizer_other_forms (prefix : jsstring) :
  (forall (s : jsstring) (v : JsVal number),
     JSON_parse (trim s) = Ok v -> (forall o, v <> JObj o) ->
     flattens_to (flattenOrganizer (JStr s) prefix) prefix no_subfield)
  /\ (forall (s : jsstring) (o : JsObject number),
        JSON_parse (trim s) = Ok (JObj o) ->
        Forall (fun k => o !! k = None) ORGANIZER_FIELDS ->
        flattens_to (flattenOrganizer (JStr s) prefix) prefix no_subfield)
  /\ (forall s : jsstring,
        trim s = [] ->
        flattens_to (flattenOrganizer (JStr s : JsVal number) prefix) prefix no_subfield)
  /\ (forall n : number,
        flattens_to (flattenOrganizer (JNum n) prefix) prefix no_subfield)
  /\ (forall b : bool,
        flattens_to (flattenOrganizer (JBool b : JsVal number) prefix) prefix no_subfield)
  /\ (forall elems : list (JsVal number),
        flattens_to (flattenOrganizer (JArr elems) prefix) prefix no_subfield)
  /\ Forall (fun s =>
       (organizer_values "p" <$> flattenOrganizer (JStr s : JsVal exact_decimal) "p")
       = Ok [Some (JStr ""); Some (JStr ""); Some (JStr ""); Some (JStr "");
             Some (JStr "")])
     ["42"; quoted "email"; "[1, 2]"; "true"; "null"; "   "; "{}"].
Proof.
  split; [|split; [|split; [|split; [|split; [|split]]]]].
  - intros s v Hparse Hv. pose proof (flattenOrganizer_flattens (JStr s) prefix) as Hflat.
    unfold parsed_blob in Hflat. rewrite Hparse in Hflat.
    destruct (trim s); [done|].
    destruct v; try done. by destruct (Hv props).
  - intros s o Hparse Ho. pose proof (flattenOrganizer_flattens (JStr s) prefix) as Hflat.
    unfold parsed_blob in Hflat. rewrite Hparse in Hflat.
    destruct (trim s); [done|].
    eapply flattens_to_ext; [|exact Hflat].
    eapply Forall_impl; [exact Ho|]. intros k Hk.
    unfold parsed_subfield, subfield_of, no_subfield. by rewrite Hk.
  - intros s Htrim. pose proof (flattenOrganizer_flattens (JStr s) prefix) as Hflat.
    unfold parsed_blob in Hflat. by rewrite Htrim in Hflat.
  - intros n. apply (flattenOrganizer_flattens (JNum n)).
  - intros b. apply (flattenOrganizer_flattens (JBool b)).
  - intros elems. apply (flattenOrganizer_flattens (JArr elems)).
  - each_element; vm_compute; reflexivity.
Qed.

End OrganizerForms.


(** C10 on a text that is valid JSON and no object. *)
Lemma flattenOrganizer_other_forms_witness :
  flattens_to (flattenOrganizer (JStr " 42 " : JsVal exact_decimal) "organizer_primary")
    "organizer_primary" no_subfield.
Proof.
  apply (proj1 (flattenOrganizer_other_forms (number := exact_decimal) "organizer_primary")
           " 42 " (JNum forty_two)).
  - reflexivity.
  - discriminate.
Defined.

Example flattenOrganizer_example :
  flattenOrganizer
    (JStr ("  {" ++ quoted "firstName" ++ ":" ++ quoted "Ada" ++ ","
             ++ quoted "email" ++ ": null," ++ quoted "country" ++ ": 30} ")
       : JsVal exact_decimal)
    "organizer_primary"
  = Ok {[ "organizer_primary_affiliation" := JStr "";
          "organizer_primary_firstName" := JStr "Ada";
          "organizer_primary_lastName" := JStr "";
          "organizer_primary_country" := JStr "30";
          "organizer_primary_email" := JStr "" ]}.
Proof. reflexivity. Qed.

(** ** Every declared key is present (transform.js, reg-transform.js) *)

Section DeclaredKeys.
Context {number : Type} `{!JsNumber number}.

Lemma has_columns_of_dom (cols : list ColumnDef) (row : JsObject number) :
  map_Forall (fun _ v => defined v) row ->
  Forall (fun c => key c ∈ dom row) cols ->
  has_columns cols row.
Proof.
  intros Hall Hkeys. unfold has_columns. eapply Forall_impl; [exact Hkeys|].
  intros c Hc. by apply lookup_of_dom.
Qed.

Lemma transformRow_columns (raw : JsObject number) :
  exists row, transformRow (JObj raw) = Ok row /\ has_columns DISPLAY_COLUMNS row.
Proof.
  unfold transformRow. run_gets.
  destruct (flattens_to_defined _ _ _
              (flattenOrganizer_flattens (prop raw "organizer_primary") "organizer_primary"))
    as (primary & -> & Hdom1 & Hall1).
  run_gets.
  destruct (flattens_to_defined _ _ _
              (flattenOrganizer_flattens (prop raw "organizer_secondary") "organizer_secondary"))
    as (secondary & -> & Hdom2 & Hall2).
  run_gets.
  destruct (flattens_to_defined _ _ _
              (flattenOrganizer_flattens (prop raw "organizer_tertiary") "organizer_tertiary"))
    as (tertiary & -> & Hdom3 & Hall3).
  run_gets.
  destruct (normaliseKeywords_returns_string (prop raw "session_keywords")) as [kws ->].
  run_gets.
  eexists. split; [reflexivity|].
  apply has_columns_of_dom; [all_values @or_else_defined @boolStr_defined|].
  rewrite !dom_insert_L, !dom_union_L, !dom_insert_L, dom_empty_L, Hdom1, Hdom2, Hdom3.
  unfold DISPLAY_COLUMNS. each_element; find_key.
Qed.

Lemma transformRegistration_columns (raw : JsObject number) :
  exists row,
    transformRegistration (JObj raw) = Ok row /\ has_columns REGISTRATION_COLUMNS row.
Proof.
  unfold transformRegistration, REGISTRATION_COLUMNS. run_gets. columns_of_literal @or_else_defined @boolStr_defined @has_columns_of_dom.
Qed.

Lemma transformAbstract_columns (raw : JsObject number) :
  path_or_nothing (prop raw "file_path") ->
  exists row, transformAbstract (JObj raw) = Ok row /\ has_columns ABSTRACT_COLUMNS row.
Proof.
  intros [label Hlabel]%has_file_of_defined.
  unfold transformAbstract, ABSTRACT_COLUMNS. run_gets. rewrite Hlabel. run_gets.
  columns_of_literal @or_else_defined @boolStr_defined @has_columns_of_dom.
Qed.

Lemma transformPayment_columns (raw : JsObject number) :
  path_or_nothing (prop raw "file_path") ->
  exists row, transformPayment (JObj raw) = Ok row /\ has_columns PAYMENT_COLUMNS row.
Proof.
  intros [label Hlabel]%has_file_of_defined.
  unfold transformPayment, PAYMENT_COLUMNS. run_gets. rewrite Hlabel. run_gets.
  columns_of_literal @or_else_defined @boolStr_defined @has_columns_of_dom.
Qed.


End DeclaredKeys.



Example transformRow_example :
  (fun row : JsObject exact_decimal =>
     (row !! "id", row !! "locale", row !! "organizer_secondary_email",
      row !! "session_keywords", row !! "status"))
  <$> transformRow
        (JObj {[ "id" := JNum forty_two;
                 "organizer_secondary" := JObj {[ "email" := JStr "o@x.org" ]};
                 "session_keywords" := JArr [JStr "karst"; JStr "caves"] ]})
  = Ok (Some (JNum forty_two), Some (JStr ""), Some (JStr "o@x.org"),
        Some (JStr "karst, caves"), Some (JStr "")).
Proof. vm_compute. reflexivity. Qed.

(** ** Batches (transform.js, reg-transform.js) *)

Lemma array_map_Forall2 {A B} (f : A -> result B) (rows : list A) (ys : list B) :
  array_map f rows = Ok ys <-> Forall2 (fun r y => f r = Ok y) rows ys.
Proof.
  revert ys. induction rows as [|r rows IH]; intros ys; cbn [array_map].
  - split; [by intros [= <-]; constructor | by inversion 1].
  - destruct (f r) as [y|e] eqn:Hfr; cbn [mbind result_bind].
    + destruct (array_map f rows) as [ys'|e] eqn:Hrec; cbn [mbind result_bind].
      * split.
        -- intros [= <-]. constructor; [done|]. by apply IH.
        -- inversion 1 as [|? y' ? ys'' Hy Hys]; subst.
           apply IH in Hys. congruence.
      * split; [done|]. inversion 1 as [|? y' ? ys'' Hy Hys]; subst.
        apply IH in Hys. congruence.
    + split; [done|]. inversion 1; congruence.
Qed.

Lemma array_map_returns {A B} (f : A -> result B) (rows : list A) :
  returns (array_map f rows) <-> Forall (fun r => returns (f r)) rows.
Proof.
  induction rows as [|r rows IH]; cbn [array_map].
  - split; [constructor | by eexists].
  - rewrite Forall_cons, <- IH. unfold returns.
    destruct (f r) as [y|e]; cbn [mbind result_bind].
    + destruct (array_map f rows) as [ys|e]; cbn [mbind result_bind].
      * split; [by eauto | by eexists].
      * split; [by intros [? ?] | by intros [_ [? ?]]].
    + split; [by intros [? ?] | by intros [[? ?] _]].
Qed.

Lemma array_map_maps_each {A B} (f : A -> result B) : maps_each f (array_map f).
Proof.
  intros rows. split; [|apply array_map_returns].
  intros out Hout%array_map_Forall2. split; [symmetry; by eapply Forall2_length|].
  intros i r Hr. destruct (Forall2_lookup_l _ _ _ _ _ Hout Hr) as (y & Hy & Hfy). eauto.
Qed.

Section Batches.
Context {number : Type} `{!JsNumber number}.

(** The loop of [transformRows] pushes what [map] would give. *)
Lemma transformRows_loop_map (rawRows : list (JsVal number)) :
  forall pushed,
    transformRows_loop rawRows pushed
    = (rows ← array_map transformRow rawRows; Ok (pushed ++ rows)).
Proof.
  induction rawRows as [|raw rawRows IH]; intros pushed; cbn [transformRows_loop array_map].
  - cbn [mbind result_bind]. by rewrite app_nil_r.
  - destruct (transformRow raw) as [row|e]; cbn [mbind result_bind]; [|done].
    rewrite IH. destruct (array_map transformRow rawRows); cbn [mbind result_bind]; [|done].
    by rewrite <- app_assoc.
Qed.

Lemma transformRows_map (rawRows : list (JsVal number)) :
  transformRows rawRows = array_map transformRow rawRows.
Proof.
  unfold transformRows. rewrite transformRows_loop_map.
  by destruct (array_map transformRow rawRows).
Qed.


End Batches.



Example transformRows_example :
  length <$> transformRows [JObj ∅; JObj ∅; JObj ∅ : JsVal exact_decimal] = Ok 3.
Proof. vm_compute. reflexivity. Qed.

(** ** The ZIP export (zip-export.js) *)

Section ZipExport.
Context {number world : Type} `{!JsNumber number} `{!Collaborators number world}.

Lemma safeEmail_owner (row : JsObject number) :
  attachment_row row -> safeEmail (prop row "email") = Ok (owner_name row).
Proof.
  intros [_ [Hfalsy | [e He]]]; unfold owner_name.
  - unfold safeEmail, or_else. rewrite Hfalsy.
    destruct (prop row "email") as [| | | |[|]| |]; try done.
  - rewrite He. apply safeEmail_string.
Qed.

Lemma fetch_each_length bucket rows w :
  length (fetch_each bucket rows w).2 = length rows.
Proof.
  revert w. induction rows as [|row rows IH]; intros w; [done|].
  cbn [fetch_each]. destruct (storage_outcome _ _ w) as [w1 b].
  specialize (IH w1). destruct (fetch_each bucket rows w1) as [w2 bs].
  cbn [snd length] in *. by rewrite IH.
Qed.

Lemma abstracts_loop_run (rows : list (JsObject number)) :
  Forall attachment_row rows ->
  forall zip failedFiles w,
    abstracts_loop rows zip failedFiles w
    = ((fetch_each "abstracts" rows w).1,
       Ok (zip ++ for_each abstract_call rows (fetch_each "abstracts" rows w).2,
           failedFiles ++ for_each abstract_failure rows (fetch_each "abstracts" rows w).2)).
Proof.
  induction 1 as [|row rows Hrow Hrows IH]; intros zip failedFiles w.
  - cbn. by rewrite !app_nil_r.
  - cbn [abstracts_loop fetch_each].
    pose proof (safeEmail_owner row Hrow) as Howner.
    destruct Hrow as [[p Hp] _].
    unfold zipFilename, stored_path in *. rewrite Howner, Hp in *.
    rewrite bind_Ok, storageBasename_string, bind_Ok.
    unfold await at 1. unfold sync at 1.
    unfold await at 1. rewrite fetchStorageFile_outcome.
    destruct (storage_outcome "abstracts" (JStr p) w) as [w1 b]. cbn [fst snd].
    rewrite (surjective_pairing (fetch_each "abstracts" rows w1)).
    cbn [fst snd for_each].
    destruct b as [b|]; rewrite IH; cbn [fst snd];
      unfold abstract_call, abstract_failure, stored_path; rewrite ?Hp; cbn [ToString];
      rewrite <- ?app_assoc; reflexivity.
Qed.

Lemma payments_loop_run (rows : list (JsObject number)) :
  Forall attachment_row rows ->
  forall zip failedFiles w,
    payments_loop rows zip failedFiles w
    = ((fetch_each "payment-receipts" rows w).1,
       Ok (zip ++ for_each payment_call rows (fetch_each "payment-receipts" rows w).2,
           failedFiles
             ++ for_each payment_failure rows (fetch_each "payment-receipts" rows w).2)).
Proof.
  induction 1 as [|row rows Hrow Hrows IH]; intros zip failedFiles w.
  - cbn. by rewrite !app_nil_r.
  - cbn [payments_loop fetch_each].
    pose proof (safeEmail_owner row Hrow) as Howner.
    destruct Hrow as [[p Hp] _].
    unfold stored_path in *. rewrite Howner, Hp in *.
    rewrite storageBasename_string.
    unfold await at 1. unfold sync at 1.
    unfold await at 1. unfold sync at 1.
    unfold await at 1. rewrite fetchStorageFile_outcome.
    destruct (storage_outcome "payment-receipts" (JStr p) w) as [w1 b]. cbn [fst snd].
    rewrite (surjective_pairing (fetch_each "payment-receipts" rows w1)).
    cbn [fst snd for_each].
    destruct b as [b|].
    + rewrite IH. cbn [fst snd].
      unfold payment_call, payment_failure, stored_path. rewrite ?Hp. cbn [ToString].
      rewrite <- ?app_assoc. reflexivity.
    + unfold await at 1. unfold sync at 1. rewrite IH. cbn [fst snd].
      unfold payment_call, payment_failure, stored_path. rewrite ?Hp. cbn [ToString].
      rewrite <- ?app_assoc. reflexivity.
Qed.

Lemma for_each_elem {A} (f : JsObject number -> option Buffer -> list A) rows fetched x :
  x ∈ for_each f rows fetched
  <-> exists i row b, rows !! i = Some row /\ fetched !! i = Some b /\ x ∈ f row b.
Proof.
  revert fetched. induction rows as [|row rows IH]; intros [|b fetched]; cbn [for_each].
  - split; [by intros ?%elem_of_nil | by intros (i & ? & ? & ? & _)].
  - split; [by intros ?%elem_of_nil | by intros (i & ? & ? & ? & _)].
  - split; [by intros ?%elem_of_nil | by intros (i & ? & ? & _ & ? & _)].
  - rewrite elem_of_app, IH. split.
    + intros [Hx | (i & row' & b' & Hrow & Hb & Hx)].
      * by exists 0, row, b.
      * by exists (S i), row', b'.
    + intros ([|i] & row' & b' & Hrow & Hb & Hx).
      * left. cbn in Hrow, Hb. by injection Hrow as <-; injection Hb as <-.
      * right. by exists i, row', b'.
Qed.

Lemma for_each_failures_nonempty (f : JsObject number -> option Buffer -> list jsstring)
    rows fetched :
  (forall row b, f row (Some b) = []) ->
  (forall row, f row None <> []) ->
  length fetched = length rows ->
  for_each f rows fetched <> [] <-> None ∈ fetched.
Proof.
  intros Hsome Hnone. revert fetched.
  induction rows as [|row rows IH]; intros [|b fetched] Hlen; try done.
  - split; [done | by intros ?%elem_of_nil].
  - cbn [for_each]. injection Hlen as Hlen. specialize (IH fetched Hlen).
    rewrite elem_of_cons. destruct b as [b|].
    + rewrite Hsome. cbn [app]. rewrite IH. split; [by right | by intros [|]].
    + split; [by left|]. intros _ Hnil. apply app_eq_nil in Hnil as [Hnil _].
      by apply (Hnone row).
Qed.

Lemma downloadZip_run registrations abstracts payments (w : world) :
  Forall attachment_row (withFiles abstracts) ->
  Forall attachment_row (withFiles payments) ->
  let fetched_abs := fetch_each "abstracts" (withFiles abstracts) w in
  let fetched_pay := fetch_each "payment-receipts" (withFiles payments) fetched_abs.1 in
  let failedFiles :=
    for_each abstract_failure (withFiles abstracts) fetched_abs.2
    ++ for_each payment_failure (withFiles payments) fetched_pay.2 in
  downloadZip registrations abstracts payments w
  = (fetched_pay.1,
     Ok ([ZipFile "conference_data.xlsx"
            (Bytes (workbook_bytes registrations abstracts payments))]
         ++ abstracts_folder (withFiles abstracts)
         ++ for_each abstract_call (withFiles abstracts) fetched_abs.2
         ++ for_each payment_call (withFiles payments) fetched_pay.2
         ++ manifest failedFiles,
         failedFiles)).
Proof.
  intros Habs Hpay fetched_abs fetched_pay failedFiles.
  unfold downloadZip.
  assert (forall zip,
    match withFiles abstracts with
    | [] => resolve (zip, [])
    | _ :: _ =>
        abstracts_loop (withFiles abstracts) (zip ++ [ZipFolder "abstracts"]) []
    end w
    = (fetched_abs.1,
       Ok (zip ++ abstracts_folder (withFiles abstracts)
             ++ for_each abstract_call (withFiles abstracts) fetched_abs.2,
           for_each abstract_failure (withFiles abstracts) fetched_abs.2))) as Hfirst.
  { intros zip. subst fetched_abs. destruct (withFiles abstracts) as [|row rows] eqn:Hrows.
    - cbn. by rewrite app_nil_r.
    - rewrite abstracts_loop_run by done. cbn [abstracts_folder app].
      by rewrite <- app_assoc. }
  assert (forall zip failed w1,
    match withFiles payments with
    | [] => resolve (zip, failed)
    | _ :: _ => payments_loop (withFiles payments) zip failed
    end w1
    = ((fetch_each "payment-receipts" (withFiles payments) w1).1,
       Ok (zip ++ for_each payment_call (withFiles payments)
                    (fetch_each "payment-receipts" (withFiles payments) w1).2,
           failed ++ for_each payment_failure (withFiles payments)
                       (fetch_each "payment-receipts" (withFiles payments) w1).2))) as Hsecond.
  { intros zip failed w1. destruct (withFiles payments) as [|row rows] eqn:Hrows.
    - cbn. by rewrite !app_nil_r.
    - by rewrite payments_loop_run. }
  unfold await at 1. rewrite Hfirst.
  unfold await at 1. rewrite Hsecond.
  fold fetched_pay. cbn [app]. fold failedFiles.
  unfold manifest. destruct failedFiles; unfold resolve; rewrite <- ?app_assoc;
    cbn [app]; by rewrite ?app_nil_r.
Qed.

Lemma fetchStorageFile_causes (bucket : jsstring) (filePath : JsVal number) (w : world) :
  (forall w1 e,
     createSignedUrl bucket filePath w = (w1, Throw e) ->
     fetchStorageFile bucket filePath w = (w1, Ok None))
  /\ (forall w1 signed,
        createSignedUrl bucket filePath w = (w1, Ok signed) ->
        (forall message,
           signed_error signed = Some message ->
           fetchStorageFile bucket filePath w = (w1, Ok None))
        /\ (forall url w2 e,
              signed_error signed = None -> signed_data signed = Some url ->
              fetch url w1 = (w2, Throw e) ->
              fetchStorageFile bucket filePath w = (w2, Ok None))
        /\ (forall url w2 response,
              signed_error signed = None -> signed_data signed = Some url ->
              fetch url w1 = (w2, Ok response) ->
              fetchStorageFile bucket filePath w
              = (w2, Ok (if response_ok response then
                           match response_arrayBuffer response with
                           | Ok b => Some b
                           | Throw _ => None
                           end
                         else None)))).
Proof.
  rewrite fetchStorageFile_outcome. unfold storage_outcome. split.
  - by intros w1 e ->.
  - intros w1 signed ->. split; [|split].
    + by intros message ->.
    + intros url w2 e -> -> ->. done.
    + intros url w2 response -> -> ->.
      destruct (response_ok response); [|done].
      by destruct (response_arrayBuffer response).
Qed.


End ZipExport.


(* ===================================================================== *)
(** * Further properties                                                  *)
(* ===================================================================== *)

(** ** Labels and basenames (reg-transform.js, zip-export.js) *)

Lemma path_label_nonempty s : s <> [] -> path_label s <> [].
Proof. unfold path_label. by destruct (final_segment s). Qed.

Section LabelAndBasename.
Context {number : Type} `{!JsNumber number}.

(** X1.  [fileLabel] and [storageBasename] agree on every string, the
    empty one included: the name in the file badge is the name of the file
    in the archive.  On anything else [storageBasename] throws a
    [TypeError], where [fileLabel] gives the empty string for a falsy value
    and throws as well for a truthy one. *)
Theorem fileLabel_agrees_with_storageBasename (v : JsVal number) :
  match v with
  | JStr s => fileLabel v = storageBasename v
  | _ =>
      storageBasename v = Throw TypeError
      /\ fileLabel v = if truthy v then Throw TypeError else Ok (JStr "")
  end.
Proof.
  destruct v as [| |b|n|s| |]; try (split; reflexivity).
  - split; [reflexivity|]. by destruct b.
  - split; [reflexivity|]. unfold fileLabel. cbn [truthy].
    by destruct (negb (number_is_falsy n)).
  - destruct s as [|c s]; [reflexivity|].
    by rewrite fileLabel_string, storageBasename_string.
Qed.

End LabelAndBasename.

(** ** The fields of a submission row (transform.js) *)

Section SubmissionFields.
Context {number : Type} `{!JsNumber number}.

Lemma flattenOrganizer_literal (blob : JsVal number) (prefix : jsstring) :
  let sub := parsed_subfield (parsed_blob blob) in
  flattenOrganizer blob prefix
  = Ok (<[prefix ++ "_affiliation" := JStr (sub "affiliation")]>
         (<[prefix ++ "_firstName" := JStr (sub "firstName")]>
           (<[prefix ++ "_lastName" := JStr (sub "lastName")]>
             (<[prefix ++ "_country" := JStr (sub "country")]>
               (<[prefix ++ "_email" := JStr (sub "email")]> ∅))))).
Proof.
  intros sub.
  assert (flattenOrganizer blob prefix
          = flatten_loop (parsed_blob blob) prefix ORGANIZER_FIELDS ∅) as ->.
  { unfold flattenOrganizer, parsed_blob.
    destruct blob as [| |b|n|s|l|o]; cbn [not_nullish typeof call_trim]; try done.
    rewrite bind_Ok.
    destruct (trim s) as [|c t] eqn:Htrim; [done|]. cbn [length Nat.ltb Nat.leb].
    by destruct (JSON_parse (c :: t)). }
  unfold ORGANIZER_FIELDS. cbn [flatten_loop].
  by rewrite !organizer_field_string, !bind_Ok.
Qed.


(** The status of a row [transformRow] returns. *)
Lemma transformRow_fields_status (raw : JsObject number) :
  exists row,
    transformRow (JObj raw) = Ok row
    /\ row !! "status" = Some (or_else (prop raw "status") (JStr "")).
Proof.
  unfold transformRow. run_gets.
  rewrite !flattenOrganizer_literal. run_gets.
  destruct (normaliseKeywords_returns_string (prop raw "session_keywords")) as [kws ->].
  run_gets. eexists. split; reflexivity.
Qed.

End SubmissionFields.

(** ** The fields of an attachment row (reg-transform.js) *)

Section AttachmentFields.
Context {number : Type} `{!JsNumber number}.

Lemma has_file_of_returns (v label : JsVal number) :
  has_file_of v = Ok label ->
  exists s, label = JStr s /\ (s = [] <-> truthy (or_else v (JStr "")) = false).
Proof.
  intros Hlabel.
  destruct (decide (truthy v = false)) as [Hfalsy | Htruthy].
  - rewrite (has_file_of_falsy v Hfalsy) in Hlabel. injection Hlabel as <-.
    exists []. split; [done|]. unfold or_else. by rewrite Hfalsy.
  - destruct v as [| |b|n|s| |]; try done.
    + destruct b; done.
    + unfold has_file_of, fileLabel in Hlabel. cbn [truthy] in *.
      by destruct (negb (number_is_falsy n)).
    + destruct s as [|c s]; [done|].
      rewrite has_file_of_string in Hlabel by done. injection Hlabel as <-.
      eexists. split; [reflexivity|]. split; [|done].
      by intros ?%path_label_nonempty.
Qed.

(** X3.  For every raw abstract or payment receipt whose [file_path] is
    missing, falsy or a string, the normalizer returns a record with
    exactly its thirteen (abstract) or seven (receipt) keys; every scalar
    field is the raw field when truthy and the empty string otherwise, the
    [notes] of an abstract among them although no column of the abstracts
    shows them; and [_file_path] is the raw [file_path], or the empty
    string. *)
Theorem attachment_records_fields (raw : JsObject number) :
  path_or_nothing (prop raw "file_path") ->
  (exists row,
     transformAbstract (JObj raw) = Ok row
     /\ (forall k, is_Some (row !! k) <-> k ∈ ABSTRACT_SCALARS ++ ["has_file"; "_file_path"])
     /\ Forall (fun k => row !! k = Some (or_else (prop raw k) (JStr ""))) ABSTRACT_SCALARS
     /\ row !! "_file_path" = Some (or_else (prop raw "file_path") (JStr ""))
     /\ Forall (fun c => key c <> "notes") ABSTRACT_COLUMNS)
  /\ (exists row,
        transformPayment (JObj raw) = Ok row
        /\ (forall k, is_Some (row !! k) <-> k ∈ PAYMENT_SCALARS ++ ["has_file"; "_file_path"])
        /\ Forall (fun k => row !! k = Some (or_else (prop raw k) (JStr ""))) PAYMENT_SCALARS
        /\ row !! "_file_path" = Some (or_else (prop raw "file_path") (JStr ""))).
Proof.
  intros [label Hlabel]%has_file_of_defined. split.
  - unfold transformAbstract. run_gets. rewrite Hlabel. run_gets.
    eexists. split; [reflexivity|].
    unfold list_to_map; cbn [foldr fst snd uncurry].
    split; [|split; [|split]].
    + intros k. split.
      * intros [v Hv]. unfold ABSTRACT_SCALARS. cbn [app]. key_of_lookup Hv.
      * unfold ABSTRACT_SCALARS. cbn [app]. rewrite <- elem_of_dom.
        rewrite !dom_insert_L, dom_empty_L. intros Hk.
        repeat (apply elem_of_cons in Hk as [->|Hk]; [find_key|]).
        by apply elem_of_nil in Hk.
    + unfold ABSTRACT_SCALARS. each_element; reflexivity.
    + reflexivity.
    + unfold ABSTRACT_COLUMNS. each_element; discriminate.
  - unfold transformPayment. run_gets. rewrite Hlabel. run_gets.
    eexists. split; [reflexivity|].
    unfold list_to_map; cbn [foldr fst snd uncurry].
    split; [|split].
    + intros k. split.
      * intros [v Hv]. unfold PAYMENT_SCALARS. cbn [app]. key_of_lookup Hv.
      * unfold PAYMENT_SCALARS. cbn [app]. rewrite <- elem_of_dom.
        rewrite !dom_insert_L, dom_empty_L. intros Hk.
        repeat (apply elem_of_cons in Hk as [->|Hk]; [find_key|]).
        by apply elem_of_nil in Hk.
    + unfold PAYMENT_SCALARS. each_element; reflexivity.
    + reflexivity.
Qed.

(** The label and the stored path of a row a normalizer returns. *)
Lemma attachment_row_file (single : JsVal number -> result (JsObject number))
    (raw row : JsObject number) :
  single = transformAbstract \/ single = transformPayment ->
  single (JObj raw) = Ok row ->
  exists label,
    has_file_of (prop raw "file_path") = Ok label
    /\ prop row "has_file" = label
    /\ row !! "has_file" = Some label
    /\ prop row "_file_path" = or_else (prop raw "file_path") (JStr "")
    /\ prop row "email" = or_else (prop raw "email") (JStr "").
Proof.
  intros [-> | ->].
  - unfold transformAbstract. run_gets.
    destruct (has_file_of (prop raw "file_path")) as [label|]; [|done]. run_gets.
    intros [= <-]. by exists label.
  - unfold transformPayment. run_gets.
    destruct (has_file_of (prop raw "file_path")) as [label|]; [|done]. run_gets.
    intros [= <-]. by exists label.
Qed.

(** X4.  In every row [transformAbstract] or [transformPayment] returns,
    [has_file] is a string, and it is non-empty exactly when [_file_path]
    is truthy: the rows that show a file badge are the rows whose file
    [downloadZip] fetches. *)
Theorem file_badge_iff_file_fetched (raw : JsObject number) :
  path_or_nothing (prop raw "file_path") ->
  Forall (fun single : JsVal number -> result (JsObject number) =>
    exists row label,
      single (JObj raw) = Ok row
      /\ row !! "has_file" = Some (JStr label)
      /\ (label <> [] <-> truthy (prop row "_file_path") = true)
      /\ (label <> [] <-> withFiles [row] = [row])
      /\ (label = [] <-> withFiles [row] = []))
    [transformAbstract; transformPayment].
Proof.
  intros Hpath.
  assert (forall single : JsVal number -> result (JsObject number),
            single = transformAbstract \/ single = transformPayment ->
            returns (single (JObj raw)) ->
            exists row label,
              single (JObj raw) = Ok row
              /\ row !! "has_file" = Some (JStr label)
              /\ (label <> [] <-> truthy (prop row "_file_path") = true)
              /\ (label <> [] <-> withFiles [row] = [row])
              /\ (label = [] <-> withFiles [row] = [])) as Hsingle.
  { intros single Hwhich [row Hrow].
    destruct (attachment_row_file single raw row Hwhich Hrow)
      as (label & Hlabel & _ & Hhas & Hfp & _).
    apply has_file_of_returns in Hlabel as (s & -> & Hs).
    exists row, s. split; [done|]. split; [done|].
    unfold withFiles. cbn [List.filter]. rewrite Hfp, Hs.
    by destruct (truthy (or_else (prop raw "file_path") (JStr ""))). }
  each_element; apply Hsingle; auto.
  - destruct (transformAbstract_columns raw Hpath) as (row & Hrow & _). by exists row.
  - destruct (transformPayment_columns raw Hpath) as (row & Hrow & _). by exists row.
Qed.

End AttachmentFields.

(** X3 on an abstract with notes: they are in the record. *)
Lemma attachment_records_fields_witness :
  exists row : JsObject exact_decimal,
    transformAbstract (JObj sample_raw_abstract) = Ok row
    /\ row !! "notes" = Some (JStr "late").
Proof.
  assert (path_or_nothing (prop sample_raw_abstract "file_path")) as Hpath.
  { right. exists "abstracts/u1-talk.pdf". vm_compute. reflexivity. }
  destruct (attachment_records_fields sample_raw_abstract Hpath)
    as [(row & Hrow & _ & Hscalars & _) _].
  exists row. split; [exact Hrow|].
  unfold ABSTRACT_SCALARS in Hscalars. rewrite Forall_forall in Hscalars.
  rewrite (Hscalars "notes"); [reflexivity|].
  apply list_elem_of_In. simpl. tauto.
Defined.

(** X4 on an abstract with a file: the badge is there, and the file is
    fetched. *)
Lemma file_badge_iff_file_fetched_witness :
  exists (row : JsObject exact_decimal) (label : jsstring),
    transformAbstract (JObj sample_raw_abstract) = Ok row
    /\ row !! "has_file" = Some (JStr label)
    /\ (label <> [] <-> withFiles [row] = [row]).
Proof.
  assert (path_or_nothing (prop sample_raw_abstract "file_path")) as Hpath.
  { right. exists "abstracts/u1-talk.pdf". vm_compute. reflexivity. }
  pose proof (file_badge_iff_file_fetched sample_raw_abstract Hpath) as Hboth.
  apply Forall_cons in Hboth as [(row & label & Hrow & Hlabel & _ & Hfetched & _) _].
  by exists row, label.
Defined.

(** ** Names in the archive (zip-export.js) *)

Lemma safe_char_no_separator c : is_safe_char c = true -> is_separator c = false.
Proof.
  unfold is_safe_char, is_separator. intros Hc.
  destruct (c =? 47)%N eqn:H47; [apply N.eqb_eq in H47; by subst c|].
  destruct (c =? 92)%N eqn:H92; [apply N.eqb_eq in H92; by subst c|]. done.
Qed.

Lemma final_segment_empty s :
  final_segment s = [] -> s = [] \/ exists c, last s = Some c /\ is_separator c = true.
Proof.
  intros Hseg. destruct (final_segment_is_final s) as [_ Hs]. rewrite Hseg in Hs.
  destruct Hs as [-> | (before & sep & Hsep & ->)]; [by left|].
  right. exists sep. by rewrite last_snoc.
Qed.

Lemma path_label_flat p :
  (forall c, last p = Some c -> is_separator c = false) ->
  Forall (fun c => is_separator c = false) (path_label p).
Proof.
  intros Hlast. unfold path_label.
  destruct (final_segment p) as [|c seg] eqn:Hseg.
  - apply final_segment_empty in Hseg as [-> | (c & Hc & Hsep)]; [done|].
    by rewrite (Hlast c Hc) in Hsep.
  - rewrite <- Hseg. by destruct (final_segment_is_final p).
Qed.

Lemma path_label_trailing p c :
  last p = Some c -> is_separator c = true -> path_label p = p.
Proof.
  intros Hlast Hsep. unfold path_label.
  destruct (final_segment p) as [|c' seg] eqn:Hseg; [done|].
  destruct (final_segment_is_final p) as [Hflat Hp]. rewrite Hseg in Hflat, Hp.
  assert (c ∈ c' :: seg) as Hin.
  { apply last_Some_elem_of.
    destruct Hp as [-> | (before & sep & _ & ->)]; [done|].
    by rewrite last_app_cons, last_cons_cons in Hlast. }
  rewrite Forall_forall in Hflat. specialize (Hflat c Hin). congruence.
Qed.

Lemma sanitized_of_safe s :
  Forall (fun c => is_safe_char c = true) s -> sanitized s = s.
Proof.
  induction 1 as [|c s Hc _ IH]; [done|].
  unfold sanitized in *. cbn [flat_map]. rewrite IH. unfold sanitize_char. rewrite Hc.
  destruct (c =? ch_at)%N eqn:Hat; [|done].
  apply N.eqb_eq in Hat. by subst c.
Qed.

Lemma sanitized_nonempty s : s <> [] -> sanitized s <> [].
Proof.
  destruct s as [|c s]; [done|]. intros _. unfold sanitized. cbn [flat_map].
  unfold sanitize_char. destruct (c =? ch_at)%N; [done|]. by destruct (is_safe_char c).
Qed.

Lemma email_or_unknown_nonempty e : email_or_unknown e <> [].
Proof. by destruct e. Qed.

Section ArchiveNames.
Context {number : Type} `{!JsNumber number}.

(** X5.  When the stored path does not end in a slash or a backslash, the
    archive name of an abstract's file ([zipFilename]) and the name of a
    receipt inside its owner's folder ([storageBasename]) hold no slash and
    no backslash: the file lands directly in its folder.  When the path
    does end in one, both names keep the whole path, separators
    included. *)
Theorem archive_names_are_flat (email p : jsstring) :
  ((forall c, last p = Some c -> is_separator c = false) ->
     exists name base,
       zipFilename (JStr email : JsVal number) (JStr p) = Ok name
       /\ Forall (fun c => is_separator c = false) name
       /\ storageBasename (JStr p : JsVal number) = Ok (JStr base)
       /\ Forall (fun c => is_separator c = false) base)
  /\ (forall c, last p = Some c -> is_separator c = true ->
        zipFilename (JStr email : JsVal number) (JStr p)
        = Ok (sanitized (email_or_unknown email) ++ "_" ++ p)
        /\ storageBasename (JStr p : JsVal number) = Ok (JStr p)).
Proof.
  rewrite zipFilename_string, storageBasename_string. split.
  - intros Hlast. eexists _, _. split; [reflexivity|].
    pose proof (path_label_flat p Hlast) as Hflat.
    split; [|split; [reflexivity | exact Hflat]].
    apply Forall_app. split.
    + eapply Forall_impl; [apply sanitized_safe|]. apply safe_char_no_separator.
    + by apply Forall_cons.
  - intros c Hlast Hsep. by rewrite (path_label_trailing p c).
Qed.

(** X6.  Whatever [safeEmail] returns is a non-empty name of allowed
    characters only, and [safeEmail] leaves such a name as it is: applying
    it twice gives what applying it once gives. *)
Theorem safeEmail_idempotent (email : JsVal number) (name : jsstring) :
  safeEmail email = Ok name ->
  name <> []
  /\ Forall (fun c => is_safe_char c = true) name
  /\ safeEmail (JStr name : JsVal number) = Ok name.
Proof.
  assert (forall e : jsstring,
            sanitized (email_or_unknown e) <> []
            /\ Forall (fun c => is_safe_char c = true) (sanitized (email_or_unknown e))
            /\ safeEmail (JStr (sanitized (email_or_unknown e)) : JsVal number)
               = Ok (sanitized (email_or_unknown e))) as Hstring.
  { intros e.
    pose proof (sanitized_nonempty _ (email_or_unknown_nonempty e)) as Hne.
    split; [done|]. split; [apply sanitized_safe|].
    rewrite safeEmail_string.
    assert (email_or_unknown (sanitized (email_or_unknown e)) = sanitized (email_or_unknown e))
      as ->.
    { by destruct (sanitized (email_or_unknown e)). }
    f_equal. apply sanitized_of_safe, sanitized_safe. }
  intros Hname.
  destruct email as [| |b|n|e| |]; try done.
  - injection Hname as <-. apply (Hstring []).
  - injection Hname as <-. apply (Hstring []).
  - destruct b; [done|]. injection Hname as <-. apply (Hstring []).
  - unfold safeEmail, or_else in Hname. cbn [truthy] in Hname.
    destruct (negb (number_is_falsy n)); [done|].
    injection Hname as <-. apply (Hstring []).
  - rewrite safeEmail_string in Hname. injection Hname as <-. apply Hstring.
Qed.

End ArchiveNames.

(** X5 on the talk of the sample rows. *)
Lemma archive_names_are_flat_witness :
  exists name base : jsstring,
    zipFilename (JStr "ada@example.org" : JsVal exact_decimal) (JStr "abstracts/u1-talk.pdf")
    = Ok name
    /\ Forall (fun c => is_separator c = false) name
    /\ storageBasename (JStr "abstracts/u1-talk.pdf" : JsVal exact_decimal) = Ok (JStr base)
    /\ Forall (fun c => is_separator c = false) base.
Proof.
  apply (proj1 (archive_names_are_flat (number := exact_decimal)
                  "ada@example.org" "abstracts/u1-talk.pdf")).
  intros c Hlast. vm_compute in Hlast. injection Hlast as <-. reflexivity.
Defined.

(** X6 on an email address. *)
Lemma safeEmail_idempotent_witness :
  ("ada_at_example.org" : jsstring) <> []
  /\ Forall (fun c => is_safe_char c = true) ("ada_at_example.org" : jsstring)
  /\ safeEmail (JStr "ada_at_example.org" : JsVal exact_decimal) = Ok "ada_at_example.org".
Proof.
  apply (safeEmail_idempotent (JStr "ada@example.org" : JsVal exact_decimal)).
  vm_compute. reflexivity.
Defined.

(** ** The manifest, line by line (zip-export.js) *)

Lemma split_on_without sep s : sep ∉ s -> split_on sep s = [s].
Proof.
  induction s as [|c s IH]; [done|]. intros Hin.
  apply not_elem_of_cons in Hin as [Hc Hs]. cbn [split_on].
  destruct (c =? sep)%N eqn:Heq; [apply N.eqb_eq in Heq; by subst c|].
  by rewrite (IH Hs).
Qed.

Lemma split_on_line sep s t :
  sep ∉ s -> split_on sep (s ++ sep :: t) = s :: split_on sep t.
Proof.
  induction s as [|c s IH]; intros Hin.
  - cbn [app split_on]. by rewrite N.eqb_refl.
  - apply not_elem_of_cons in Hin as [Hc Hs]. cbn [app split_on].
    destruct (c =? sep)%N eqn:Heq; [apply N.eqb_eq in Heq; by subst c|].
    by rewrite (IH Hs).
Qed.

Lemma split_on_join sep (lines : list jsstring) :
  lines <> [] -> Forall (fun l => sep ∉ l) lines ->
  split_on sep (join_with [sep] lines) = lines.
Proof.
  intros Hne Hall. induction Hall as [|l lines Hl Hall IH]; [done|].
  destruct lines as [|l' lines].
  - cbn [join_with]. by apply split_on_without.
  - cbn [join_with app] in *. rewrite split_on_line by done. by rewrite IH.
Qed.

(** X7.  The text of [DOWNLOAD_ERRORS.txt] splits at its line ends into
    the heading, an empty line, and the failed paths, one per line and in
    the order the failures were recorded, provided no path holds a line
    end itself. *)
Theorem failure_note_lists_each_failure (failedFiles : list jsstring) :
  failedFiles <> [] ->
  Forall (fun path => ch_newline ∉ path) failedFiles ->
  split_on ch_newline (failure_note failedFiles)
  = failure_note_heading :: [] :: failedFiles.
Proof.
  intros Hne Hall. unfold failure_note. fold failure_note_heading.
  change ([10; 10]%N ++ ?t) with (ch_newline :: [] ++ ch_newline :: t).
  rewrite split_on_line.
  - f_equal. rewrite split_on_line by apply not_elem_of_nil. f_equal.
    by apply split_on_join.
  - apply (bool_decide_unpack _). vm_compute. exact I.
Qed.

(** X7 on two failures. *)
Lemma failure_note_lists_each_failure_witness :
  split_on ch_newline
    (failure_note ["abstracts/u2-poster.pdf"; "payment_receipts/ada/r1.png"])
  = [failure_note_heading; []; "abstracts/u2-poster.pdf"; "payment_receipts/ada/r1.png"].
Proof.
  apply failure_note_lists_each_failure; [discriminate|].
  apply Forall_cons. split; [apply (bool_decide_unpack _); vm_compute; exact I|].
  apply Forall_cons. split; [apply (bool_decide_unpack _); vm_compute; exact I|].
  apply Forall_nil_2.
Defined.

(** ** From the raw records to the archive (reg-transform.js, zip-export.js) *)

Section ExportAccounting.
Context {number world : Type} `{!JsNumber number} `{!Collaborators number world}.

Lemma or_else_string_or_falsy (v : JsVal number) :
  path_or_nothing v -> exists s, or_else v (JStr "") = JStr s.
Proof.
  intros [Hfalsy | [s ->]].
  - exists []. unfold or_else. by rewrite Hfalsy.
  - exists s. by destruct s.
Qed.

Lemma transformed_attachment_row (single : JsVal number -> result (JsObject number))
    (raw : JsVal number) (row : JsObject number) :
  single = transformAbstract \/ single = transformPayment ->
  typed_attachment raw ->
  single raw = Ok row ->
  attachment_row row.
Proof.
  intros Hwhich (o & -> & Hpath & Hemail) Hrow.
  apply or_else_string_or_falsy in Hpath as [p Hp], Hemail as [e He].
  destruct (attachment_row_file single o row Hwhich Hrow) as (_ & _ & _ & _ & Hrp & Hre).
  split.
  - exists p. by rewrite Hrp.
  - right. exists e. by rewrite Hre.
Qed.

Lemma withFiles_attachment_rows (rows : list (JsObject number)) :
  Forall attachment_row rows -> Forall attachment_row (withFiles rows).
Proof.
  intros Hrows. apply Forall_forall. intros row [Hrow _]%filter_elem_of.
  rewrite Forall_forall in Hrows. by apply Hrows.
Qed.

Lemma transformed_attachment_rows (single : JsVal number -> result (JsObject number))
    (raws : list (JsVal number)) (rows : list (JsObject number)) :
  single = transformAbstract \/ single = transformPayment ->
  Forall typed_attachment raws ->
  array_map single raws = Ok rows ->
  Forall attachment_row rows.
Proof.
  intros Hwhich Htyped Hrows. apply array_map_Forall2 in Hrows.
  induction Hrows as [|raw row raws rows Hrow _ IH]; [done|].
  apply Forall_cons in Htyped as [Hraw Htyped].
  apply Forall_cons. split; [by apply (transformed_attachment_row single raw) | by apply IH].
Qed.


Lemma for_each_abstracts_count (rows : list (JsObject number)) fetched :
  length fetched = length rows ->
  length (List.filter is_bytes_file (for_each abstract_call rows fetched))
  + length (for_each abstract_failure rows fetched) = length rows
  /\ List.filter is_folder (for_each abstract_call rows fetched) = [].
Proof.
  revert fetched. induction rows as [|row rows IH]; intros [|b fetched] Hlen; try done.
  injection Hlen as Hlen. destruct (IH fetched Hlen) as [IHn IHf].
  cbn [for_each]. destruct b as [b|]; cbn; rewrite ?IHf; split; try done; lia.
Qed.

Lemma for_each_payments_count (rows : list (JsObject number)) fetched :
  length fetched = length rows ->
  length (List.filter is_bytes_file (for_each payment_call rows fetched))
  + length (for_each payment_failure rows fetched) = length rows
  /\ length (List.filter is_folder (for_each payment_call rows fetched)) = length rows.
Proof.
  revert fetched. induction rows as [|row rows IH]; intros [|b fetched] Hlen; try done.
  injection Hlen as Hlen. destruct (IH fetched Hlen) as [IHn IHf].
  cbn [for_each]. destruct b as [b|]; cbn; rewrite ?IHf; split; try done; lia.
Qed.

Lemma filter_app_length {A} (p : A -> bool) (l1 l2 : list A) :
  length (List.filter p (l1 ++ l2)) = length (List.filter p l1) + length (List.filter p l2).
Proof. by rewrite List.filter_app, length_app. Qed.


End ExportAccounting.



(** ** Worksheets (zip-export.js, excel-export.js, reg-app.js) *)

Lemma map_is_fmap {A B} (f : A -> B) (l : list A) : map f l = f <$> l.
Proof. reflexivity. Qed.

Lemma capped_length (n cap : nat) : (if n <? cap then n else cap) = n `min` cap.
Proof. destruct (Nat.ltb_spec n cap); lia. Qed.

Lemma widened (m len : nat) : (if m <? len then len else m) = m `max` len.
Proof. destruct (Nat.ltb_spec m len); lia. Qed.

Lemma max_list_elem (l : list nat) : l = [] /\ max_list l = 0 \/ max_list l ∈ l.
Proof. destruct l as [|n l]; [by left|]. right. by apply max_list_elem_of. Qed.

Section Worksheets.
Context {number : Type} `{!JsNumber number}.

Lemma buildSheet_dataRow_map (row : JsObject number) cols :
  forall dataRow, buildSheet_dataRow row cols dataRow = dataRow ++ map (cell_of row) cols.
Proof.
  induction cols as [|c cols IH]; intros dataRow; cbn [buildSheet_dataRow map].
  - by rewrite app_nil_r.
  - by rewrite IH, <- app_assoc.
Qed.

Lemma buildSheet_wsData_map (rows : list (JsObject number)) cols :
  forall wsData,
    buildSheet_wsData rows cols wsData
    = wsData ++ map (fun row => map (cell_of row) cols) rows.
Proof.
  induction rows as [|row rows IH]; intros wsData; cbn [buildSheet_wsData map].
  - by rewrite app_nil_r.
  - by rewrite IH, buildSheet_dataRow_map, <- app_assoc.
Qed.

Lemma buildSheet_maxLen_max (col : ColumnDef) (rows : list (JsObject number)) :
  forall maxLen,
    buildSheet_maxLen col rows maxLen
    = maxLen `max` max_list (map (fun row => length (ToString (cell_of row col))
                                             `min` (if wrap col then 60 else 40)) rows).
Proof.
  induction rows as [|row rows IH]; intros maxLen; cbn [buildSheet_maxLen map max_list].
  - lia.
  - rewrite IH, capped_length, widened. unfold cell_of, id. by rewrite Nat.max_assoc.
Qed.

Lemma buildSheet_colWidths_map (rows : list (JsObject number)) cols :
  forall colWidths,
    buildSheet_colWidths cols rows colWidths = colWidths ++ map (column_width 60 rows) cols.
Proof.
  induction cols as [|c cols IH]; intros colWidths; cbn [buildSheet_colWidths map].
  - by rewrite app_nil_r.
  - by rewrite IH, buildSheet_maxLen_max, <- app_assoc.
Qed.

(** The loops of [buildSheet] come to two maps. *)
Lemma buildSheet_sheet (rows : list (JsObject number)) cols :
  buildSheet rows cols
  = {| ws_data := sheet_lines rows cols; ws_cols := map (column_width 60 rows) cols |}.
Proof.
  unfold buildSheet. by rewrite buildSheet_wsData_map, buildSheet_colWidths_map.
Qed.

Lemma cell_of_defined (row : JsObject number) c : defined (cell_of row c).
Proof. unfold cell_of. by destruct (prop row (key c)). Qed.

Lemma cell_of_column (row : JsObject number) cols c :
  has_columns cols row -> c ∈ cols -> row !! key c = Some (cell_of row c).
Proof.
  unfold has_columns. rewrite Forall_forall. intros Hcols Hc.
  destruct (Hcols c Hc) as (v & Hv & Hdef). unfold cell_of, prop. rewrite Hv. cbn.
  by destruct v, Hdef.
Qed.

Lemma cell_of_lookup (row : JsObject number) c v :
  row !! key c = Some v -> defined v -> cell_of row c = v.
Proof. intros Hv Hdef. unfold cell_of, prop. rewrite Hv. cbn. by destruct v, Hdef. Qed.



Lemma sheet_lines_ext (rows rows' : list (JsObject number)) cols :
  Forall2 (fun row row' => Forall (fun c => prop row (key c) = prop row' (key c)) cols)
    rows rows' ->
  sheet_lines rows cols = sheet_lines rows' cols
  /\ forall cap, map (column_width cap rows) cols = map (column_width cap rows') cols.
Proof.
  intros Hrows.
  assert (Forall2 (fun row row' => Forall (fun c => cell_of row c = cell_of row' c) cols)
            rows rows') as Hcells.
  { eapply Forall2_impl; [exact Hrows|]. intros row row' Hall.
    eapply Forall_impl; [exact Hall|]. intros c Hc. unfold cell_of. by rewrite Hc. }
  clear Hrows. split.
  - unfold sheet_lines. f_equal.
    induction Hcells as [|row row' rows rows' Hrow _ IH]; [done|].
    cbn [map]. f_equal; [|exact IH].
    apply map_ext_in. intros c Hc. rewrite Forall_forall in Hrow.
    apply Hrow. by apply list_elem_of_In.
  - intros cap. apply map_ext_in. intros c Hc%list_elem_of_In. unfold column_width.
    do 3 f_equal.
    induction Hcells as [|row row' rows rows' Hrow _ IH]; [done|].
    cbn [map]. f_equal; [|exact IH].
    rewrite Forall_forall in Hrow. by rewrite (Hrow c Hc).
Qed.

(** X12.  A sheet reads nothing of a row but the keys of its columns: rows
    that agree under every column's key give the same sheet, cells and
    widths.  So the [notes] of the abstracts, which [transformAbstract]
    carries along, never reach the Abstracts sheet: deleting them from
    every row leaves the sheet as it was. *)
Theorem sheets_read_declared_columns_only
    (rows rows' : list (JsObject number)) (cols : list ColumnDef) :
  (Forall2 (fun row row' => Forall (fun c => prop row (key c) = prop row' (key c)) cols)
     rows rows' ->
   buildSheet rows cols = buildSheet rows' cols)
  /\ buildSheet (delete "notes" <$> rows) (excelColumns ABSTRACT_COLUMNS)
     = buildSheet rows (excelColumns ABSTRACT_COLUMNS).
Proof.
  assert (Forall2 (fun row row' => Forall (fun c => prop row (key c) = prop row' (key c)) cols)
            rows rows' ->
          buildSheet rows cols = buildSheet rows' cols) as Hext.
  { intros Hrows. rewrite !buildSheet_sheet.
    destruct (sheet_lines_ext rows rows' cols Hrows) as [-> Hwidths]. by rewrite Hwidths. }
  split; [exact Hext|].
  rewrite !buildSheet_sheet.
  destruct (sheet_lines_ext (delete "notes" <$> rows) rows (excelColumns ABSTRACT_COLUMNS))
    as [-> Hwidths]; [|by rewrite Hwidths].
  apply Forall2_fmap_l, Forall_Forall2_diag, Forall_true. intros row.
  let cols := eval cbv in (excelColumns ABSTRACT_COLUMNS) in
  change (excelColumns ABSTRACT_COLUMNS) with cols.
  each_element; unfold prop; by rewrite lookup_delete_ne.
Qed.

Lemma exportExcel_wsData_map (abstracts : list (JsObject number)) cols :
  forall wsData,
    exportExcel_wsData abstracts cols wsData
    = wsData ++ map (fun row => map (cell_of row) cols) abstracts.
Proof.
  induction abstracts as [|row rows IH]; intros wsData; cbn [exportExcel_wsData map].
  - by rewrite app_nil_r.
  - by rewrite IH, <- app_assoc.
Qed.

Lemma exportExcel_maxLen_max (c : ColumnDef) (abstracts : list (JsObject number)) :
  forall maxLen,
    exportExcel_maxLen c abstracts maxLen
    = maxLen `max` max_list (map (fun row => length (ToString (cell_of row c))
                                             `min` (if wrap c then 60 else 40)) abstracts).
Proof.
  induction abstracts as [|row rows IH]; intros maxLen;
    cbn [exportExcel_maxLen map max_list].
  - lia.
  - rewrite IH, capped_length, widened. unfold cell_of, id. by rewrite Nat.max_assoc.
Qed.


Lemma downloadXlsx_header_map cols :
  forall header : list (JsVal number),
    downloadXlsx_header cols header = header ++ map (fun c => JStr (label c)) cols.
Proof.
  induction cols as [|c cols IH]; intros header; cbn [downloadXlsx_header map].
  - by rewrite app_nil_r.
  - by rewrite IH, <- app_assoc.
Qed.

Lemma downloadXlsx_dataRow_map (row : JsObject number) cols :
  forall dataRow, downloadXlsx_dataRow row cols dataRow = dataRow ++ map (cell_of row) cols.
Proof.
  induction cols as [|c cols IH]; intros dataRow; cbn [downloadXlsx_dataRow map].
  - by rewrite app_nil_r.
  - by rewrite IH, <- app_assoc.
Qed.

Lemma downloadXlsx_wsData_map (rows : list (JsObject number)) :
  forall wsData,
    downloadXlsx_wsData rows wsData
    = wsData ++ map (fun row => map (cell_of row) DISPLAY_COLUMNS) rows.
Proof.
  induction rows as [|row rows IH]; intros wsData; cbn [downloadXlsx_wsData map].
  - by rewrite app_nil_r.
  - by rewrite IH, downloadXlsx_dataRow_map, <- app_assoc.
Qed.

Lemma downloadXlsx_maxLen_max (col : ColumnDef) (rows : list (JsObject number)) :
  forall maxLen,
    downloadXlsx_maxLen col rows maxLen
    = maxLen `max` max_list (map (fun row => length (ToString (cell_of row col))
                                             `min` (if wrap col then 50 else 40)) rows).
Proof.
  induction rows as [|row rows IH]; intros maxLen; cbn [downloadXlsx_maxLen map max_list].
  - lia.
  - rewrite IH, capped_length, widened. unfold cell_of, id. by rewrite Nat.max_assoc.
Qed.

Lemma downloadXlsx_colWidths_map (rows : list (JsObject number)) cols :
  forall colWidths,
    downloadXlsx_colWidths cols rows colWidths
    = colWidths ++ map (column_width 50 rows) cols.
Proof.
  induction cols as [|c cols IH]; intros colWidths; cbn [downloadXlsx_colWidths map].
  - by rewrite app_nil_r.
  - by rewrite IH, downloadXlsx_maxLen_max, <- app_assoc.
Qed.

Lemma column_width_cap (cap cap' : nat) (rows : list (JsObject number)) c :
  cap <= cap' -> column_width cap rows c <= column_width cap' rows c.
Proof.
  intros Hcap. unfold column_width.
  assert (max_list (map (fun row => length (ToString (cell_of row c))
                                     `min` (if wrap c then cap else 40)) rows)
          <= max_list (map (fun row => length (ToString (cell_of row c))
                                        `min` (if wrap c then cap' else 40)) rows)); [|lia].
  induction rows as [|row rows IH]; [done|]. cbn [map max_list]. unfold id in *.
  destruct (wrap c); lia.
Qed.


Lemma lines_of_raw_records (single : JsVal number -> result (JsObject number))
    (line : JsObject number -> list (JsVal number)) (cols : list ColumnDef)
    (raws rows : list (JsObject number)) :
  (forall raw row, single (JObj raw) = Ok row -> map (cell_of row) cols = line raw) ->
  array_map single (JObj <$> raws) = Ok rows ->
  sheet_lines rows cols = header_of cols :: (line <$> raws).
Proof.
  intros Hline Hrows. unfold sheet_lines, header_of. rewrite !map_is_fmap. f_equal.
  apply array_map_Forall2 in Hrows. apply Forall2_fmap_l in Hrows.
  induction Hrows as [|raw row raws rows Hrow _ IH]; [done|].
  cbn [fmap list_fmap]. apply (f_equal2 cons); [|exact IH].
  by apply Hline.
Qed.


End Worksheets.

(** X12 on a row with notes and the same row without: one sheet. *)
Lemma sheets_read_declared_columns_only_witness :
  buildSheet [ {[ "id" := JStr "a1"; "notes" := JStr "late" ]} : JsObject exact_decimal ]
    [column "id" "ID"]
  = buildSheet [ {[ "id" := JStr "a1" ]} ] [column "id" "ID"].
Proof.
  apply (proj1 (sheets_read_declared_columns_only (number := exact_decimal)
                  [ {[ "id" := JStr "a1"; "notes" := JStr "late" ]} ]
                  [ {[ "id" := JStr "a1" ]} ] [column "id" "ID"])).
  apply Forall2_cons. split; [|apply Forall2_nil; reflexivity].
  apply Forall_cons. split; [|apply Forall_nil_2]. vm_compute. reflexivity.
Defined.


(** ** Time stamps in file names (zip-export.js, reg-app.js) *)

Lemma plain_map (s : jsstring) :
  Forall plain_char s ->
  map (fun c => if ((c =? 58) || (c =? 46))%N then 45%N else c) s = s.
Proof.
  induction 1 as [|c s [Hcolon Hstop] _ IH]; [done|]. cbn [map]. rewrite IH.
  apply N.eqb_neq in Hcolon, Hstop. by rewrite Hcolon, Hstop.
Qed.

(** X16.  The time stamp the export files are named with holds no colon
    and no full stop and is at most 19 characters long, whatever text it
    is cut from; and cut from an ISO text, a date of ten characters, [T],
    and hours, minutes and seconds of two characters each followed by
    anything, it is the date, [T], and the three numbers joined by
    hyphens. *)
Theorem timestamp_of_iso_text (iso date hh mm ss rest : jsstring) :
  (length (timestamp iso) <= 19 /\ Forall plain_char (timestamp iso))
  /\ (length date = 10 -> length hh = 2 -> length mm = 2 -> length ss = 2 ->
      Forall plain_char (date ++ hh ++ mm ++ ss) ->
      timestamp (date ++ "T" ++ hh ++ ":" ++ mm ++ ":" ++ ss ++ rest)
      = date ++ "T" ++ hh ++ "-" ++ mm ++ "-" ++ ss).
Proof.
  split.
  - unfold timestamp. split; [rewrite length_take; lia|].
    apply Forall_take. rewrite map_is_fmap. apply Forall_fmap, Forall_true. intros c. cbn.
    unfold plain_char.
    destruct (c =? 58)%N eqn:Hcolon; [done|].
    destruct (c =? 46)%N eqn:Hstop; [done|].
    by apply N.eqb_neq in Hcolon, Hstop.
  - intros Hdate Hhh Hmm Hss Hplain.
    apply Forall_app in Hplain as [Pdate Hplain].
    apply Forall_app in Hplain as [Phh Hplain].
    apply Forall_app in Hplain as [Pmm Pss].
    unfold timestamp. rewrite !map_app. cbn [map].
    rewrite !plain_map by done. cbn [N.eqb Pos.eqb orb app].
    replace (date ++ 84%N :: hh ++ 45%N :: mm ++ 45%N :: ss
               ++ map (fun c => if ((c =? 58) || (c =? 46))%N then 45%N else c) rest)
      with ((date ++ 84%N :: hh ++ 45%N :: mm ++ 45%N :: ss)
              ++ map (fun c => if ((c =? 58) || (c =? 46))%N then 45%N else c) rest).
    + rewrite take_app_length'; [done|].
      repeat (rewrite ?length_app; cbn [length]). lia.
    + repeat (rewrite <- app_assoc; cbn [app]). reflexivity.
Qed.

(** X16 on a time of day: the name of the file has no colon. *)
Lemma timestamp_of_iso_text_witness :
  timestamp "2026-03-01T09:30:15.250Z" = "2026-03-01T09-30-15".
Proof.
  apply (proj2 (timestamp_of_iso_text [] "2026-03-01" "09" "30" "15" ".250Z"));
    try reflexivity.
  repeat (apply Forall_cons; split; [split; discriminate|]). apply Forall_nil_2.
Defined.

(** ** The tables (reg-renderer.js, table-renderer.js) *)

Section Tables.
Context {number : Type} `{!JsNumber number}.

Lemma clearChildren_loop_nil (children : list (Node number)) :
  clearChildren_loop children = [].
Proof. by induction children. Qed.

Lemma renderRegTable_head_children cols :
  forall tag cls disp click (children : list (Node number)),
    renderRegTable_head cols (ElementNode tag cls disp click children)
    = ElementNode tag cls disp click
        (children
           ++ ((fun c => set_textContent (JStr (label c)) (createElement "th")) <$> cols)).
Proof.
  induction cols as [|c cols IH]; intros tag cls disp click children;
    cbn [renderRegTable_head fmap list_fmap appendChild].
  - by rewrite app_nil_r.
  - by rewrite IH, <- app_assoc.
Qed.

Lemma renderRegTable_row_children (row : JsObject number) cols :
  forall tag cls disp click (children : list (Node number)),
    renderRegTable_row row cols (ElementNode tag cls disp click children)
    = ElementNode tag cls disp click (children ++ (renderRegTable_cell row <$> cols)).
Proof.
  induction cols as [|c cols IH]; intros tag cls disp click children;
    cbn [renderRegTable_row fmap list_fmap appendChild].
  - by rewrite app_nil_r.
  - by rewrite IH, <- app_assoc.
Qed.

Lemma renderRegTable_body_children (rows : list (JsObject number)) cols :
  forall tag cls disp click (children : list (Node number)),
    renderRegTable_body rows cols (ElementNode tag cls disp click children)
    = ElementNode tag cls disp click
        (children
           ++ ((fun row => ElementNode "tr" "" "" [] (renderRegTable_cell row <$> cols))
                 <$> rows)).
Proof.
  induction rows as [|row rows IH]; intros tag cls disp click children;
    cbn [renderRegTable_body fmap list_fmap appendChild].
  - by rewrite app_nil_r.
  - unfold createElement at 1. rewrite renderRegTable_row_children.
    cbn [appendChild app]. by rewrite IH, <- app_assoc.
Qed.

Lemma text_children_text (text : jsstring) :
  flat_map textContent
    match text with [] => [] | _ => [TextNode text : Node number] end = text.
Proof. destruct text; [done|]. cbn [flat_map textContent]. by rewrite app_nil_r. Qed.

Lemma set_textContent_element (v : JsVal number) tag cls disp click children :
  defined v ->
  set_textContent v (ElementNode tag cls disp click children)
  = ElementNode tag cls disp click
      match ToString v with [] => [] | _ => [TextNode (ToString v)] end.
Proof. intros [Hu Hn]. by destruct v. Qed.

Lemma set_textContent_text (v : JsVal number) tag cls disp click children :
  defined v ->
  textContent (set_textContent v (ElementNode tag cls disp click children)) = ToString v.
Proof.
  intros Hdef. rewrite set_textContent_element by done.
  cbn [textContent]. apply text_children_text.
Qed.

Lemma renderRegTable_cell_text (row : JsObject number) col :
  textContent (renderRegTable_cell row col) = ToString (cell_of row col).
Proof.
  pose proof (cell_of_defined row col) as Hdef. unfold renderRegTable_cell.
  fold (cell_of row col). set (val := cell_of row col) in *.
  unfold createElement.
  repeat case_bool_decide.
  - cbn [set_className]. rewrite set_textContent_element by done.
    cbn [appendChild app textContent flat_map].
    by rewrite app_nil_r, text_children_text.
  - destruct (is_string val "") eqn:Hval; cbn [negb].
    + destruct val; try done. cbn in Hval. by case_bool_decide; subst.
    + cbn [set_className]. rewrite set_textContent_element by done.
      cbn [appendChild app textContent flat_map].
      by rewrite app_nil_r, text_children_text.
  - destruct (wrap col).
    + cbn [set_className]. rewrite set_textContent_element by done.
      cbn [addClickListener appendChild app textContent flat_map].
      by rewrite app_nil_r, text_children_text.
    + by apply set_textContent_text.
Qed.

Lemma renderRegTable_cell_listeners (row : JsObject number) col :
  listeners_in (renderRegTable_cell row col)
  = if clamped col
    then [{| sidebar_title := label col; sidebar_content := cell_of row col |}]
    else [].
Proof.
  pose proof (cell_of_defined row col) as Hdef. unfold renderRegTable_cell, clamped.
  fold (cell_of row col). set (val := cell_of row col) in *.
  unfold createElement.
  destruct (decide (key col = "payment_confirmed")) as [Hpc|Hpc].
  { rewrite !(bool_decide_eq_true_2 _ Hpc). cbn [negb andb]. rewrite andb_false_r.
    cbn [set_className]. rewrite set_textContent_element by done.
    cbn [appendChild app listeners_in flat_map]. by destruct (ToString val). }
  rewrite !(bool_decide_eq_false_2 _ Hpc).
  destruct (decide (key col = "has_file")) as [Hhf|Hhf].
  { rewrite !(bool_decide_eq_true_2 _ Hhf). cbn [negb andb]. rewrite andb_false_r.
    destruct (is_string val "") eqn:Hval; cbn [negb]; [done|].
    cbn [set_className]. rewrite set_textContent_element by done.
    cbn [appendChild app listeners_in flat_map]. by destruct (ToString val). }
  rewrite !(bool_decide_eq_false_2 _ Hhf). cbn [negb]. rewrite !andb_true_r.
  destruct (wrap col).
  - cbn [set_className]. rewrite set_textContent_element by done.
    cbn [addClickListener appendChild app listeners_in flat_map].
    by destruct (ToString val).
  - rewrite set_textContent_element by done. cbn [listeners_in].
    by destruct (ToString val).
Qed.

(** The table [renderRegTable] builds. *)
Lemma renderRegTable_table (tag cls disp : jsstring) (click : list (SidebarCall number))
    (old : list (Node number)) (empty : option (Node number))
    (row : JsObject number) (rows : list (JsObject number)) (cols : list ColumnDef) :
  renderRegTable (Some (ElementNode tag cls disp click old)) empty (row :: rows) cols
  = Ok (ElementNode tag cls disp click
          [ElementNode "table" "" "" []
             [ElementNode "thead" "" "" []
                [ElementNode "tr" "" "" []
                   ((fun c => set_textContent (JStr (label c)) (createElement "th"))
                      <$> cols)];
              ElementNode "tbody" "" "" []
                ((fun r => ElementNode "tr" "" "" [] (renderRegTable_cell r <$> cols))
                   <$> row :: rows)]]).
Proof.
  unfold renderRegTable, createElement.
  rewrite renderRegTable_head_children, renderRegTable_body_children.
  cbn [clearChildren appendChild mbind result_bind app]. by rewrite clearChildren_loop_nil.
Qed.

Lemma table_text_of_cells (cell : JsObject number -> ColumnDef -> Node number)
    (rows : list (JsObject number)) (cols : list ColumnDef) :
  (forall row col, textContent (cell row col) = ToString (cell_of row col)) ->
  table_text
    (ElementNode "table" "" "" []
       [ElementNode "thead" "" "" []
          [ElementNode "tr" "" "" []
             ((fun c => set_textContent (JStr (label c)) (createElement "th")) <$> cols)];
        ElementNode "tbody" "" "" []
          ((fun r => ElementNode "tr" "" "" [] (cell r <$> cols)) <$> rows)])
  = map (map ToString) (ws_data (buildSheet rows cols)).
Proof.
  intros Hcell. rewrite buildSheet_sheet. unfold ws_data, sheet_lines, table_text.
  cbn [childNodes_of flat_map map app]. rewrite app_nil_r, !map_is_fmap.
  f_equal.
  - rewrite <- !list_fmap_compose. apply list_fmap_ext. intros _ c _.
    unfold compose, createElement. by rewrite set_textContent_text.
  - rewrite <- !list_fmap_compose.
    apply list_fmap_ext. intros _ r _. unfold compose. cbn [childNodes_of].
    rewrite !map_is_fmap, <- !list_fmap_compose.
    apply list_fmap_ext. intros _ c _. unfold compose. apply Hcell.
Qed.


(** X18.  [renderRegTable] throws a [TypeError] when the page has no
    [#tableWrap], with or without rows.  Without rows it empties
    [#tableWrap] and puts the placeholder [#emptyState] there, made
    visible, when the page has one, and nothing when it has none.  And
    what it leaves does not depend on what [#tableWrap] held: rendering
    again gives what rendering once gave. *)
Theorem renderRegTable_without_rows_or_wrap
    (wrap : Node number) (empty : option (Node number))
    (rows : list (JsObject number)) (cols : list ColumnDef) :
  renderRegTable None empty rows cols = Throw TypeError
  /\ (forall tag cls disp click old,
        renderRegTable (Some (ElementNode tag cls disp click old)) empty [] cols
        = Ok (ElementNode tag cls disp click
                match empty with
                | Some placeholder => [set_display "" placeholder]
                | None => []
                end))
  /\ (wrap' ← renderRegTable (Some wrap) empty rows cols;
      renderRegTable (Some wrap') empty rows cols)
     = renderRegTable (Some wrap) empty rows cols.
Proof.
  split; [by destruct rows|]. split.
  - intros tag cls disp click old. unfold renderRegTable.
    cbn [clearChildren mbind result_bind]. rewrite clearChildren_loop_nil.
    by destruct empty.
  - destruct wrap as [data|tag cls disp click old].
    + destruct rows; cbn; by destruct empty.
    + destruct rows as [|row rows].
      * unfold renderRegTable. cbn [clearChildren mbind result_bind].
        rewrite clearChildren_loop_nil.
        destruct empty; cbn [appendChild app clearChildren mbind result_bind];
          by rewrite ?clearChildren_loop_nil.
      * rewrite renderRegTable_table. cbn [mbind result_bind].
        by rewrite renderRegTable_table.
Qed.


(** X20.  From a raw registration to its payment cell: the cell holds one
    badge, of class [badge-approved] reading [Yes] exactly when the raw
    [payment_confirmed] is [true], and of class [badge-pending-pay]
    otherwise, reading [No] when it is [false] and nothing when it is
    anything else or missing. *)
Theorem payment_badge_of_a_registration (raw : JsObject number) :
  exists row,
    transformRegistration (JObj raw) = Ok row
    /\ renderRegTable_cell row (column "payment_confirmed" "Payment Confirmed")
       = ElementNode "td" "" "" []
           [match prop raw "payment_confirmed" with
            | JBool true =>
                ElementNode "span" "badge badge-approved" "" [] [TextNode "Yes"]
            | JBool false =>
                ElementNode "span" "badge badge-pending-pay" "" [] [TextNode "No"]
            | _ => ElementNode "span" "badge badge-pending-pay" "" [] []
            end].
Proof.
  assert (forall row,
            transformRegistration (JObj raw) = Ok row ->
            prop row "payment_confirmed" = boolStr (prop raw "payment_confirmed")) as Hprop.
  { by intros row [= <-]. }
  eexists. split; [reflexivity|].
  unfold renderRegTable_cell. cbn [key column]. rewrite (Hprop _ eq_refl).
  rewrite (bool_decide_eq_true_2 _ eq_refl).
  by destruct (prop raw "payment_confirmed") as [| |[]| | | |].
Qed.

(** X21.  From a raw abstract or payment receipt to its file cell: when
    the raw [file_path] is a non-empty string the cell holds one badge of
    class [badge-file] reading the final segment of the path (the whole
    path when that segment is empty); when it is missing or falsy the cell
    is empty. *)
Theorem file_badge_of_an_attachment (raw : JsObject number) (bucket : jsstring) :
  path_or_nothing (prop raw "file_path") ->
  Forall (fun single : JsVal number -> result (JsObject number) =>
    exists row,
      single (JObj raw) = Ok row
      /\ renderRegTable_cell row (column_ui "has_file" "File" bucket)
         = ElementNode "td" "" "" []
             match prop raw "file_path" with
             | JStr (c :: path) =>
                 [ElementNode "span" "badge badge-file" "" []
                    [TextNode (path_label (c :: path))]]
             | _ => []
             end)
    [transformAbstract; transformPayment].
Proof.
  intros Hpath.
  assert (forall single : JsVal number -> result (JsObject number),
            single = transformAbstract \/ single = transformPayment ->
            returns (single (JObj raw)) ->
            exists row,
              single (JObj raw) = Ok row
              /\ renderRegTable_cell row (column_ui "has_file" "File" bucket)
                 = ElementNode "td" "" "" []
                     match prop raw "file_path" with
                     | JStr (c :: path) =>
                         [ElementNode "span" "badge badge-file" "" []
                            [TextNode (path_label (c :: path))]]
                     | _ => []
                     end) as Hsingle.
  { intros single Hwhich [row Hrow]. exists row. split; [done|].
    destruct (attachment_row_file single raw row Hwhich Hrow)
      as (label & Hlabel & Hprop & _).
    unfold renderRegTable_cell. cbn [key column_ui]. rewrite Hprop.
    rewrite (bool_decide_eq_false_2 ("has_file" = "payment_confirmed")) by done.
    rewrite (bool_decide_eq_true_2 _ eq_refl).
    destruct (prop raw "file_path") as [| |b|n|s| |] eqn:Hfp;
      try done; try (by injection Hlabel as <-).
    - destruct b; [done|]. by injection Hlabel as <-.
    - unfold has_file_of, fileLabel in Hlabel. cbn [truthy] in Hlabel.
      destruct (negb (number_is_falsy n)); [done|]. by injection Hlabel as <-.
    - destruct s as [|c s]; [by injection Hlabel as <-|].
      rewrite has_file_of_string in Hlabel by done. injection Hlabel as <-.
      pose proof (path_label_nonempty (c :: s)) as Hne.
      destruct (path_label (c :: s)) as [|c' l'] eqn:Hl; [by destruct Hne|]. done. }
  each_element; apply Hsingle; auto.
  - destruct (transformAbstract_columns raw Hpath) as (row & Hrow & _). by exists row.
  - destruct (transformPayment_columns raw Hpath) as (row & Hrow & _). by exists row.
Qed.

Lemma renderTable_head_children cols :
  forall tag cls disp click (children : list (Node number)),
    renderTable_head cols (ElementNode tag cls disp click children)
    = ElementNode tag cls disp click
        (children
           ++ ((fun c => set_textContent (JStr (label c)) (createElement "th")) <$> cols)).
Proof.
  induction cols as [|c cols IH]; intros tag cls disp click children;
    cbn [renderTable_head fmap list_fmap appendChild].
  - by rewrite app_nil_r.
  - by rewrite IH, <- app_assoc.
Qed.

Lemma renderTable_row_children (row : JsObject number) cols :
  forall tag cls disp click (children : list (Node number)),
    renderTable_row row cols (ElementNode tag cls disp click children)
    = ElementNode tag cls disp click (children ++ (renderTable_cell row <$> cols)).
Proof.
  induction cols as [|c cols IH]; intros tag cls disp click children;
    cbn [renderTable_row fmap list_fmap appendChild].
  - by rewrite app_nil_r.
  - by rewrite IH, <- app_assoc.
Qed.

Lemma renderTable_body_children (rows : list (JsObject number)) :
  forall tag cls disp click (children : list (Node number)),
    renderTable_body rows (ElementNode tag cls disp click children)
    = ElementNode tag cls disp click
        (children
           ++ ((fun row =>
                  ElementNode "tr" "" "" [] (renderTable_cell row <$> DISPLAY_COLUMNS))
                 <$> rows)).
Proof.
  induction rows as [|row rows IH]; intros tag cls disp click children;
    cbn [renderTable_body fmap list_fmap appendChild].
  - by rewrite app_nil_r.
  - unfold createElement at 1. rewrite renderTable_row_children.
    cbn [appendChild app]. by rewrite IH, <- app_assoc.
Qed.

Lemma renderTable_table (tag cls disp : jsstring) (click : list (SidebarCall number))
    (old : list (Node number)) (empty : option (Node number))
    (row : JsObject number) (rows : list (JsObject number)) :
  renderTable (Some (ElementNode tag cls disp click old)) empty (row :: rows)
  = Ok (ElementNode tag cls disp click
          [ElementNode "table" "" "" []
             [ElementNode "thead" "" "" []
                [ElementNode "tr" "" "" []
                   ((fun c => set_textContent (JStr (label c)) (createElement "th"))
                      <$> DISPLAY_COLUMNS)];
              ElementNode "tbody" "" "" []
                ((fun r =>
                    ElementNode "tr" "" "" [] (renderTable_cell r <$> DISPLAY_COLUMNS))
                   <$> row :: rows)]]).
Proof.
  unfold renderTable, createElement.
  rewrite renderTable_head_children, renderTable_body_children. reflexivity.
Qed.

Lemma renderTable_cell_text (row : JsObject number) col :
  textContent (renderTable_cell row col) = ToString (cell_of row col).
Proof.
  pose proof (cell_of_defined row col) as Hdef. unfold renderTable_cell.
  fold (cell_of row col). set (val := cell_of row col) in *.
  unfold createElement.
  destruct (bool_decide (key col = "status") && negb (is_string val "")).
  - cbn [set_className]. rewrite set_textContent_element by done.
    cbn [appendChild app textContent flat_map].
    by rewrite app_nil_r, text_children_text.
  - destruct (wrap col).
    + cbn [set_className]. rewrite set_textContent_element by done.
      cbn [addClickListener appendChild app textContent flat_map].
      by rewrite app_nil_r, text_children_text.
    + by apply set_textContent_text.
Qed.

Lemma renderTable_cell_plain (row : JsObject number) col :
  key col <> "payment_confirmed" -> key col <> "has_file" ->
  (key col = "status" -> cell_of row col = JStr "") ->
  renderTable_cell row col = renderRegTable_cell row col.
Proof.
  intros Hpc Hhf Hstatus. unfold renderTable_cell, renderRegTable_cell.
  fold (cell_of row col).
  rewrite (bool_decide_eq_false_2 _ Hpc), (bool_decide_eq_false_2 _ Hhf).
  case_bool_decide as Hkey; [|done]. by rewrite (Hstatus Hkey).
Qed.


End Tables.

(** X21 on an abstract with a file: the badge reads the name of the
    file. *)
Lemma file_badge_of_an_attachment_witness :
  exists row : JsObject exact_decimal,
    transformAbstract (JObj sample_raw_abstract) = Ok row
    /\ renderRegTable_cell row (column_ui "has_file" "File" "abstracts")
       = ElementNode "td" "" "" []
           [ElementNode "span" "badge badge-file" "" [] [TextNode "u1-talk.pdf"]].
Proof.
  assert (path_or_nothing (prop sample_raw_abstract "file_path")) as Hpath.
  { right. exists "abstracts/u1-talk.pdf". vm_compute. reflexivity. }
  pose proof (file_badge_of_an_attachment sample_raw_abstract "abstracts" Hpath) as Hboth.
  apply Forall_cons in Hboth as [(row & Hrow & Hcell) _].
  exists row. split; [exact Hrow|]. rewrite Hcell. vm_compute. reflexivity.
Defined.

(** ** Records that are no objects (transform.js, reg-transform.js) *)

Section AnyRecord.
Context {number : Type} `{!JsNumber number}.

Lemma transformRow_returns (raw : JsVal number) :
  not_nullish raw = true -> returns (transformRow raw).
Proof.
  intros Hraw.
  assert (forall k, exists v, get raw k = Ok v) as Hget.
  { intros k. destruct raw; try done; by eexists. }
  unfold transformRow.
  repeat match goal with
         | |- context [get raw ?k] =>
             let v := fresh "v" in
             let Hv := fresh "Hv" in
             destruct (Hget k) as [v Hv]; rewrite Hv; clear Hv; cbn [mbind result_bind]
         | |- context [flattenOrganizer ?b ?p] =>
             rewrite (flattenOrganizer_literal b p); cbn [mbind result_bind]
         | |- context [normaliseKeywords ?kw] =>
             let s := fresh "s" in
             let Hs := fresh "Hs" in
             destruct (normaliseKeywords_returns_string kw) as [s Hs]; rewrite Hs; clear Hs;
             cbn [mbind result_bind]
         end.
  by eexists.
Qed.

Lemma has_file_of_path (v label : JsVal number) :
  has_file_of v = Ok label -> path_or_nothing v.
Proof.
  intros Hlabel. destruct (truthy v) eqn:Htruthy; [|by left].
  right. unfold has_file_of, fileLabel in Hlabel. rewrite Htruthy in Hlabel.
  destruct v; try done. by eexists.
Qed.

Lemma record_fields (raw : JsVal number) :
  not_nullish raw = true ->
  (exists o, raw = JObj o) \/ forall k, get raw k = Ok JUndefined.
Proof. destruct raw; try done; intros _; (by left; eexists) || by right. Qed.


End AnyRecord.

(** ** More on the tables (reg-renderer.js, table-renderer.js) *)

Section MoreTables.
Context {number : Type} `{!JsNumber number}.


Lemma renderRegTable_cell_ext (row row' : JsObject number) col :
  prop row (key col) = prop row' (key col) ->
  renderRegTable_cell row col = renderRegTable_cell row' col.
Proof. intros Hprop. unfold renderRegTable_cell. by rewrite Hprop. Qed.

(** X25.  A table shows nothing of a row but the keys of its columns: on
    rows that agree under every column's key [renderRegTable] gives the
    same result.  So the [notes] of the abstracts are not in the table of
    the abstracts page either: deleting them from every row leaves the
    table as it was. *)
Theorem tables_read_declared_columns_only
    (wrap empty : option (Node number)) (rows rows' : list (JsObject number))
    (cols : list ColumnDef) :
  (Forall2 (fun row row' => Forall (fun c => prop row (key c) = prop row' (key c)) cols)
     rows rows' ->
   renderRegTable wrap empty rows cols = renderRegTable wrap empty rows' cols)
  /\ renderRegTable wrap empty (delete "notes" <$> rows) (uiColumns ABSTRACT_COLUMNS)
     = renderRegTable wrap empty rows (uiColumns ABSTRACT_COLUMNS).
Proof.
  assert (forall (rs rs' : list (JsObject number)) cs,
            Forall2 (fun row row' => Forall (fun c => prop row (key c) = prop row' (key c)) cs)
              rs rs' ->
            renderRegTable wrap empty rs cs = renderRegTable wrap empty rs' cs) as Hext.
  { intros rs rs' cs Hrows.
    destruct Hrows as [|r r' rs rs' Hr Hrs]; [done|].
    destruct wrap as [[data|tag cls disp click old]|]; [| |done].
    - unfold renderRegTable. cbn [clearChildren mbind result_bind appendChild]. done.
    - rewrite !renderRegTable_table. do 7 f_equal.
      assert (Forall2 (fun row row' =>
                         Forall (fun c => prop row (key c) = prop row' (key c)) cs)
                (r :: rs) (r' :: rs')) as Hall by (by constructor).
      clear Hr Hrs. induction Hall as [|x x' xs xs' Hx _ IH]; [done|].
      cbn [fmap list_fmap]. apply (f_equal2 cons); [|exact IH]. f_equal.
      apply Forall_fmap_ext_1. eapply Forall_impl; [exact Hx|].
      intros c Hc. by apply renderRegTable_cell_ext. }
  split; [apply Hext|].
  apply Hext. apply Forall2_fmap_l, Forall_Forall2_diag, Forall_true. intros row.
  let cols := eval cbv in (uiColumns ABSTRACT_COLUMNS) in
  change (uiColumns ABSTRACT_COLUMNS) with cols.
  each_element; unfold prop; by rewrite lookup_delete_ne.
Qed.

End MoreTables.
